(** * Public Spaces dashboard (app.py): data pipeline and its properties

    A shallow embedding of the data-processing part of [app.py]: the
    [clean_ref_area] helper of [load_data], the area filter, the
    [groupby]/[sum] aggregations, [aggregate_data], the top-N selection
    ([DataFrame.nlargest]), the detail lookup and [create_binary_pie_charts].

    Conventions of the embedding.
    - Python [str] values are [string]s (byte strings, UTF-8).  The only
      characters the code inspects are ['/'] and ['_'], which are ASCII and
      never occur inside a multi-byte UTF-8 sequence.
    - A DataFrame is a list of rows together with its column index.  The two
      text columns [Area] and [Town] are record fields; the numeric columns
      are a dictionary from column label to an [int64] cell.  [Area] is
      always text ([load_data] derives it with [clean_ref_area]); a cell of
      [Town] is text or NaN, which is what [read_csv] makes of an empty
      cell.
    - [int64] arithmetic wraps around, as numpy's does.
    - [total_score / town_count] is the float64 quotient: the operands are
      converted to float64 and the quotient is rounded to the nearest
      float64, ties to even; a zero divisor gives an infinity or NaN and no
      exception.  A float64 is held as the rational it denotes; see
      [Pd.inf] and [Pd.nan] for the three values that denote none.
    - A file without data rows gives a table whose columns are all of dtype
      object.
    - pandas operations follow their documented behaviour.
    - A Python exception is a [Raise] outcome; the widgets' return values are
      inputs of a run. *)

From Stdlib Require Import ZArith QArith Qabs String Ascii List Lia Permutation Sorted.
From Stdlib Require Import OrderedTypeEx.
From Stdlib Require Qcanon.
From stdpp Require Import gmap strings list.

Close Scope Q_scope.
Open Scope Z_scope.
Open Scope string_scope.

(** ** Python strings *)

Module Py.

(** [s.split(sep)] for a one-character separator: the pieces between the
    occurrences of [sep]; never the empty list. *)
Fixpoint split (sep : ascii) (s : string) : list string :=
  match s with
  | EmptyString => [EmptyString]
  | String c rest =>
      if Ascii.eqb c sep then EmptyString :: split sep rest
      else match split sep rest with
           | piece :: pieces => String c piece :: pieces
           | [] => [String c EmptyString]
           end
  end.

(** [pieces[-1]]; the default is returned for the empty list only, where
    Python raises [IndexError]. [split] never returns the empty list. *)
Definition last_item (pieces : list string) : string :=
  List.last pieces EmptyString.

Definition replace_ascii (old new c : ascii) : ascii :=
  if Ascii.eqb c old then new else c.

(** [s.replace(old, new)] for one-character [old] and [new]. *)
Fixpoint replace (old new : ascii) (s : string) : string :=
  match s with
  | EmptyString => EmptyString
  | String c rest => String (replace_ascii old new c) (replace old new rest)
  end.

(** [sep in s]. *)
Fixpoint contains (sep : ascii) (s : string) : bool :=
  match s with
  | EmptyString => false
  | String c rest => Ascii.eqb c sep || contains sep rest
  end.

Definition is_lower (c : ascii) : bool :=
  let n := nat_of_ascii c in (97 <=? n)%nat && (n <=? 122)%nat.

Definition is_upper (c : ascii) : bool :=
  let n := nat_of_ascii c in (65 <=? n)%nat && (n <=? 90)%nat.

Definition to_upper (c : ascii) : ascii :=
  if is_lower c then ascii_of_nat (nat_of_ascii c - 32) else c.

Definition to_lower (c : ascii) : ascii :=
  if is_upper c then ascii_of_nat (nat_of_ascii c + 32) else c.

(** [s.title()] on ASCII text: a letter that follows a letter is lowered,
    any other letter is raised. *)
Fixpoint title_from (prev_cased : bool) (s : string) : string :=
  match s with
  | EmptyString => EmptyString
  | String c rest =>
      if is_lower c || is_upper c
      then String (if prev_cased then to_lower c else to_upper c) (title_from true rest)
      else String c (title_from false rest)
  end.

Definition title (s : string) : string := title_from false s.

(** Whether every character is ASCII; [title] is [str.title()] on such
    text only. *)
Fixpoint is_ascii (s : string) : bool :=
  match s with
  | EmptyString => true
  | String c rest => (nat_of_ascii c <? 128)%nat && is_ascii rest
  end.

(** A value of a text column: a [str], or the float NaN that stands for a
    missing value. *)
Inductive obj :=
| Str (s : string)
| NaN.

Definition is_str (o : obj) : bool :=
  match o with Str _ => true | NaN => false end.

(** The [str] values among [items], in order. *)
Fixpoint strs (items : list obj) : list string :=
  match items with
  | [] => []
  | Str s :: rest => s :: strs rest
  | NaN :: rest => strs rest
  end.

(** Truth value of an optional string: [None] and [''] are falsy. *)
Definition truthy (v : option string) : bool :=
  match v with
  | None => false
  | Some EmptyString => false
  | Some (String _ _) => true
  end.

End Py.

Coercion Py.Str : string >-> Py.obj.

#[global] Instance obj_eq_dec : EqDecision Py.obj.
Proof. solve_decision. Defined.

(** ** [load_data]: deriving [Area] from [refArea] *)

(** [url.split('/')[-1].replace('_', ' ')] *)
Definition clean_ref_area (url : string) : string :=
  Py.replace "_" " " (Py.last_item (Py.split "/" url)).

(** ** Exceptions and page output *)

Inductive exn := KeyError | ValueError | IndexError | TypeError.

Inductive outcome (A : Type) : Type :=
| Ok (a : A)
| Raise (e : exn).
Arguments Ok {A} a.
Arguments Raise {A} e.

Definition outcome_bind {A B} (m : outcome A) (f : A -> outcome B) : outcome B :=
  match m with
  | Ok a => f a
  | Raise e => Raise e
  end.

(** [sep.join(items)]: [TypeError] ("expected str instance, float found")
    when an item is NaN. *)
Definition join (sep : string) (items : list Py.obj) : outcome string :=
  if forallb Py.is_str items then Ok (String.concat sep (Py.strs items))
  else Raise TypeError.

(** ** The pandas operations the script uses *)

Module Pd.

(** *** int64 cells *)

Definition wrap64 (z : Z) : Z := (z + 2 ^ 63) mod 2 ^ 64 - 2 ^ 63.

Definition add64 (a b : Z) : Z := wrap64 (a + b).

(** [Series.sum()] of an int64 column. *)
Definition sum64 (column : list Z) : Z := fold_left add64 column 0.

(** The sum over the integers, without wrap-around. *)
Definition exact_sum (column : list Z) : Z := fold_right Z.add 0 column.

(** *** float64 cells

    A float64 is held as the rational it denotes, in lowest terms.  The
    infinities are held as [2^1024] and [-2^1024], the first powers of two
    beyond the finite range, and NaN as [-2^1025]: this keeps the order in
    which [nlargest] ranks them, an infinity beyond every number and NaN
    after everything else. *)

Definition inf : Q := inject_Z (2 ^ 1024).
Definition neg_inf : Q := inject_Z (- 2 ^ 1024).
Definition nan : Q := inject_Z (- 2 ^ 1025).

(** [2^e] *)
Definition pow2 (e : Z) : Q :=
  if (0 <=? e)%Z then inject_Z (2 ^ e) else (/ inject_Z (2 ^ (- e)))%Q.

(** The exponent of a positive rational: [2^e <= q < 2^(e+1)]. *)
Definition floor_log2 (q : Q) : Z :=
  let k := Z.log2 (Qnum q) - Z.log2 (Zpos (Qden q)) in
  if Qle_bool (pow2 k) q then k else k - 1.

(** The nearest integer, ties to even. *)
Definition round_half_even (q : Q) : Z :=
  let d := Zpos (Qden q) in
  let f := Qnum q / d in
  let r := 2 * (Qnum q mod d) in
  if (r <? d)%Z then f
  else if (d <? r)%Z then f + 1
  else if Z.even f then f else f + 1.

(** The nearest float64, ties to even, of a rational in the range of the
    normal numbers: 53 significant bits. *)
Definition round64 (q : Q) : Q :=
  let q := Qred q in
  if Qeq_bool q 0 then 0%Q
  else
    let ulp := pow2 (floor_log2 (Qabs q) - 52) in
    Qred (inject_Z (round_half_even (q / ulp)) * ulp)%Q.

(** int64 / int64, numpy's [true_divide]: both operands become float64 and
    the quotient is rounded; a zero divisor gives [inf], [-inf] or (for
    [0 / 0]) NaN, without an exception. *)
Definition true_divide (a b : Z) : Q :=
  if (b =? 0)%Z then
    if (0 <? a)%Z then inf else if (a <? 0)%Z then neg_inf else nan
  else round64 (round64 (inject_Z a) / round64 (inject_Z b))%Q.

(** *** Frames *)

Record Row := mkRow {
  Town : Py.obj;      (* text, or NaN for an empty cell of the file *)
  Area : string;
  cells : gmap string Z   (* numeric columns, by label *)
}.

Record DataFrame := mkFrame {
  numeric_columns : list string;
  rows : list Row
}.

(** [df.columns], as a collection of labels. *)
Definition columns (df : DataFrame) : list string :=
  "Area" :: "Town" :: numeric_columns df.

(** [row[label]] for a numeric column the frame has.  Frames are
    rectangular, so the default is never taken for a listed label. *)
Definition cell (label : string) (r : Row) : Z := default 0 (cells r !! label).

Definition has_columns (labels : list string) (df : DataFrame) : bool :=
  forallb (fun c => bool_decide (c ∈ numeric_columns df)) labels.

(** [series.isin(values)], elementwise. *)
Definition isin (values : list string) (s : string) : bool :=
  bool_decide (s ∈ values).

(** [df[mask]]: boolean indexing keeps the rows where the mask holds, in
    order, and the column index. *)
Definition select_rows (mask : Row -> bool) (df : DataFrame) : DataFrame :=
  mkFrame (numeric_columns df) (List.filter mask (rows df)).

(** [series.unique()]: the distinct values in order of first appearance; a
    NaN is a value like another. *)
Definition unique {A} `{EqDecision A} (l : list A) : list A :=
  reverse (remove_dups (reverse l)).

(** [series.nunique()], with the default [dropna=True]: the number of
    distinct values, NaN not counted. *)
Definition nunique (l : list Py.obj) : Z := Z.of_nat (length (unique (Py.strs l))).

(** *** dtypes *)

Inductive dtype := int64 | object.

(** The dtype of the indicator columns of a table as [load_data] returns
    it: [read_csv] infers int64 for a column of integers, and object for
    every column of a file without data rows.  The columns [aggregate_data]
    computes from object columns are object as well. *)
Definition loaded_dtype (df : DataFrame) : dtype :=
  match rows df with
  | [] => object
  | _ :: _ => int64
  end.

(** [nlargest] refuses a column of dtype object. *)
Definition check_numeric (d : dtype) : outcome unit :=
  match d with
  | int64 => Ok tt
  | object => Raise TypeError
  end.

(** *** groupby *)

Fixpoint insert_key (k : string) (l : list string) : list string :=
  match l with
  | [] => [k]
  | x :: rest => if String.leb k x then k :: l else x :: insert_key k rest
  end.

Definition sort_keys (l : list string) : list string := foldr insert_key [] l.

(** [groupby(key)] with the default [sort=True], for a key without missing
    values: one group per distinct key, groups in increasing key order,
    each group holding its rows in frame order. *)
Definition group_keys (key : Row -> string) (rs : list Row) : list string :=
  sort_keys (unique (map key rs)).

Definition groupby (key : Row -> string) (rs : list Row) : list (string * list Row) :=
  map (fun k => (k, List.filter (fun r => String.eqb (key r) k) rs)) (group_keys key rs).

(** [df.groupby('Area')[label].sum().reset_index()] for a numeric column. *)
Definition grouped_sum (label : string) (rs : list Row) : list (string * Z) :=
  map (fun g => (fst g, sum64 (map (cell label) (snd g)))) (groupby Area rs).

(** [df.groupby('Area')[labels].sum().reset_index()] for numeric columns
    [labels]: per area, the sum of each listed column; [KeyError] when a
    listed column is missing. *)
Definition groupby_sum (labels : list string) (df : DataFrame)
  : outcome (list (string * gmap string Z)) :=
  if has_columns labels df then
    Ok (map (fun g => (fst g,
                       list_to_map (map (fun c => (c, sum64 (map (cell c) (snd g)))) labels)))
            (groupby Area (rows df)))
  else Raise KeyError.

(** *** nlargest *)

Fixpoint insert_desc {A} (score : A -> Q) (x : A) (l : list A) : list A :=
  match l with
  | [] => [x]
  | y :: rest =>
      if Qle_bool (score y) (score x) then x :: l else y :: insert_desc score x rest
  end.

(** Rows ordered by decreasing score; rows with equal scores keep the order
    they have in the frame. *)
Definition sort_desc {A} (score : A -> Q) (l : list A) : list A :=
  foldr (insert_desc score) [] l.

(** [frame.nlargest(n, column)] with the default [keep='first']: the first
    [n] rows in decreasing order of the column; no row when [n <= 0]. *)
Definition nlargest {A} (n : Z) (score : A -> Q) (l : list A) : list A :=
  take (Z.to_nat n) (sort_desc score l).

(** [a] is at or above [b] in the order of [nlargest]. *)
Definition above {A} (score : A -> Q) (a b : A) : Prop := (score b <= score a)%Q.


(** [frame.iloc[0]] *)
Definition iloc0 {A} (l : list A) : outcome A :=
  match l with
  | [] => Raise IndexError
  | r :: _ => Ok r
  end.

End Pd.

Import Pd.

(** ** [aggregate_data] *)

Inductive GroupColumn := ByArea | ByTown.

Definition group_label (g : GroupColumn) : string :=
  match g with ByArea => "Area" | ByTown => "Town" end.

(** The rows that have a town, and their town: [groupby('Town')], with the
    default [dropna=True], leaves out the rows whose key is NaN. *)
Definition has_town (r : Row) : bool := Py.is_str (Town r).

Definition town_key (r : Row) : string :=
  match Town r with
  | Py.Str t => t
  | Py.NaN => ""
  end.

(** A row of the aggregated frame.  [group] is the value of the grouping
    column. *)
Record AggRow := mkAgg {
  group : string;
  lighting_good : Z;
  parks_good : Z;
  lighting_acceptable : Z;
  parks_acceptable : Z;
  parks_exist : Z;
  parks_bad : Z;
  lighting_bad : Z;
  town_count : Z;
  total_score : Z;
  normalized_score : Q
}.

(** The keys of the dictionary given to [agg]. *)
Definition agg_sum_labels : list string :=
  ["lighting_good"; "parks_good"; "lighting_acceptable"; "parks_acceptable";
   "parks_exist"; "parks_bad"; "lighting_bad"].

Definition agg_labels : list string := agg_sum_labels ++ ["Town"].

(** One group: the seven sums, [Town: 'nunique'], then [total_score] and
    [normalized_score] as the assignments after [reset_index] compute them. *)
Definition agg_group (k : string) (members : list Row) : AggRow :=
  let lg := sum64 (map (cell "lighting_good") members) in
  let pg := sum64 (map (cell "parks_good") members) in
  let la := sum64 (map (cell "lighting_acceptable") members) in
  let pa := sum64 (map (cell "parks_acceptable") members) in
  let towns := nunique (map Town members) in
  let total := add64 (add64 (add64 lg pg) la) pa in
  {| group := k;
     lighting_good := lg;
     parks_good := pg;
     lighting_acceptable := la;
     parks_acceptable := pa;
     parks_exist := sum64 (map (cell "parks_exist") members);
     parks_bad := sum64 (map (cell "parks_bad") members);
     lighting_bad := sum64 (map (cell "lighting_bad") members);
     town_count := towns;
     total_score := total;
     normalized_score := true_divide total towns |}.

(** The rows [groupby(group_column).agg({...})] computes, before
    [reset_index]. *)
Definition agg_groups (g : GroupColumn) (rs : list Row) : list AggRow :=
  match g with
  | ByArea => map (fun grp => agg_group (fst grp) (snd grp)) (groupby Area rs)
  | ByTown =>
      map (fun grp => agg_group (fst grp) (snd grp))
          (groupby town_key (List.filter has_town rs))
  end.

(** [aggregate_data(data, group_column)].
    - [agg] raises [KeyError] when a column of its dictionary is missing.
    - [reset_index] inserts the index, named after the grouping column, as a
      column and raises [ValueError] ("cannot insert ..., already exists")
      when the frame already has a column of that name: the aggregated frame
      has a column [Town] (renamed to [town_count] only afterwards), so
      grouping by [Town] raises here. *)
Definition aggregate_data (data : DataFrame) (g : GroupColumn) : outcome (list AggRow) :=
  if negb (has_columns agg_sum_labels data) then Raise KeyError
  else if bool_decide (group_label g ∈ agg_labels) then Raise ValueError
  else Ok (agg_groups g (rows data)).

(** The numeric columns of the aggregated frame, by label. *)
Definition agg_column (label : string) : option (AggRow -> Q) :=
  if String.eqb label "lighting_good" then Some (fun r => inject_Z (lighting_good r))
  else if String.eqb label "parks_good" then Some (fun r => inject_Z (parks_good r))
  else if String.eqb label "lighting_acceptable" then Some (fun r => inject_Z (lighting_acceptable r))
  else if String.eqb label "parks_acceptable" then Some (fun r => inject_Z (parks_acceptable r))
  else if String.eqb label "parks_exist" then Some (fun r => inject_Z (parks_exist r))
  else if String.eqb label "parks_bad" then Some (fun r => inject_Z (parks_bad r))
  else if String.eqb label "lighting_bad" then Some (fun r => inject_Z (lighting_bad r))
  else if String.eqb label "town_count" then Some (fun r => inject_Z (town_count r))
  else if String.eqb label "total_score" then Some (fun r => inject_Z (total_score r))
  else if String.eqb label "normalized_score" then Some normalized_score
  else None.

(** [aggregated.nlargest(n, score_column)] on an aggregated frame whose
    computed columns are numeric: [TypeError] for the grouping column, which
    holds text, [KeyError] for a label the frame lacks.  (The frame
    aggregated from a table without rows has no numeric column; see
    [top_entities].) *)
Definition top_n (g : GroupColumn) (aggregated : list AggRow) (n : Z) (score_column : string)
  : outcome (list AggRow) :=
  match agg_column score_column with
  | Some score => Ok (nlargest n score aggregated)
  | None => if String.eqb score_column (group_label g) then Raise TypeError
            else Raise KeyError
  end.

(** ** Detail lookup *)

(** [top_entities[top_entities[group_column] == selected_entity].iloc[0]] *)
Definition entity_row (top_entities : list AggRow) (selected_entity : string)
  : outcome AggRow :=
  iloc0 (List.filter (fun r => String.eqb (group r) selected_entity) top_entities).

(** The block under [if selected_entity:]: nothing when the selection is
    falsy, otherwise the selected row. *)
Definition detail (top_entities : list AggRow) (selected_entity : option string)
  : outcome (option AggRow) :=
  match selected_entity with
  | Some name =>
      if Py.truthy selected_entity
      then outcome_bind (entity_row top_entities name) (fun r => Ok (Some r))
      else Ok None
  | None => Ok None
  end.

(** What [st.selectbox(..., options)] can return: one of the options, or
    [None] when there is none. *)
Definition selectbox_value (options : list string) (v : option string) : Prop :=
  match v with
  | None => options = []
  | Some name => In name options
  end.

(** ** Page elements *)

Record BarTrace := mkBar {
  bar_x : list string;
  bar_y : list Z;
  bar_name : string;
  marker_color : string
}.

Inductive PieValues :=
| IntValues (v : list Z)
| TextValues (v : list string).

Record Pie := mkPie {
  pie_col : nat;            (* subplot column, 1 or 2 *)
  pie_names : list string;  (* one slice per area *)
  pie_values : PieValues;
  pie_annotation : string
}.

Inductive Figure :=
| StackedBar (title : string) (traces : list BarTrace)
| RankedBar (y : list string) (x : list Q)
| PieGrid (pies : list Pie).

(** What a run puts on the page.  Static text (titles, headers, markdown)
    is not recorded. *)
Inductive element :=
| plotly_chart (fig : Figure)
| detail_view (entity : AggRow)      (* the lines written for the selected row *)
| towns_line (joined : string)       (* st.write(", ".join(related_towns)) *)
| raw_table (selected : list Row)   (* shown with the columns Area and binary_vars *)
| warning (msg : string).

(** A run of page code: the elements rendered so far and either a result
    or the exception that stopped the run. *)
Definition UI (A : Type) : Type := list element * outcome A.

Definition ui_ret {A} (a : A) : UI A := ([], Ok a).

Definition ui_bind {A B} (m : UI A) (f : A -> UI B) : UI B :=
  match snd m with
  | Ok a => ((fst m ++ fst (f a))%list, snd (f a))
  | Raise e => (fst m, Raise e)
  end.

Definition emit (e : element) : UI unit := ([e], Ok tt).

Definition lift {A} (m : outcome A) : UI A := ([], m).

#[local] Instance outcome_mbind : MBind outcome := fun A B f m => outcome_bind m f.
#[local] Instance ui_mbind : MBind UI := fun A B f m => ui_bind m f.

(** [for x in xs: body(x)] *)
Fixpoint for_each {A} (xs : list A) (body : A -> UI unit) : UI unit :=
  match xs with
  | [] => ui_ret tt
  | x :: rest => body x ;; for_each rest body
  end.

(** ** Chart builders *)

(** [create_stacked_bar_chart(data, columns, title, colors)]: one trace per
    pair of [zip(columns, colors)].  [data] is the frame summed over
    [columns], as the script passes it; on a frame that lacked one of them
    [data[col]] would raise [KeyError]. *)
Definition create_stacked_bar_chart (data : list (string * gmap string Z))
    (columns : list string) (title : string) (colors : list string) : Figure :=
  StackedBar title
    (map (fun cc =>
            mkBar (map fst data)
                  (map (fun r => default 0 (snd r !! fst cc)) data)
                  (Py.title (Py.replace "_" " " (fst cc)))
                  (snd cc))
         (combine columns colors)).

(** [variables[i:i+2] for i in range(0, len(variables), 2)] *)
Fixpoint chunks2 (variables : list string) : list (list string) :=
  match variables with
  | [] => []
  | [x] => [[x]]
  | x :: y :: rest => [x; y] :: chunks2 rest
  end.

(** The body of the inner loop for [var] at position [j].  A column the
    frame lacks is skipped.  For a numeric column the pie has one slice per
    area with the summed column.  The two text columns are in the frame as
    well: [Town] is summed by concatenation (of the towns that are not
    missing), and for [Area] the [reset_index] after
    [groupby('Area')['Area']] raises [ValueError]. *)
Definition pie_for (filtered_data : DataFrame) (j : nat) (var : string)
  : outcome (option Pie) :=
  if bool_decide (var ∈ columns filtered_data) then
    let annotation := "Proportion of " ++ Py.title (Py.replace "_" " " var) in
    if String.eqb var "Area" then Raise ValueError
    else if String.eqb var "Town" then
      let pie_data := groupby Area (rows filtered_data) in
      Ok (Some (mkPie (j + 1) (map fst pie_data)
                      (TextValues (map (fun g => String.concat "" (Py.strs (map Town (snd g))))
                                       pie_data))
                      annotation))
    else
      let pie_data := grouped_sum var (rows filtered_data) in
      Ok (Some (mkPie (j + 1) (map fst pie_data) (IntValues (map snd pie_data)) annotation))
  else Ok None.

(** [for j, var in enumerate(chunk)], from position [j] on: the traces added
    to the figure. *)
Fixpoint add_pies (filtered_data : DataFrame) (j : nat) (chunk : list string)
  : outcome (list Pie) :=
  match chunk with
  | [] => Ok []
  | var :: rest =>
      p ← pie_for filtered_data j var;
      ps ← add_pies filtered_data (S j) rest;
      Ok (option_list p ++ ps)%list
  end.

(** The body of the outer loop: the figure of one chunk, sent to the page. *)
Definition pie_figure (filtered_data : DataFrame) (chunk : list string) : UI unit :=
  pies ← lift (add_pies filtered_data 0 chunk);
  emit (plotly_chart (PieGrid pies)).

(** [create_binary_pie_charts(data, variables, selected_areas)]: one figure
    per chunk of two variables. *)
Definition create_binary_pie_charts (data : DataFrame) (variables : list string)
    (selected_areas : list string) : UI unit :=
  let filtered_data := select_rows (fun r => isin selected_areas (Area r)) data in
  for_each (chunks2 variables) (pie_figure filtered_data).

(** ** The script *)

(** The values the widgets return in one run. *)
Record Widgets := mkWidgets {
  selected_areas : list string;     (* sidebar multiselect "Select Areas" *)
  num_top_entities : Z;             (* slider *)
  selected_entity : option string;  (* selectbox *)
  comparison_areas : list string    (* multiselect "Select Areas for Comparison" *)
}.

Definition filtered_df (df : DataFrame) (w : Widgets) : DataFrame :=
  select_rows (fun r => isin (selected_areas w) (Area r)) df.

Definition lighting_data (df : DataFrame) (w : Widgets) :=
  groupby_sum ["lighting_bad"; "lighting_acceptable"; "lighting_good"] (filtered_df df w).

Definition parks_data (df : DataFrame) (w : Widgets) :=
  groupby_sum ["parks_bad"; "parks_acceptable"; "parks_good"] (filtered_df df w).

(** [view_level = 'Areas']: the first branch of the [if] is the one taken. *)
Definition grouped_df (df : DataFrame) : outcome (list AggRow) :=
  aggregate_data df ByArea.

Definition score_column : string := "normalized_score".

(** [grouped_df.nlargest(num_top_entities, score_column)]; [df] is the
    table [load_data] returned, so the score column is numeric unless the
    table has no rows. *)
Definition top_entities (df : DataFrame) (w : Widgets) : outcome (list AggRow) :=
  grouped ← grouped_df df;
  check_numeric (loaded_dtype df) ;;
  top_n ByArea grouped (num_top_entities w) score_column.

Definition binary_vars : list string :=
  ["parks_exist"; "parks_bad"; "lighting_bad"; "lighting_acceptable";
   "lighting_good"; "parks_good"; "parks_acceptable"].

Definition no_area_warning : string :=
  "Please select at least one area for comparison.".

(** [df[df['Area'] == selected_entity]['Town'].unique()] *)
Definition related_towns (df : DataFrame) (name : string) : list Py.obj :=
  unique (map Town (List.filter (fun r => String.eqb (Area r) name) (rows df))).

(** Every row of the area names its town. *)
Definition towns_named (df : DataFrame) (name : string) : Prop :=
  forall r, In r (rows df) -> Area r = name -> Town r <> Py.NaN.

(** The block under [if selected_entity:]: the lookup in the top-N table,
    the lines written for the row, then the towns of the selected area,
    joined. *)
Definition detail_section (df : DataFrame) (top : list AggRow) (w : Widgets) : UI unit :=
  entity ← lift (detail top (selected_entity w));
  match entity, selected_entity w with
  | Some entity_data, Some name =>
      emit (detail_view entity_data) ;;
      joined ← lift (join ", " (related_towns df name));
      emit (towns_line joined)
  | _, _ => ui_ret tt
  end.

(** [if selected_areas: ... else: st.warning(...)], where [selected_areas]
    is by now the value of the comparison multiselect. *)
Definition comparison_section (df : DataFrame) (w : Widgets) : UI unit :=
  match comparison_areas w with
  | _ :: _ =>
      create_binary_pie_charts df binary_vars (comparison_areas w) ;;
      table ← lift (if has_columns binary_vars df
                    then Ok (rows (select_rows (fun r => isin (comparison_areas w) (Area r)) df))
                    else Raise KeyError);
      emit (raw_table table)
  | [] => emit (warning no_area_warning)
  end.

(** One run of the script on the cleaned table [df]. *)
Definition app (df : DataFrame) (w : Widgets) : UI unit :=
  lighting ← lift (lighting_data df w);
  parks ← lift (parks_data df w);
  emit (plotly_chart (create_stacked_bar_chart lighting
          ["lighting_bad"; "lighting_acceptable"; "lighting_good"]
          "Lighting Conditions by Area" ["#FF9999"; "#FFD700"; "#90EE90"])) ;;
  emit (plotly_chart (create_stacked_bar_chart parks
          ["parks_bad"; "parks_acceptable"; "parks_good"]
          "Park Conditions by Area" ["#FF6B6B"; "#FFA07A"; "#98FB98"])) ;;
  top ← lift (top_entities df w);
  emit (plotly_chart (RankedBar (map group top) (map normalized_score top))) ;;
  detail_section df top w ;;
  comparison_section df w.

(** ** Rows of a cleaned table, for the examples *)

(** A row of the table [load_data] returns: the town, its area and the seven
    renamed indicator columns. *)
Definition cleaned_row (town area : string)
    (lighting_good lighting_acceptable parks_good parks_acceptable
     parks_exist parks_bad lighting_bad : Z) : Row :=
  mkRow town area
    (list_to_map [("parks_exist", parks_exist); ("parks_bad", parks_bad);
                  ("lighting_bad", lighting_bad);
                  ("lighting_acceptable", lighting_acceptable);
                  ("lighting_good", lighting_good); ("parks_good", parks_good);
                  ("parks_acceptable", parks_acceptable)]).

(** The same for a row of the file whose [Town] cell is empty. *)
Definition unnamed_row (area : string)
    (lighting_good lighting_acceptable parks_good parks_acceptable
     parks_exist parks_bad lighting_bad : Z) : Row :=
  mkRow Py.NaN area
    (cells (cleaned_row "" area lighting_good lighting_acceptable parks_good
              parks_acceptable parks_exist parks_bad lighting_bad)).

(** The table [load_data] returns for these rows.  Without rows the seven
    columns are there all the same, of dtype object. *)
Definition cleaned_table (rs : list Row) : DataFrame := mkFrame binary_vars rs.

(** ** [load_data]: cleaning the parsed CSV

    [load_data] is modelled from the frame [pd.read_csv] returns (the
    download and the parsing are outside the model; [st.cache_data] only
    avoids recomputing).  A frame is its column index and its rows, each row
    pairing the labels with their cells.  Column labels are taken to be
    distinct, as [read_csv] makes them. *)

Module Load.

(** *** [str.strip()] on UTF-8 text *)

Definition bytes (codes : list nat) : string :=
  string_of_list_ascii (map ascii_of_nat codes).

(** The characters of [str.isspace]: U+0009..U+000D, U+001C..U+0020, U+0085,
    U+00A0, U+1680, U+2000..U+200A, U+2028, U+2029, U+202F, U+205F, U+3000. *)
Definition whitespace : list string :=
  [bytes [9]%nat; bytes [10]%nat; bytes [11]%nat; bytes [12]%nat; bytes [13]%nat;
   bytes [28]%nat; bytes [29]%nat; bytes [30]%nat; bytes [31]%nat; bytes [32]%nat;
   bytes [194; 133]%nat; bytes [194; 160]%nat; bytes [225; 154; 128]%nat;
   bytes [226; 128; 128]%nat; bytes [226; 128; 129]%nat; bytes [226; 128; 130]%nat;
   bytes [226; 128; 131]%nat; bytes [226; 128; 132]%nat; bytes [226; 128; 133]%nat;
   bytes [226; 128; 134]%nat; bytes [226; 128; 135]%nat; bytes [226; 128; 136]%nat;
   bytes [226; 128; 137]%nat; bytes [226; 128; 138]%nat;
   bytes [226; 128; 168]%nat; bytes [226; 128; 169]%nat; bytes [226; 128; 175]%nat;
   bytes [226; 129; 159]%nat; bytes [227; 128; 128]%nat].

(** [s] without the prefix [p], if it starts with it. *)
Fixpoint without_prefix (p s : string) : option string :=
  match p, s with
  | EmptyString, _ => Some s
  | String a p', String b s' => if Ascii.eqb a b then without_prefix p' s' else None
  | String _ _, EmptyString => None
  end.

(** [s] without one leading pattern. *)
Fixpoint skip_one (patterns : list string) (s : string) : option string :=
  match patterns with
  | [] => None
  | p :: rest =>
      match without_prefix p s with
      | Some s' => Some s'
      | None => skip_one rest s
      end
  end.

(** [s] without its leading patterns, at most [fuel] of them. *)
Fixpoint skip_all (patterns : list string) (fuel : nat) (s : string) : string :=
  match fuel with
  | O => s
  | S fuel' =>
      match skip_one patterns s with
      | Some s' => skip_all patterns fuel' s'
      | None => s
      end
  end.

Definition reversed (s : string) : string :=
  string_of_list_ascii (rev (list_ascii_of_string s)).

Definition lstrip (s : string) : string := skip_all whitespace (String.length s) s.

Definition rstrip (s : string) : string :=
  reversed (skip_all (map reversed whitespace) (String.length s) (reversed s)).

(** [s.strip()] *)
Definition strip (s : string) : string := rstrip (lstrip s).

(** *** Frames *)

Inductive Cell :=
| Text (s : string)
| Number (z : Z).

Record Parsed := mkParsed {
  header : list string;                  (* df.columns *)
  body : list (list (string * Cell))     (* the rows, label by label *)
}.

(** [load_data] can also stop on [AttributeError]. *)
Inductive load_exn :=
| Pandas (e : exn)
| AttributeError.

Inductive loaded (A : Type) : Type :=
| Loaded (a : A)
| Failed (e : load_exn).
Arguments Loaded {A} a.
Arguments Failed {A} e.

Definition pandas {A} (m : outcome A) : loaded A :=
  match m with
  | Ok a => Loaded a
  | Raise e => Failed (Pandas e)
  end.

#[local] Instance loaded_mbind : MBind loaded :=
  fun A B f m => match m with Loaded a => f a | Failed e => Failed e end.

(** The labels changed by [f], in the index and in every row. *)
Definition relabel (f : string -> string) (df : Parsed) : Parsed :=
  mkParsed (map f (header df))
           (map (map (fun c => (f (fst c), snd c))) (body df)).

Definition rename_label (mapping : list (string * string)) (label : string) : string :=
  match List.find (fun m => String.eqb (fst m) label) mapping with
  | Some m => snd m
  | None => label
  end.

(** [df.rename(columns=mapping)]: labels outside the mapping are kept, and
    keys of the mapping that are no labels are ignored. *)
Definition rename (mapping : list (string * string)) (df : Parsed) : Parsed :=
  relabel (rename_label mapping) df.

Definition has_label (df : Parsed) (label : string) : bool :=
  bool_decide (label ∈ header df).

(** [df.drop(columns=names)]: [KeyError] unless every name is a label. *)
Definition drop (names : list string) (df : Parsed) : outcome Parsed :=
  if forallb (has_label df) names then
    let keep label := negb (bool_decide (label ∈ names)) in
    Ok (mkParsed (List.filter keep (header df))
                 (map (List.filter (fun c => keep (fst c))) (body df)))
  else Raise KeyError.

(** [row[label]]; every row has a cell for every label of the index, so the
    default stands for no cell of a frame. *)
Definition get (label : string) (row : list (string * Cell)) : Cell :=
  match List.find (fun c => String.eqb (fst c) label) row with
  | Some c => snd c
  | None => Text ""
  end.

(** [df[label]] *)
Definition column (label : string) (df : Parsed) : outcome (list Cell) :=
  if has_label df label then Ok (map (get label) (body df)) else Raise KeyError.

(** [series.apply(clean_ref_area)]: a cell that is no text has no [split]. *)
Fixpoint apply_clean_ref_area (cells : list Cell) : loaded (list Cell) :=
  match cells with
  | [] => Loaded []
  | Text url :: rest =>
      areas ← apply_clean_ref_area rest;
      Loaded (Text (clean_ref_area url) :: areas)
  | Number _ :: _ => Failed AttributeError
  end.

Definition set_cell (label : string) (value : Cell) (row : list (string * Cell))
  : list (string * Cell) :=
  if existsb (fun c => String.eqb (fst c) label) row
  then map (fun c => if String.eqb (fst c) label then (label, value) else c) row
  else (row ++ [(label, value)])%list.

(** [df[label] = values]: the column is replaced, or added as the last one. *)
Definition assign (label : string) (values : list Cell) (df : Parsed) : Parsed :=
  mkParsed (if has_label df label then header df else (header df ++ [label])%list)
           (zip_with (set_cell label) values (body df)).

(** [df[order]]: the listed columns, in that order. *)
Definition reorder (order : list string) (df : Parsed) : outcome Parsed :=
  if forallb (has_label df) order then
    Ok (mkParsed order (map (fun row => map (fun label => (label, get label row)) order)
                            (body df)))
  else Raise KeyError.

Definition short_names : list (string * string) :=
  [("Public Parks Exist", "parks_exist");
   ("State of public parks - bad", "parks_bad");
   ("State of the lighting network - bad", "lighting_bad");
   ("State of the lighting network - acceptable", "lighting_acceptable");
   ("State of the lighting network - good", "lighting_good");
   ("State of public parks - good", "parks_good");
   ("State of public parks - acceptable", "parks_acceptable")].

(** [load_data()], from the parsed CSV on. *)
Definition load_data (parsed : Parsed) : loaded Parsed :=
  let df_cleaned := relabel strip parsed in
  df_cleaned ← pandas (drop ["Observation URI"; "dataset"; "publisher"] df_cleaned);
  let df_cleaned :=
    rename [("Existence of public parks - exists", "Public Parks Exist")] df_cleaned in
  ref_area ← pandas (column "refArea" df_cleaned);
  area ← apply_clean_ref_area ref_area;
  let df_cleaned := assign "Area" area df_cleaned in
  df_cleaned ← pandas (drop ["refArea"; "references"] df_cleaned);
  let column_order :=
    (["Area"; "Public Parks Exist"]
     ++ List.filter (fun col => negb (bool_decide (col ∈ ["Area"; "Public Parks Exist"])))
          (header df_cleaned))%list in
  df_cleaned ← pandas (reorder column_order df_cleaned);
  Loaded (rename short_names df_cleaned).

(** The area cell of a [refArea] cell. *)
Definition area_of (ref_area : Cell) : Cell :=
  match ref_area with
  | Text url => Text (clean_ref_area url)
  | Number z => Number z
  end.

(** A row with its labels stripped. *)
Definition stripped (row : list (string * Cell)) : list (string * Cell) :=
  map (fun c => (strip (fst c), snd c)) row.

(** The labels [load_data] neither keeps in place nor keeps at all. *)
Definition reserved : list string :=
  ["Observation URI"; "dataset"; "publisher"; "refArea"; "references";
   "Existence of public parks - exists"; "Area"; "Public Parks Exist"].

(** A frame as [read_csv] returns it for a CSV of the survey's layout: the
    stripped labels are distinct, the six columns [load_data] names are
    among them, [Public Parks Exist] is not, every row has the labels of
    the index, and the cells of [refArea] are text. *)
Definition survey_layout (parsed : Parsed) : Prop :=
  List.NoDup (map strip (header parsed))
  /\ (forall label,
        In label ["Observation URI"; "dataset"; "publisher"; "refArea"; "references";
                  "Existence of public parks - exists"] ->
        In label (map strip (header parsed)))
  /\ ~ In "Public Parks Exist" (map strip (header parsed))
  /\ (forall row, In row (body parsed) -> map fst row = header parsed)
  /\ (forall row, In row (body parsed) ->
        exists url, get "refArea" (stripped row) = Text url).

(** A frame as [read_csv] returns it and on which [load_data] keeps the
    labels distinct: the stripped labels are distinct, at most one of them
    names the existence of parks, and every row has the labels of the
    index.  On these frames a label selects one column, as the lists of
    this model have it. *)
Definition csv_frame (parsed : Parsed) : Prop :=
  List.NoDup (map strip (header parsed))
  /\ ~ (In "Existence of public parks - exists" (map strip (header parsed))
        /\ In "Public Parks Exist" (map strip (header parsed)))
  /\ (forall row, In row (body parsed) -> map fst row = header parsed).

(** A small file of the survey's layout, with white space around some
    labels. *)
Definition sample : Parsed :=
  mkParsed
    ["Observation URI "; " dataset"; "publisher"; "refArea"; "references"; "Town";
     "Existence of public parks - exists"; "State of public parks - bad "]
    [[("Observation URI ", Text "http://data.example/obs/1"); (" dataset", Text "d");
      ("publisher", Text "p"); ("refArea", Text "http://data.example/ref/Beirut_District");
      ("references", Text "r"); ("Town", Text "T1");
      ("Existence of public parks - exists", Number 1);
      ("State of public parks - bad ", Number 0)];
     [("Observation URI ", Text "http://data.example/obs/2"); (" dataset", Text "d");
      ("publisher", Text "p"); ("refArea", Text "http://data.example/ref/Akkar");
      ("references", Text "r"); ("Town", Text "T2");
      ("Existence of public parks - exists", Number 0);
      ("State of public parks - bad ", Number 1)]].

(** What [load_data] makes of [sample]. *)
Definition cleaned_sample : Parsed :=
  mkParsed ["Area"; "parks_exist"; "Town"; "parks_bad"]
    [[("Area", Text "Beirut District"); ("parks_exist", Number 1);
      ("Town", Text "T1"); ("parks_bad", Number 0)];
     [("Area", Text "Akkar"); ("parks_exist", Number 0);
      ("Town", Text "T2"); ("parks_bad", Number 1)]].

End Load.

(** ** Properties of the string helpers *)

Lemma split_not_nil sep s : Py.split sep s <> [].
Proof.
  destruct s as [|c rest]; simpl; [discriminate|].
  destruct (Ascii.eqb c sep); [discriminate|].
  destruct (Py.split sep rest); discriminate.
Qed.

Lemma last_item_cons_piece c piece pieces :
  Py.last_item (String c piece :: pieces) =
  match pieces with
  | [] => String c piece
  | _ :: _ => Py.last_item (piece :: pieces)
  end.
Proof. destruct pieces; reflexivity. Qed.

(** Without a separator the text is the single piece. *)
Lemma split_no_sep sep s :
  Py.contains sep s = false -> Py.split sep s = [s].
Proof.
  induction s as [|c rest IH]; simpl; intros H; [reflexivity|].
  apply orb_false_iff in H as [Hc Hrest].
  rewrite Hc, (IH Hrest). reflexivity.
Qed.

(** The last piece of [p ++ sep ++ s] is the last piece of [s]. *)
Lemma last_split_app sep p s :
  Py.last_item (Py.split sep (p ++ String sep s)) = Py.last_item (Py.split sep s).
Proof.
  induction p as [|c rest IH]; simpl.
  - rewrite Ascii.eqb_refl.
    change (Py.last_item (EmptyString :: Py.split sep s)) with
      (List.last (EmptyString :: Py.split sep s) EmptyString).
    pose proof (split_not_nil sep s) as Hne.
    destruct (Py.split sep s); [contradiction|reflexivity].
  - destruct (Ascii.eqb c sep).
    + pose proof (split_not_nil sep (rest ++ String sep s)) as Hne.
      unfold Py.last_item in *. simpl.
      destruct (Py.split sep (rest ++ String sep s)); [contradiction|exact IH].
    + pose proof (split_not_nil sep (rest ++ String sep s)) as Hne.
      destruct (Py.split sep (rest ++ String sep s)) as [|piece pieces] eqn:E;
        [contradiction|].
      rewrite last_item_cons_piece.
      destruct pieces as [|q qs]; [|exact IH].
      (* a single piece would contain no separator *)
      exfalso. clear IH Hne.
      revert piece E. induction rest as [|d rest' IH']; simpl; intros piece E.
      * rewrite Ascii.eqb_refl in E. inversion E as [[Hp Hs]].
        exact (split_not_nil _ _ Hs).
      * destruct (Ascii.eqb d sep).
        { inversion E as [[Hp Hs]]. exact (split_not_nil _ _ Hs). }
        destruct (Py.split sep (rest' ++ String sep s)) as [|p1 ps] eqn:E1.
        -- exact (split_not_nil _ _ E1).
        -- inversion E; subst. exact (IH' p1 eq_refl).
Qed.

Lemma replace_length old new s :
  String.length (Py.replace old new s) = String.length s.
Proof. induction s; simpl; congruence. Qed.

Lemma replace_get old new s i :
  String.get i (Py.replace old new s) =
  option_map (Py.replace_ascii old new) (String.get i s).
Proof.
  revert i; induction s as [|c rest IH]; intros i; simpl; [reflexivity|].
  destruct i; simpl; [reflexivity|apply IH].
Qed.

Lemma clean_ref_area_no_slash url :
  Py.contains "/" url = false -> clean_ref_area url = Py.replace "_" " " url.
Proof.
  intros H. unfold clean_ref_area. rewrite (split_no_sep _ _ H). reflexivity.
Qed.

(** C6: [Area] is derived from [refArea] alone: for a [refArea] of the form
    [prefix/segment], where [segment] has no ['/'], the result is [segment]
    with every ['_'] replaced by a space (same length, every character kept
    except ['_'], which becomes [' ']); a URI ending in ["/Beirut_District"]
    gives ["Beirut District"]. *)
Theorem clean_ref_area_last_segment (prefix segment : string)
    (Hseg : Py.contains "/" segment = false) :
  clean_ref_area (prefix ++ "/" ++ segment) = Py.replace "_" " " segment
  /\ String.length (clean_ref_area (prefix ++ "/" ++ segment)) = String.length segment
  /\ (forall i, String.get i (clean_ref_area (prefix ++ "/" ++ segment)) =
                option_map (fun c => if Ascii.eqb c "_" then " "%char else c)
                           (String.get i segment))
  /\ clean_ref_area (prefix ++ "/Beirut_District") = "Beirut District".
Proof.
  assert (Hgen : forall seg, Py.contains "/" seg = false ->
            clean_ref_area (prefix ++ "/" ++ seg) = Py.replace "_" " " seg).
  { intros seg H. unfold clean_ref_area.
    change (prefix ++ "/" ++ seg) with (prefix ++ String "/" seg).
    rewrite last_split_app, (split_no_sep _ _ H). reflexivity. }
  rewrite (Hgen _ Hseg). repeat split.
  - apply replace_length.
  - intros i. apply replace_get.
  - apply (Hgen "Beirut_District"). reflexivity.
Qed.

Lemma clean_ref_area_last_segment_witness :
  clean_ref_area ("http://data.example/ref/" ++ "/" ++ "Mount_Lebanon") = "Mount Lebanon".
Proof.
  exact (proj1 (clean_ref_area_last_segment "http://data.example/ref/" "Mount_Lebanon" eq_refl)).
Defined.

(** C8: a [refArea] without any ['/'] is returned whole, with every ['_']
    replaced by a space: nothing is cut off, the length is kept, so the
    result is empty only for the empty input. *)
Theorem clean_ref_area_without_slash (url : string)
    (Hno : Py.contains "/" url = false) :
  clean_ref_area url = Py.replace "_" " " url
  /\ String.length (clean_ref_area url) = String.length url
  /\ (forall i, String.get i (clean_ref_area url) =
                option_map (fun c => if Ascii.eqb c "_" then " "%char else c)
                           (String.get i url))
  /\ (url <> "" -> clean_ref_area url <> "").
Proof.
  rewrite (clean_ref_area_no_slash _ Hno). repeat split.
  - apply replace_length.
  - intros i. apply replace_get.
  - intros Hne Hempty. destruct url; [congruence|discriminate].
Qed.

Lemma clean_ref_area_without_slash_witness :
  clean_ref_area "Beirut_District" = "Beirut District".
Proof.
  exact (proj1 (clean_ref_area_without_slash "Beirut_District" eq_refl)).
Defined.

(** ** int64 sums *)

Section Int64.

Lemma wrap64_add_l a b : wrap64 (wrap64 a + b) = wrap64 (a + b).
Proof.
  unfold wrap64.
  replace ((a + 2 ^ 63) mod 2 ^ 64 - 2 ^ 63 + b + 2 ^ 63)
    with ((a + 2 ^ 63) mod 2 ^ 64 + b) by lia.
  rewrite Zplus_mod_idemp_l. f_equal. f_equal. lia.
Qed.

Lemma wrap64_add_r a b : wrap64 (a + wrap64 b) = wrap64 (a + b).
Proof. rewrite (Z.add_comm a), wrap64_add_l. f_equal. lia. Qed.

Lemma wrap64_idem a : wrap64 (wrap64 a) = wrap64 a.
Proof.
  replace (wrap64 a) with (wrap64 a + 0) at 1 by lia.
  rewrite wrap64_add_l. f_equal. lia.
Qed.

(** A value in the int64 range is unchanged. *)
Lemma wrap64_small a : - 2 ^ 63 <= a < 2 ^ 63 -> wrap64 a = a.
Proof. intros H. unfold wrap64. rewrite Z.mod_small; lia. Qed.

Lemma fold_add64 l a :
  fold_left add64 l (wrap64 a) = wrap64 (a + exact_sum l).
Proof.
  revert a. induction l as [|x l IH]; intros a; simpl.
  - f_equal. lia.
  - unfold add64 at 2. rewrite wrap64_add_l, IH. f_equal. lia.
Qed.

Lemma sum64_exact l : sum64 l = wrap64 (exact_sum l).
Proof.
  unfold sum64. change 0 with (wrap64 0) at 1. rewrite fold_add64. reflexivity.
Qed.

(** Without overflow the int64 sum is the sum. *)
Lemma sum64_no_overflow l :
  - 2 ^ 63 <= exact_sum l < 2 ^ 63 -> sum64 l = exact_sum l.
Proof. intros H. rewrite sum64_exact. apply wrap64_small, H. Qed.

Lemma exact_sum_app l1 l2 : exact_sum (l1 ++ l2) = exact_sum l1 + exact_sum l2.
Proof. induction l1 as [|x l1 IH]; simpl; [reflexivity|]. rewrite IH. lia. Qed.

Lemma exact_sum_perm l1 l2 : Permutation l1 l2 -> exact_sum l1 = exact_sum l2.
Proof. induction 1; simpl; lia. Qed.

Lemma sum64_perm l1 l2 : Permutation l1 l2 -> sum64 l1 = sum64 l2.
Proof. intros H. rewrite !sum64_exact, (exact_sum_perm _ _ H). reflexivity. Qed.

(** Summing the sums of the parts is summing the whole. *)
Lemma sum64_concat (parts : list (list Z)) :
  sum64 (map sum64 parts) = sum64 (concat parts).
Proof.
  rewrite !sum64_exact. induction parts as [|p parts IH]; simpl; [reflexivity|].
  rewrite exact_sum_app, sum64_exact.
  rewrite wrap64_add_l, <- wrap64_add_r, IH, wrap64_add_r. reflexivity.
Qed.

End Int64.

(** ** float64 quotients *)

Section Float64.

Lemma round_half_even_le (q : Q) (m : Z) :
  (q <= inject_Z m)%Q -> round_half_even q <= m.
Proof.
  unfold Qle, round_half_even. destruct q as [n d]. simpl. intros H.
  pose proof (Z.div_mod n (Zpos d) ltac:(lia)) as Hdm.
  pose proof (Z.mod_pos_bound n (Zpos d) ltac:(lia)) as Hb.
  assert (Hf : n / Z.pos d <= m) by nia.
  destruct (Z.ltb_spec (2 * (n mod Z.pos d)) (Z.pos d)); [exact Hf|].
  assert (Hlt : n / Z.pos d < m) by nia.
  destruct (Z.ltb_spec (Z.pos d) (2 * (n mod Z.pos d))); [lia|].
  destruct (Z.even (n / Z.pos d)); lia.
Qed.

Lemma round_half_even_ge (q : Q) (m : Z) :
  (inject_Z m <= q)%Q -> m <= round_half_even q.
Proof.
  unfold Qle, round_half_even. destruct q as [n d]. simpl. intros H.
  pose proof (Z.div_mod n (Zpos d) ltac:(lia)) as Hdm.
  pose proof (Z.mod_pos_bound n (Zpos d) ltac:(lia)) as Hb.
  assert (Hf : m <= n / Z.pos d) by nia.
  destruct (Z.ltb_spec (2 * (n mod Z.pos d)) (Z.pos d)); [exact Hf|].
  destruct (Z.ltb_spec (Z.pos d) (2 * (n mod Z.pos d))); [lia|].
  destruct (Z.even (n / Z.pos d)); lia.
Qed.

Lemma round_half_even_int (q : Q) (z : Z) :
  (q == inject_Z z)%Q -> round_half_even q = z.
Proof.
  intros H. apply Z.le_antisymm.
  - apply round_half_even_le. rewrite H. apply Qle_refl.
  - apply round_half_even_ge. rewrite H. apply Qle_refl.
Qed.



Lemma pow2_pos (e : Z) : (0 < pow2 e)%Q.
Proof.
  unfold pow2. destruct (Z.leb_spec 0 e).
  - change 0%Q with (inject_Z 0). rewrite <- Zlt_Qlt. apply Z.pow_pos_nonneg; lia.
  - apply Qinv_lt_0_compat. change 0%Q with (inject_Z 0). rewrite <- Zlt_Qlt.
    apply Z.pow_pos_nonneg; lia.
Qed.

Lemma pow2_nonneg (e : Z) : 0 <= e -> pow2 e = inject_Z (2 ^ e).
Proof. intros H. unfold pow2. destruct (Z.leb_spec 0 e); [reflexivity|lia]. Qed.

(** [2^(a-b)] for natural exponents. *)
Lemma pow2_sub (a b : Z) : 0 <= a -> 0 <= b ->
  (pow2 (a - b) * inject_Z (2 ^ b) == inject_Z (2 ^ a))%Q.
Proof.
  intros Ha Hb. unfold pow2. destruct (Z.leb_spec 0 (a - b)).
  - rewrite <- inject_Z_mult, <- Z.pow_add_r by lia.
    replace (a - b + b) with a by lia. reflexivity.
  - replace (- (a - b)) with (b - a) by lia.
    assert (Hsplit : 2 ^ b = 2 ^ (b - a) * 2 ^ a).
    { rewrite <- Z.pow_add_r by lia. f_equal. lia. }
    rewrite Hsplit, inject_Z_mult.
    assert (Hnz : ~ (inject_Z (2 ^ (b - a)) == 0)%Q).
    { change 0%Q with (inject_Z 0). rewrite inject_Z_injective.
      pose proof (Z.pow_pos_nonneg 2 (b - a)). lia. }
    field. exact Hnz.
Qed.

Lemma pow2_le (a b : Z) : a <= b -> (pow2 a <= pow2 b)%Q.
Proof.
  intros Hab.
  assert (Hshift : forall e, (pow2 e * inject_Z (2 ^ (Z.abs a + Z.abs b))
                              == inject_Z (2 ^ (e + Z.abs a + Z.abs b)))%Q
                             \/ ~ (- Z.abs a - Z.abs b <= e)).
  { intros e. destruct (Z_le_dec (- Z.abs a - Z.abs b) e) as [He|He]; [left|right; exact He].
    replace e with ((e + Z.abs a + Z.abs b) - (Z.abs a + Z.abs b)) at 1 by lia.
    apply pow2_sub; lia. }
  destruct (Hshift a) as [Ha|Ha]; [|lia]. destruct (Hshift b) as [Hb|Hb]; [|lia].
  assert (Hpos : (0 < inject_Z (2 ^ (Z.abs a + Z.abs b)))%Q).
  { change 0%Q with (inject_Z 0). rewrite <- Zlt_Qlt. apply Z.pow_pos_nonneg; lia. }
  apply (Qmult_le_r _ _ _ Hpos). rewrite Ha, Hb, <- Zle_Qle.
  apply Z.pow_le_mono_r; lia.
Qed.

Lemma pow2_lt_inv (a b : Z) : (pow2 a < pow2 b)%Q -> a < b.
Proof.
  intros H. destruct (Z_lt_dec a b) as [Hlt|Hge]; [exact Hlt|].
  exfalso. apply (Qlt_not_le _ _ H). apply pow2_le. lia.
Qed.

(** The exponent is not too large: [2^e <= q]. *)
Lemma floor_log2_le (q : Q) : (0 < q)%Q -> (pow2 (floor_log2 q) <= q)%Q.
Proof.
  intros Hq. unfold floor_log2.
  destruct (Qle_bool (pow2 (Z.log2 (Qnum q) - Z.log2 (Z.pos (Qden q))))) eqn:E.
  - apply Qle_bool_iff, E.
  - destruct q as [n d]. cbn [Qnum Qden] in *.
    assert (Hn : 0 < n) by (unfold Qlt in Hq; simpl in Hq; lia).
    pose proof (Z.log2_spec n Hn) as [Hlo _].
    pose proof (Z.log2_spec (Z.pos d) ltac:(lia)) as [_ Hhi].
    pose proof (Z.log2_nonneg n) as Ha. pose proof (Z.log2_nonneg (Z.pos d)) as Hb.
    set (a := Z.log2 n) in *. set (b := Z.log2 (Z.pos d)) in *.
    replace (a - b - 1) with (a - (b + 1)) by lia.
    assert (Hpos : (0 < inject_Z (2 ^ (b + 1)))%Q).
    { change 0%Q with (inject_Z 0). rewrite <- Zlt_Qlt. apply Z.pow_pos_nonneg; lia. }
    apply (Qmult_le_r _ _ _ Hpos). rewrite (pow2_sub a (b + 1)) by lia.
    unfold Qle. simpl. rewrite Z.mul_1_r.
    replace (Z.succ b) with (b + 1) in Hhi by lia.
    assert (H2a : 0 < 2 ^ a) by (apply Z.pow_pos_nonneg; lia).
    nia.
Qed.


Lemma pow2_shift (e n : Z) : 0 <= n -> 0 <= e + n ->
  (pow2 e * inject_Z (2 ^ n) == inject_Z (2 ^ (e + n)))%Q.
Proof.
  intros Hn He. replace e with ((e + n) - n) at 1 by lia. apply pow2_sub; lia.
Qed.

Lemma inject_pow2_pos (n : Z) : 0 <= n -> (0 < inject_Z (2 ^ n))%Q.
Proof.
  intros Hn. change 0%Q with (inject_Z 0). rewrite <- Zlt_Qlt. apply Z.pow_pos_nonneg; lia.
Qed.


Lemma Qred_inject_Z (z : Z) : Qred (inject_Z z) = inject_Z z.
Proof. apply Qcanon.Qred_identity. simpl. apply Z.gcd_1_r. Qed.

(** A rational that holds an integer of at most 53 bits is a float64. *)
Lemma round64_exact (q : Q) (z : Z) :
  (q == inject_Z z)%Q -> Z.abs z < 2 ^ 53 -> round64 q = inject_Z z.
Proof.
  intros Hq Hz. unfold round64.
  rewrite (Qred_complete _ _ Hq), Qred_inject_Z.
  destruct (Qeq_bool (inject_Z z) 0) eqn:E.
  - apply Qeq_bool_iff in E. change 0%Q with (inject_Z 0) in E.
    rewrite inject_Z_injective in E. rewrite E. reflexivity.
  - assert (Hnz : z <> 0).
    { intros ->. discriminate E. }
    change (Qabs (inject_Z z)) with (inject_Z (Z.abs z)).
    set (e := floor_log2 (inject_Z (Z.abs z))).
    assert (He : e < 53).
    { apply pow2_lt_inv. apply Qle_lt_trans with (inject_Z (Z.abs z)).
      - apply floor_log2_le. change 0%Q with (inject_Z 0). rewrite <- Zlt_Qlt. lia.
      - rewrite pow2_nonneg by lia. rewrite <- Zlt_Qlt. exact Hz. }
    assert (Hulp : (pow2 (e - 52) * inject_Z (2 ^ (52 - e)) == 1)%Q).
    { rewrite (pow2_shift (e - 52) (52 - e)) by lia.
      replace (e - 52 + (52 - e)) with 0 by lia. reflexivity. }
    assert (Hunz : ~ (pow2 (e - 52) == 0)%Q).
    { intros H. pose proof (pow2_pos (e - 52)) as Hp. rewrite H in Hp.
      exact (Qlt_irrefl _ Hp). }
    assert (Hx : (inject_Z z / pow2 (e - 52) == inject_Z (z * 2 ^ (52 - e)))%Q).
    { rewrite inject_Z_mult. rewrite <- (Qmult_1_r (inject_Z z)) at 1.
      rewrite <- Hulp. field. exact Hunz. }
    rewrite (round_half_even_int _ _ Hx).
    etransitivity; [|apply Qred_inject_Z]. apply Qred_complete.
    rewrite inject_Z_mult, <- Qmult_assoc, (Qmult_comm (inject_Z (2 ^ (52 - e)))), Hulp.
    apply Qmult_1_r.
Qed.


(** Rounding does not leave an interval whose ends are float64: here
    [0 .. 2^k]. *)
Lemma round64_range (q : Q) (k : Z) :
  0 <= k <= 52 -> (0 <= q)%Q -> (q <= inject_Z (2 ^ k))%Q ->
  (0 <= round64 q)%Q /\ (round64 q <= inject_Z (2 ^ k))%Q.
Proof.
  intros Hk H0 Hq. unfold round64.
  assert (Hred : (Qred q == q)%Q) by apply Qred_correct.
  destruct (Qeq_bool (Qred q) 0) eqn:E.
  - split; [apply Qle_refl|]. apply Qlt_le_weak, inject_pow2_pos. lia.
  - set (e := floor_log2 (Qabs (Qred q))).
    set (ulp := pow2 (e - 52)).
    assert (Hpos : (0 < ulp)%Q) by apply pow2_pos.
    assert (Hunz : ~ (ulp == 0)%Q).
    { intros H. rewrite H in Hpos. exact (Qlt_irrefl _ Hpos). }
    assert (Hnz : ~ (Qred q == 0)%Q).
    { intros H. apply Qeq_bool_iff in H. congruence. }
    assert (Habs : (Qabs (Qred q) == q)%Q).
    { rewrite Hred. apply Qabs_pos, H0. }
    assert (He : e <= k).
    { destruct (Z_le_dec e k) as [H|H]; [exact H|]. exfalso.
      assert (Hlt : (pow2 k < pow2 e)%Q).
      { apply Qlt_le_trans with (pow2 (k + 1)); [|apply pow2_le; lia].
        rewrite !pow2_nonneg by lia. rewrite <- Zlt_Qlt.
        apply Z.pow_lt_mono_r; lia. }
      apply (Qlt_not_le _ _ Hlt). rewrite (pow2_nonneg k) by lia.
      apply Qle_trans with q; [|exact Hq]. rewrite <- Habs.
      apply floor_log2_le. rewrite Habs.
      destruct (Qlt_le_dec 0 q) as [Hp|Hp]; [exact Hp|].
      exfalso. apply Hnz. rewrite Hred. apply Qle_antisym; assumption. }
    assert (Hulp : (ulp * inject_Z (2 ^ (52 - e)) == 1)%Q).
    { unfold ulp. rewrite (pow2_shift (e - 52) (52 - e)) by lia.
      replace (e - 52 + (52 - e)) with 0 by lia. reflexivity. }
    assert (Hx : (Qred q / ulp == q * inject_Z (2 ^ (52 - e)))%Q).
    { rewrite Hred. rewrite <- (Qmult_1_r q) at 1. rewrite <- Hulp. field. exact Hunz. }
    rewrite Qred_correct.
    set (m := round_half_even (Qred q / ulp)).
    assert (Hm0 : 0 <= m).
    { apply round_half_even_ge. rewrite Hx.
      apply Qmult_le_0_compat; [exact H0|]. apply Qlt_le_weak, inject_pow2_pos. lia. }
    assert (Hmk : m <= 2 ^ (k + (52 - e))).
    { apply round_half_even_le. rewrite Hx, Z.pow_add_r, inject_Z_mult by lia.
      apply Qmult_le_compat_r; [exact Hq|]. apply Qlt_le_weak, inject_pow2_pos. lia. }
    split.
    + apply Qmult_le_0_compat; [|apply Qlt_le_weak, Hpos].
      change 0%Q with (inject_Z 0). rewrite <- Zle_Qle. exact Hm0.
    + apply Qle_trans with (inject_Z (2 ^ (k + (52 - e))) * ulp)%Q.
      * apply Qmult_le_compat_r; [|apply Qlt_le_weak, Hpos].
        rewrite <- Zle_Qle. exact Hmk.
      * rewrite Z.pow_add_r, inject_Z_mult, <- Qmult_assoc by lia.
        rewrite (Qmult_comm (inject_Z (2 ^ (52 - e)))), Hulp, Qmult_1_r. apply Qle_refl.
Qed.


(** With operands of at most 53 bits only the quotient is rounded. *)
Lemma true_divide_small (a b : Z) :
  b <> 0 -> Z.abs a < 2 ^ 53 -> Z.abs b < 2 ^ 53 ->
  true_divide a b = round64 (inject_Z a / inject_Z b).
Proof.
  intros Hb Ha Hb'. unfold true_divide.
  rewrite (proj2 (Z.eqb_neq b 0) Hb).
  rewrite (round64_exact (inject_Z a) a), (round64_exact (inject_Z b) b);
    [reflexivity| | | |]; try reflexivity; assumption.
Qed.



Lemma true_divide_range (total count : Z) :
  1 <= count -> 0 <= total <= 4 * count -> total < 2 ^ 53 -> count < 2 ^ 53 ->
  (0 <= true_divide total count)%Q /\ (true_divide total count <= 4)%Q.
Proof.
  intros Hcount Htotal Ht Hc.
  rewrite true_divide_small by lia.
  assert (Hpos : (0 < inject_Z count)%Q).
  { change 0%Q with (inject_Z 0). rewrite <- Zlt_Qlt. lia. }
  apply (round64_range _ 2); [lia| |].
  - apply Qle_shift_div_l; [exact Hpos|].
    rewrite Qmult_0_l. change 0%Q with (inject_Z 0). rewrite <- Zle_Qle. lia.
  - apply Qle_shift_div_r; [exact Hpos|].
    rewrite <- inject_Z_mult, <- Zle_Qle. change (2 ^ 2) with 4. lia.
Qed.




End Float64.

(** ** Grouping *)

Section Groupby.

Lemma unique_In {B} `{EqDecision B} (l : list B) x : In x (unique l) <-> In x l.
Proof.
  unfold unique. rewrite <- !list_elem_of_In.
  rewrite elem_of_reverse, elem_of_remove_dups, elem_of_reverse. reflexivity.
Qed.

Lemma unique_NoDup {B} `{EqDecision B} (l : list B) : List.NoDup (unique l).
Proof.
  unfold unique. apply NoDup_ListNoDup.
  rewrite reverse_Permutation. apply NoDup_remove_dups.
Qed.

Lemma strs_In (l : list Py.obj) (t : string) : In t (Py.strs l) <-> In (Py.Str t) l.
Proof.
  induction l as [|[s|] l IH]; simpl; [tauto| |].
  - rewrite IH. split; intros [H|H]; auto; left; congruence.
  - rewrite IH. split; [auto|]. intros [H|H]; [discriminate H|exact H].
Qed.

(** Without NaN, the text values are all the values. *)
Lemma strs_all (l : list Py.obj) :
  (forall o, In o l -> o <> Py.NaN) -> map Py.Str (Py.strs l) = l.
Proof.
  induction l as [|[s|] l IH]; simpl; intros H; [reflexivity| |].
  - f_equal. apply IH. intros o Ho. apply H. right. exact Ho.
  - destruct (H Py.NaN (or_introl eq_refl) eq_refl).
Qed.



Lemma insert_key_perm k l : Permutation (insert_key k l) (k :: l).
Proof.
  induction l as [|x l IH]; simpl; [reflexivity|].
  destruct (String.leb k x); [reflexivity|].
  rewrite IH. apply perm_swap.
Qed.

Lemma sort_keys_perm l : Permutation (sort_keys l) l.
Proof.
  induction l as [|x l IH]; simpl; [reflexivity|].
  rewrite insert_key_perm. constructor. exact IH.
Qed.

Lemma leb_cases a b : String.leb a b = true <-> a = b \/ String_as_OT.lt a b.
Proof.
  unfold String.leb. rewrite <- String_as_OT.cmp_lt, <- String_as_OT.cmp_eq.
  unfold String_as_OT.cmp.
  destruct (String.compare a b); split; intros H; auto;
    try discriminate H; destruct H as [H|H]; discriminate H.
Qed.

Lemma leb_trans a b c :
  String.leb a b = true -> String.leb b c = true -> String.leb a c = true.
Proof.
  rewrite !leb_cases. intros [->|Hab] [->|Hbc]; auto.
  right. eapply String_as_OT.lt_trans; eassumption.
Qed.

Lemma leb_total a b : String.leb a b = false -> String.leb b a = true.
Proof.
  unfold String.leb. pose proof (String_as_OT.cmp_antisym b a) as H.
  unfold String_as_OT.cmp in H. rewrite H.
  destruct (String.compare a b); simpl; congruence.
Qed.

Lemma insert_key_sorted k l :
  StronglySorted (fun a b => String.leb a b = true) l ->
  StronglySorted (fun a b => String.leb a b = true) (insert_key k l).
Proof.
  induction 1 as [|x l Hs IH Hx]; simpl.
  - repeat constructor.
  - destruct (String.leb k x) eqn:E.
    + constructor; [constructor; assumption|].
      constructor; [exact E|].
      eapply List.Forall_impl; [|exact Hx].
      intros z Hz. simpl in *. eapply leb_trans; eassumption.
    + constructor; [exact IH|].
      apply List.Forall_forall. intros z Hz.
      apply (Permutation_in _ (insert_key_perm k l)) in Hz as [<-|Hz].
      * apply leb_total, E.
      * exact (proj1 (List.Forall_forall _ _) Hx z Hz).
Qed.

(** The keys come out in increasing order. *)
Lemma sort_keys_sorted l :
  StronglySorted (fun a b => String.leb a b = true) (sort_keys l).
Proof.
  induction l as [|x l IH]; simpl; [constructor|].
  apply insert_key_sorted, IH.
Qed.

Variable key : Row -> string.

Lemma group_keys_In rs k :
  In k (group_keys key rs) <-> exists r, In r rs /\ key r = k.
Proof.
  unfold group_keys. split.
  - intros H. apply (Permutation_in _ (sort_keys_perm _)) in H.
    apply unique_In, in_map_iff in H as [r [H1 H2]]. exists r. tauto.
  - intros [r [H1 H2]].
    apply (Permutation_in _ (Permutation_sym (sort_keys_perm _))).
    apply unique_In, in_map_iff. exists r. tauto.
Qed.

Lemma group_keys_NoDup rs : List.NoDup (group_keys key rs).
Proof.
  unfold group_keys.
  eapply Permutation_NoDup; [symmetry; apply sort_keys_perm|apply unique_NoDup].
Qed.

(** The rows with key [k], for the keys of a duplicate-free list that has
    every key of [rs], are the rows of [rs], each exactly once. *)
Lemma partition_by_key ks rs :
  List.NoDup ks -> (forall r, In r rs -> In (key r) ks) ->
  Permutation (concat (map (fun k => List.filter (fun r => String.eqb (key r) k) rs) ks)) rs.
Proof.
  intros Hnd. induction rs as [|r rs IH]; intros Hks.
  - clear Hnd Hks. induction ks as [|k ks IHk]; simpl; [reflexivity|exact IHk].
  - assert (Hr : In (key r) ks) by (apply Hks; left; reflexivity).
    apply in_split in Hr as [ks1 [ks2 Hsplit]].
    assert (Hother : forall k, k <> key r ->
              List.filter (fun r0 => String.eqb (key r0) k) (r :: rs) =
              List.filter (fun r0 => String.eqb (key r0) k) rs).
    { intros k Hk. simpl. destruct (String.eqb_spec (key r) k); congruence. }
    assert (Hn1 : ~ In (key r) ks1 /\ ~ In (key r) ks2).
    { rewrite Hsplit in Hnd. apply NoDup_remove_2 in Hnd.
      rewrite in_app_iff in Hnd. tauto. }
    assert (Hmap : forall l, ~ In (key r) l ->
              map (fun k => List.filter (fun r0 => String.eqb (key r0) k) (r :: rs)) l =
              map (fun k => List.filter (fun r0 => String.eqb (key r0) k) rs) l).
    { intros l Hl. apply map_ext_in. intros k Hk. apply Hother. congruence. }
    specialize (IH (fun r0 H0 => Hks r0 (or_intror H0))).
    rewrite Hsplit in IH |- *.
    rewrite map_app, concat_app in IH |- *. simpl map in *. simpl concat in *.
    rewrite (Hmap ks1), (Hmap ks2) by tauto.
    simpl List.filter at 2. rewrite String.eqb_refl.
    change ((r :: ?F) ++ ?B)%list with (r :: (F ++ B))%list.
    rewrite <- Permutation_middle. constructor. exact IH.
Qed.

(** Grouping neither drops nor repeats a row. *)
Lemma groupby_perm rs : Permutation (concat (map snd (groupby key rs))) rs.
Proof.
  unfold groupby. rewrite map_map. simpl.
  apply partition_by_key; [apply group_keys_NoDup|].
  intros r Hr. apply group_keys_In. exists r. tauto.
Qed.

(** A group holds the rows of its key, and at least one. *)
Lemma groupby_members rs k members :
  In (k, members) (groupby key rs) ->
  members = List.filter (fun r => String.eqb (key r) k) rs /\ members <> [].
Proof.
  unfold groupby. rewrite in_map_iff. intros [k' [Heq Hin]].
  inversion Heq; subst k' members. split; [reflexivity|].
  apply group_keys_In in Hin as [r [Hr Hk]].
  intros Hnil.
  assert (In r (List.filter (fun r0 => String.eqb (key r0) k) rs)).
  { apply filter_In. split; [exact Hr|]. rewrite Hk. apply String.eqb_refl. }
  rewrite Hnil in H. destruct H.
Qed.

Lemma groupby_nil : groupby key [] = [].
Proof. reflexivity. Qed.

End Groupby.

(** ** [aggregate_data] *)

Section Aggregate.

Lemma aggregate_data_by_area data :
  has_columns agg_sum_labels data = true ->
  aggregate_data data ByArea = Ok (agg_groups ByArea (rows data)).
Proof. intros H. unfold aggregate_data. rewrite H. reflexivity. Qed.

(** Grouping by [Town] never gets past [reset_index]. *)
Lemma aggregate_data_by_town data :
  aggregate_data data ByTown =
  Raise (if has_columns agg_sum_labels data then ValueError else KeyError).
Proof. unfold aggregate_data. destruct (has_columns agg_sum_labels data); reflexivity. Qed.

Lemma aggregate_data_ok data g agg :
  aggregate_data data g = Ok agg ->
  g = ByArea /\ has_columns agg_sum_labels data = true /\ agg = agg_groups g (rows data).
Proof.
  destruct g.
  - unfold aggregate_data.
    destruct (has_columns agg_sum_labels data); simpl; [|discriminate].
    intros H. injection H as <-. auto.
  - rewrite aggregate_data_by_town. discriminate.
Qed.

Lemma agg_groups_In rs r :
  In r (agg_groups ByArea rs) ->
  exists k members,
    r = agg_group k members
    /\ members = List.filter (fun x => String.eqb (Area x) k) rs
    /\ members <> [].
Proof.
  unfold agg_groups. rewrite in_map_iff. intros [[k members] [Hr Hin]].
  simpl in Hr. subst r.
  apply groupby_members in Hin as [Hm Hne]. exists k, members. auto.
Qed.

(** The column sums of the groups are the column sums of the frame. *)
Lemma agg_groups_sum rs (column : AggRow -> Z) (label : string) :
  (forall k members, column (agg_group k members) = sum64 (map (cell label) members)) ->
  sum64 (map column (agg_groups ByArea rs)) = sum64 (map (cell label) rs).
Proof.
  intros Hcol. unfold agg_groups. rewrite map_map.
  rewrite (map_ext _ (fun grp => sum64 (map (cell label) (snd grp))))
    by (intros [k members]; apply Hcol).
  rewrite <- (map_map (fun grp => map (cell label) (snd grp)) sum64).
  rewrite sum64_concat, <- (map_map snd (map (cell label))), <- concat_map.
  apply sum64_perm, Permutation_map, groupby_perm.
Qed.



End Aggregate.




(** C4: aggregating by [Area] the two rows of area ["X"], town ["A1"] with
    [lighting_good = 1], [parks_good = 1] and town ["A2"] with
    [lighting_acceptable = 1], [parks_acceptable = 1] (the other two of the
    four being 0, the remaining columns arbitrary), gives one row, for
    ["X"], with [total_score = 4], [town_count = 2] and
    [normalized_score = 2]. *)
Theorem aggregate_two_towns (pe1 pb1 lb1 pe2 pb2 lb2 : Z) :
  exists r,
    aggregate_data
      (cleaned_table [cleaned_row "A1" "X" 1 0 1 0 pe1 pb1 lb1;
                      cleaned_row "A2" "X" 0 1 0 1 pe2 pb2 lb2]) ByArea = Ok [r]
    /\ group r = "X"
    /\ total_score r = 4
    /\ town_count r = 2
    /\ normalized_score r = 2%Q.
Proof.
  exists (agg_group "X" [cleaned_row "A1" "X" 1 0 1 0 pe1 pb1 lb1;
                         cleaned_row "A2" "X" 0 1 0 1 pe2 pb2 lb2]).
  split; [|repeat split; reflexivity].
  rewrite aggregate_data_by_area by reflexivity. reflexivity.
Qed.




(** ** Top-N selection *)

Section Nlargest.

Context {A : Type} (score : A -> Q).

Lemma insert_desc_perm x l : Permutation (insert_desc score x l) (x :: l).
Proof.
  induction l as [|y l IH]; simpl; [reflexivity|].
  destruct (Qle_bool (score y) (score x)); [reflexivity|].
  rewrite IH. apply perm_swap.
Qed.

Lemma sort_desc_perm l : Permutation (sort_desc score l) l.
Proof.
  induction l as [|x l IH]; simpl; [reflexivity|].
  rewrite insert_desc_perm. constructor. exact IH.
Qed.

Lemma insert_desc_sorted x l :
  StronglySorted (above score) l -> StronglySorted (above score) (insert_desc score x l).
Proof.
  induction 1 as [|y l Hs IH Hy]; simpl.
  - repeat constructor.
  - destruct (Qle_bool (score y) (score x)) eqn:E.
    + apply Qle_bool_iff in E.
      constructor; [constructor; assumption|].
      constructor; [exact E|].
      eapply List.Forall_impl; [|exact Hy].
      intros z Hz. unfold above in *. eapply Qle_trans; eassumption.
    + assert (Hlt : (score x < score y)%Q).
      { apply Qnot_le_lt. intros Hle. apply Qle_bool_iff in Hle. congruence. }
      constructor; [exact IH|].
      apply List.Forall_forall. intros z Hz.
      apply (Permutation_in _ (insert_desc_perm x l)) in Hz as [<-|Hz].
      * apply Qlt_le_weak, Hlt.
      * exact (proj1 (List.Forall_forall _ _) Hy z Hz).
Qed.

Lemma sort_desc_sorted l : StronglySorted (above score) (sort_desc score l).
Proof.
  induction l as [|x l IH]; simpl; [constructor|].
  apply insert_desc_sorted, IH.
Qed.



Lemma sorted_app_above (l1 l2 : list A) :
  StronglySorted (above score) (l1 ++ l2) ->
  forall a b, In a l1 -> In b l2 -> above score a b.
Proof.
  induction l1 as [|x l1 IH]; intros Hs a b Ha Hb; [destruct Ha|].
  simpl in Hs. apply StronglySorted_inv in Hs as [Hs Hx].
  destruct Ha as [<-|Ha].
  - apply (proj1 (List.Forall_forall _ _) Hx). apply in_or_app. right. exact Hb.
  - exact (IH Hs a b Ha Hb).
Qed.

Lemma sorted_take n (l : list A) :
  StronglySorted (above score) l -> StronglySorted (above score) (take n l).
Proof.
  intros Hs. revert n. induction Hs as [|x l Hs IH Hx]; intros [|n]; simpl;
    try constructor.
  - apply IH.
  - apply List.Forall_forall. intros z Hz.
    apply (proj1 (List.Forall_forall _ _) Hx).
    rewrite <- (take_drop n l). apply in_or_app. left. exact Hz.
Qed.

Lemma nlargest_length n l :
  length (nlargest n score l) = Nat.min (Z.to_nat n) (length l).
Proof.
  unfold nlargest. rewrite length_take, (Permutation_length (sort_desc_perm l)).
  reflexivity.
Qed.

Lemma nlargest_sorted n l : StronglySorted (above score) (nlargest n score l).
Proof. apply sorted_take, sort_desc_sorted. Qed.

(** The rows left out, in sorted order. *)
Lemma nlargest_rest n l :
  let top := nlargest n score l in
  let rest := drop (Z.to_nat n) (sort_desc score l) in
  Permutation (top ++ rest) l
  /\ forall a b, In a top -> In b rest -> above score a b.
Proof.
  unfold nlargest. simpl. split.
  - rewrite take_drop. apply sort_desc_perm.
  - apply sorted_app_above. rewrite take_drop. apply sort_desc_sorted.
Qed.



Lemma nlargest_all n l :
  Z.of_nat (length l) <= n -> nlargest n score l = sort_desc score l.
Proof.
  intros Hn. unfold nlargest. apply take_ge.
  rewrite (Permutation_length (sort_desc_perm l)). lia.
Qed.

End Nlargest.

Lemma top_n_numeric g agg n label score :
  agg_column label = Some score ->
  top_n g agg n label = Ok (nlargest n score agg).
Proof. intros H. unfold top_n. rewrite H. reflexivity. Qed.



Section TopOfTable.

Lemma agg_groups_nil_rows (rs : list Row) : agg_groups ByArea rs <> [] -> rs <> [].
Proof. intros H ->. apply H. reflexivity. Qed.

Lemma check_numeric_rows (df : DataFrame) :
  rows df <> [] -> check_numeric (loaded_dtype df) = Ok tt.
Proof. unfold loaded_dtype. destruct (rows df); [contradiction|reflexivity]. Qed.

(** From a table with rows, the top-N table is the selection from the
    aggregated table. *)
Lemma top_entities_with_rows (df : DataFrame) (w : Widgets) :
  has_columns agg_sum_labels df = true -> rows df <> [] ->
  top_entities df w =
  Ok (nlargest (num_top_entities w) normalized_score (agg_groups ByArea (rows df))).
Proof.
  intros Hcols Hrows. unfold top_entities, grouped_df.
  rewrite (aggregate_data_by_area _ Hcols). unfold loaded_dtype.
  destruct (rows df); [contradiction|reflexivity].
Qed.

(** From a table without rows, whose columns are of dtype object, there is
    no top-N table. *)
Lemma top_entities_no_rows (df : DataFrame) (w : Widgets) :
  has_columns agg_sum_labels df = true -> rows df = [] ->
  top_entities df w = Raise TypeError.
Proof.
  intros Hcols Hrows. unfold top_entities, grouped_df.
  rewrite (aggregate_data_by_area _ Hcols). unfold loaded_dtype. rewrite Hrows. reflexivity.
Qed.

End TopOfTable.

(** C9, as stated, does not hold for the aggregated table without rows:
    it is computed from a table without rows, its score column is of dtype
    object, and [nlargest] raises [TypeError], for any [n]. *)
Lemma no_rows_top_n_raises :
  aggregate_data (cleaned_table []) ByArea = Ok []
  /\ Z.of_nat (length (@nil AggRow)) <= 10
  /\ top_entities (cleaned_table []) (mkWidgets [] 10 None []) = Raise TypeError.
Proof. split; [reflexivity|]. split; [simpl; lia|reflexivity]. Qed.

(** C9, amended: for an aggregated table that has a row, when [n] is at
    least the number of rows the top-N selection succeeds and returns every
    row of the table, in decreasing order of the column; for any [n] the
    result has [min(n, rows)] rows (none when [n] is negative); and the
    top-N table of a run whose aggregated table this is, is that
    selection by [normalized_score]. *)
Theorem top_n_whole_table (g : GroupColumn) (agg : list AggRow) (n : Z)
    (label : string) (score : AggRow -> Q)
    (Hcol : agg_column label = Some score)
    (Hrows : agg <> [])
    (Hn : Z.of_nat (length agg) <= n) :
  top_n g agg n label = Ok (sort_desc score agg)
  /\ Permutation (sort_desc score agg) agg
  /\ StronglySorted (above score) (sort_desc score agg)
  /\ (forall m, exists top,
        top_n g agg m label = Ok top
        /\ Z.of_nat (length top) = Z.max 0 (Z.min m (Z.of_nat (length agg))))
  /\ (forall df w,
        aggregate_data df ByArea = Ok agg -> num_top_entities w = n ->
        top_entities df w = Ok (sort_desc normalized_score agg)).
Proof.
  split; [rewrite (top_n_numeric _ _ _ _ _ Hcol), (nlargest_all _ _ _ Hn); reflexivity|].
  split; [apply sort_desc_perm|].
  split; [apply sort_desc_sorted|].
  split.
  - intros m. exists (nlargest m score agg).
    split; [apply top_n_numeric, Hcol|].
    rewrite nlargest_length. lia.
  - intros df w Hagg Hw. apply aggregate_data_ok in Hagg as [_ [Hcols Hagg]].
    rewrite Hagg in Hrows. apply agg_groups_nil_rows in Hrows.
    rewrite (top_entities_with_rows _ _ Hcols Hrows), Hw, <- Hagg.
    rewrite (nlargest_all _ _ _ Hn). reflexivity.
Qed.

Lemma top_n_whole_table_witness :
  top_n ByArea [mkAgg "Akkar" 0 0 0 1 1 0 0 1 1 1;
                mkAgg "Beirut" 1 1 1 1 2 0 0 1 4 4;
                mkAgg "X" 1 1 1 1 2 0 0 2 4 2] 5 "normalized_score"
  = Ok [mkAgg "Beirut" 1 1 1 1 2 0 0 1 4 4;
        mkAgg "X" 1 1 1 1 2 0 0 2 4 2;
        mkAgg "Akkar" 0 0 0 1 1 0 0 1 1 1].
Proof.
  exact (proj1 (top_n_whole_table ByArea
                  [mkAgg "Akkar" 0 0 0 1 1 0 0 1 1 1;
                   mkAgg "Beirut" 1 1 1 1 2 0 0 1 4 4;
                   mkAgg "X" 1 1 1 1 2 0 0 2 4 2] 5 "normalized_score"
                  normalized_score eq_refl ltac:(discriminate) ltac:(simpl; lia))).
Defined.

(** ** Detail lookup *)

Section Detail.

(** The first row of a name that occurs in the grouping column. *)
Lemma first_match (top : list AggRow) (name : string) :
  In name (map group top) ->
  exists r before after,
    top = (before ++ r :: after)%list
    /\ group r = name
    /\ (forall x, In x before -> group x <> name)
    /\ List.filter (fun x => String.eqb (group x) name) top =
       r :: List.filter (fun x => String.eqb (group x) name) after.
Proof.
  induction top as [|x top IH]; simpl; [intros []|].
  destruct (String.eqb_spec (group x) name) as [Heq|Hne].
  - intros _. exists x, [], top.
    split; [reflexivity|]. split; [exact Heq|]. split; [intros y []|reflexivity].
  - intros [Hx|Hin]; [contradiction|].
    destruct (IH Hin) as [r [before [after [Htop [Hr [Hbefore Hfilter]]]]]].
    exists r, (x :: before), after.
    split; [simpl; congruence|]. split; [exact Hr|]. split; [|exact Hfilter].
    intros y [<-|Hy]; auto.
Qed.

Lemma entity_row_absent (top : list AggRow) (name : string) :
  ~ In name (map group top) -> entity_row top name = Raise IndexError.
Proof.
  intros Habsent. unfold entity_row.
  destruct (List.filter (fun r => String.eqb (group r) name) top) as [|r l] eqn:E;
    [reflexivity|].
  exfalso. apply Habsent.
  assert (Hr : In r (List.filter (fun r => String.eqb (group r) name) top))
    by (rewrite E; left; reflexivity).
  apply filter_In in Hr as [Hin Hname]. apply String.eqb_eq in Hname.
  rewrite <- Hname. apply in_map, Hin.
Qed.

End Detail.

(** C7, as stated, does not hold: the lookup of a name that is not in the
    grouping column of the table raises [IndexError] at [.iloc[0]]. *)
Lemma detail_absent_name_raises :
  ~ In "Zahle" (map group [mkAgg "Beirut" 1 1 1 1 2 0 0 1 4 4])
  /\ detail [mkAgg "Beirut" 1 1 1 1 2 0 0 1 4 4] (Some "Zahle") = Raise IndexError.
Proof.
  split; [|reflexivity].
  simpl. intros [H|[]]. discriminate H.
Qed.

(** C7, amended: for every value the select box can return for the top-N
    table (one of the names of its grouping column, or [None] for a table
    without rows) the detail lookup does not raise: it is skipped when the
    value is [None] or the empty string, and otherwise gives the first row
    of the table whose grouping column is the name. *)
Theorem detail_of_selectbox_value (top : list AggRow) (selected : option string)
    (Hsel : selectbox_value (map group top) selected) :
  exists found,
    detail top selected = Ok found
    /\ (found = None <-> Py.truthy selected = false)
    /\ (forall r, found = Some r ->
          selected = Some (group r)
          /\ exists before after,
               top = (before ++ r :: after)%list
               /\ forall x, In x before -> group x <> group r).
Proof.
  destruct selected as [name|]; simpl in Hsel.
  - destruct (first_match top name Hsel)
      as [r [before [after [Htop [Hr [Hbefore Hfilter]]]]]].
    destruct name as [|c name].
    + exists None. simpl. repeat split; auto; discriminate.
    + exists (Some r). unfold detail, entity_row. rewrite Hfilter. simpl.
      split; [reflexivity|]. split; [split; discriminate|].
      intros r' Hr'. injection Hr' as <-. split; [congruence|].
      exists before, after. split; [exact Htop|]. rewrite Hr. exact Hbefore.
  - exists None. simpl. repeat split; auto; discriminate.
Qed.

Lemma detail_of_selectbox_value_witness :
  selectbox_value (map group [mkAgg "Beirut" 1 1 1 1 2 0 0 1 4 4;
                              mkAgg "X" 1 1 1 1 2 0 0 2 4 2]) (Some "X")
  /\ exists found,
       detail [mkAgg "Beirut" 1 1 1 1 2 0 0 1 4 4;
               mkAgg "X" 1 1 1 1 2 0 0 2 4 2] (Some "X") = Ok found.
Proof.
  assert (Hsel : selectbox_value (map group [mkAgg "Beirut" 1 1 1 1 2 0 0 1 4 4;
                                             mkAgg "X" 1 1 1 1 2 0 0 2 4 2]) (Some "X"))
    by (simpl; auto).
  split; [exact Hsel|].
  destruct (detail_of_selectbox_value _ _ Hsel) as [found [Hfound _]].
  exists found. exact Hfound.
Defined.

(** ** The area filter *)

Section AreaFilter.

Lemma isin_In (values : list string) (s : string) : isin values s = true <-> In s values.
Proof.
  unfold isin. rewrite <- list_elem_of_In. split.
  - apply bool_decide_eq_true_1.
  - apply bool_decide_eq_true_2.
Qed.

Lemma filter_all {B} (mask : B -> bool) (l : list B) :
  (forall x, In x l -> mask x = true) -> List.filter mask l = l.
Proof.
  induction l as [|x l IH]; simpl; intros H; [reflexivity|].
  rewrite (H x (or_introl eq_refl)). f_equal. apply IH. intros y Hy. apply H. right. exact Hy.
Qed.

Lemma filter_sublist {B} (mask : B -> bool) (l : list B) : sublist (List.filter mask l) l.
Proof.
  induction l as [|x l IH]; simpl; [constructor|].
  destruct (mask x); [apply sublist_skip|apply sublist_cons]; exact IH.
Qed.

(** Within a selected area, the filtered table has the rows of the table. *)
Lemma filter_area_selected (values : list string) (k : string) (rs : list Row) :
  In k values ->
  List.filter (fun r => String.eqb (Area r) k)
    (List.filter (fun r => isin values (Area r)) rs)
  = List.filter (fun r => String.eqb (Area r) k) rs.
Proof.
  intros Hk. induction rs as [|r rs IH]; simpl; [reflexivity|].
  destruct (String.eqb_spec (Area r) k) as [Heq|Hne].
  - rewrite (proj2 (isin_In values (Area r))) by (rewrite Heq; exact Hk).
    simpl. rewrite (proj2 (String.eqb_eq _ _) Heq). f_equal. exact IH.
  - destruct (isin values (Area r)); [simpl|exact IH].
    rewrite (proj2 (String.eqb_neq _ _) Hne). exact IH.
Qed.


Lemma filtered_df_In (df : DataFrame) (w : Widgets) (r : Row) :
  In r (rows (filtered_df df w)) <-> In r (rows df) /\ In (Area r) (selected_areas w).
Proof.
  unfold filtered_df, select_rows. simpl. rewrite filter_In, isin_In. reflexivity.
Qed.

End AreaFilter.

(** ** Pie-chart grid *)

Section PieCharts.

Variable filtered_data : DataFrame.

(** What the pie of a numeric column shows: one slice per area of the
    frame, in group order, valued by the column's sum over the area. *)
Let shows (p : Pie) (var : string) : Prop :=
  pie_names p = group_keys Area (rows filtered_data)
  /\ pie_values p =
     IntValues (map (fun area =>
                       sum64 (map (cell var)
                                (List.filter (fun r => String.eqb (Area r) area)
                                   (rows filtered_data))))
                    (group_keys Area (rows filtered_data)))
  /\ pie_annotation p = "Proportion of " ++ Py.title (Py.replace "_" " " var).

Let present (var : string) : bool := bool_decide (var ∈ numeric_columns filtered_data).

Lemma pie_for_indicator j var :
  var <> "Area" -> var <> "Town" ->
  exists p, pie_for filtered_data j var = Ok (if present var then Some p else None)
            /\ shows p var /\ pie_col p = (j + 1)%nat.
Proof.
  intros Harea Htown. unfold pie_for, columns, present.
  rewrite (proj2 (String.eqb_neq _ _) Harea), (proj2 (String.eqb_neq _ _) Htown).
  eexists. split.
  - destruct (bool_decide_reflect (var ∈ numeric_columns filtered_data)) as [Hin|Hout].
    + rewrite bool_decide_eq_true_2; [reflexivity|].
      apply elem_of_cons. right. apply elem_of_cons. right. exact Hin.
    + rewrite bool_decide_eq_false_2; [reflexivity|].
      intros H. apply elem_of_cons in H as [H|H]; [contradiction|].
      apply elem_of_cons in H as [H|H]; [contradiction|]. contradiction.
  - unfold shows, grouped_sum, groupby. simpl. rewrite !map_map. simpl.
    repeat split. apply map_id.
Qed.

Lemma add_pies_indicators chunk : forall j,
  List.Forall (fun v => v <> "Area" /\ v <> "Town") chunk ->
  exists pies,
    add_pies filtered_data j chunk = Ok pies
    /\ Forall2 shows pies (List.filter present chunk).
Proof.
  induction chunk as [|var chunk IH]; intros j Hall.
  - exists []. split; [reflexivity|constructor].
  - apply List.Forall_cons_iff in Hall as [[Harea Htown] Hall].
    destruct (pie_for_indicator j var Harea Htown) as [p [Hp [Hshows _]]].
    destruct (IH (S j) Hall) as [pies [Hpies Hrest]].
    simpl add_pies. rewrite Hp, Hpies. simpl List.filter.
    destruct (present var); simpl.
    + exists (p :: pies). split; [reflexivity|]. constructor; assumption.
    + exists pies. split; [reflexivity|assumption].
Qed.

Lemma for_each_chunks (chunks : list (list string)) :
  List.Forall (List.Forall (fun v => v <> "Area" /\ v <> "Town")) chunks ->
  exists figs,
    for_each chunks (pie_figure filtered_data)
    = (map (fun pies => plotly_chart (PieGrid pies)) figs, Ok tt)
    /\ length figs = length chunks
    /\ Forall2 shows (concat figs) (List.filter present (concat chunks)).
Proof.
  induction chunks as [|chunk chunks IH]; intros Hall.
  - exists []. repeat split. constructor.
  - apply List.Forall_cons_iff in Hall as [Hchunk Hall].
    destruct (add_pies_indicators chunk 0%nat Hchunk) as [pies [Hpies Hshows]].
    destruct (IH Hall) as [figs [Hfigs [Hlen Hrest]]].
    exists (pies :: figs). simpl for_each.
    rewrite Hfigs. unfold pie_figure. rewrite Hpies.
    split; [reflexivity|]. split; [simpl; congruence|]. simpl concat.
    rewrite List.filter_app. apply Forall2_app; assumption.
Qed.

End PieCharts.

Lemma chunks2_concat (l : list string) : concat (chunks2 l) = l.
Proof.
  assert (H : concat (chunks2 l) = l /\ forall x, concat (chunks2 (x :: l)) = x :: l).
  { induction l as [|y l [IH1 IH2]]; [split; reflexivity|].
    split; [apply IH2|]. intros x. simpl. rewrite IH1. reflexivity. }
  exact (proj1 H).
Qed.

(** The chunks are the slices [l[2k : 2k + 2]]. *)
Lemma chunks2_slice (k : nat) : forall l : list string,
  (2 * k < length l)%nat ->
  nth_error (chunks2 l) k = Some (take 2 (drop (2 * k) l)).
Proof.
  induction k as [|k IH]; intros l Hk.
  - destruct l as [|x [|y rest]]; simpl in *; [lia|reflexivity|reflexivity].
  - destruct l as [|x [|y rest]]; simpl in Hk; [lia|lia|].
    replace (2 * S k)%nat with (S (S (2 * k))) by lia.
    simpl. apply IH. lia.
Qed.

Lemma chunks2_length (l : list string) :
  (length (chunks2 l) = (length l + 1) / 2)%nat.
Proof.
  assert (H : (length (chunks2 l) = (length l + 1) / 2
               /\ forall x, length (chunks2 (x :: l)) = (length (x :: l) + 1) / 2)%nat).
  { induction l as [|y l [IH1 IH2]]; [split; reflexivity|].
    split; [apply IH2|]. intros x. simpl length. rewrite IH1.
    replace (S (S (length l)) + 1)%nat with ((length l + 1) + 1 * 2)%nat by lia.
    rewrite Nat.div_add by lia. lia. }
  exact (proj1 H).
Qed.

Section PieSlices.

Lemma wrap64_spec (z : Z) :
  - 2 ^ 63 <= wrap64 z < 2 ^ 63 /\ (wrap64 z - z) mod 2 ^ 64 = 0.
Proof.
  unfold wrap64.
  pose proof (Z.mod_pos_bound (z + 2 ^ 63) (2 ^ 64) ltac:(vm_compute; reflexivity)) as Hb.
  assert (H64 : 2 ^ 64 = 2 * 2 ^ 63) by (vm_compute; reflexivity).
  split; [lia|].
  rewrite (Z.mod_eq (z + 2 ^ 63)) by (vm_compute; discriminate).
  replace (z + 2 ^ 63 - 2 ^ 64 * ((z + 2 ^ 63) / 2 ^ 64) - 2 ^ 63 - z)
    with ((- ((z + 2 ^ 63) / 2 ^ 64)) * 2 ^ 64) by lia.
  apply Z_mod_mult.
Qed.

Lemma Forall2_map_self {B C} (P : B -> C -> Prop) (f : B -> C) (l : list B) :
  (forall x, In x l -> P x (f x)) -> Forall2 P l (map f l).
Proof.
  induction l as [|x l IH]; intros H; simpl; constructor.
  - apply H. left. reflexivity.
  - apply IH. intros y Hy. apply H. right. exact Hy.
Qed.

Lemma Forall2_weaken {B C} (P Q : B -> C -> Prop) (l : list B) (k : list C) :
  (forall x y, P x y -> Q x y) -> Forall2 P l k -> Forall2 Q l k.
Proof. intros H. induction 1; constructor; auto. Qed.

(** The areas of the selected rows. *)
Lemma selected_group_keys (areas : list string) (rs : list Row) (a : string) :
  In a (group_keys Area (List.filter (fun r => isin areas (Area r)) rs)) <->
  In a areas /\ exists r, In r rs /\ Area r = a.
Proof.
  rewrite group_keys_In. split.
  - intros [r [Hr Ha]]. apply filter_In in Hr as [Hr Hsel]. apply isin_In in Hsel.
    split; [congruence|]. exists r. auto.
  - intros [Hsel [r [Hr Ha]]]. exists r. split; [|exact Ha].
    apply filter_In. split; [exact Hr|]. apply isin_In. congruence.
Qed.

End PieSlices.

(** C10: for a list of indicator column names (neither of the text columns
    [Area] and [Town]), the pie-chart builder never raises; it sends one
    figure to the page per pair of requested names, and the pies of these
    figures are, in order, one for each requested name that is a column of
    the table, names that are not columns being skipped.  Each pie has one
    slice per selected area that occurs in the table, the areas in
    increasing order and each once, and the value of a slice is the sum of
    the column over the rows of its area, as an int64 (in the int64 range
    and equal to the sum modulo [2^64]).  The annotation names the column,
    in title case. *)
Theorem pie_charts_for_present_columns (data : DataFrame)
    (variables areas : list string)
    (Hvars : List.Forall (fun v => v <> "Area" /\ v <> "Town") variables) :
  exists figs : list (list Pie),
    create_binary_pie_charts data variables areas =
      (map (fun pies => plotly_chart (PieGrid pies)) figs, Ok tt)
    /\ length figs = ((length variables + 1) / 2)%nat
    /\ Forall2
         (fun p var =>
            List.NoDup (pie_names p)
            /\ StronglySorted (fun a b => String.leb a b = true) (pie_names p)
            /\ (forall a, In a (pie_names p) <->
                          In a areas /\ exists r, In r (rows data) /\ Area r = a)
            /\ (exists values,
                  pie_values p = IntValues values
                  /\ Forall2
                       (fun a v =>
                          - 2 ^ 63 <= v < 2 ^ 63
                          /\ (v - fold_right Z.add 0
                                    (map (cell var)
                                       (List.filter (fun r => String.eqb (Area r) a)
                                          (rows data)))) mod 2 ^ 64 = 0)
                       (pie_names p) values)
            /\ (Py.is_ascii var = true ->
                pie_annotation p = "Proportion of " ++ Py.title (Py.replace "_" " " var)))
         (concat figs)
         (List.filter (fun v => bool_decide (v ∈ numeric_columns data)) variables).
Proof.
  unfold create_binary_pie_charts.
  destruct (for_each_chunks (select_rows (fun r => isin areas (Area r)) data)
              (chunks2 variables)) as [figs [Hrun [Hlen Hshows]]].
  - apply List.Forall_forall. intros chunk Hchunk.
    apply List.Forall_forall. intros v Hv.
    apply (proj1 (List.Forall_forall _ _) Hvars).
    rewrite <- (chunks2_concat variables). apply in_concat. eauto.
  - exists figs. split; [exact Hrun|]. split; [rewrite Hlen; apply chunks2_length|].
    rewrite chunks2_concat in Hshows.
    revert Hshows. apply Forall2_weaken.
    clear. intros p var [Hnames [Hvalues Hnote]].
    cbn [rows select_rows] in Hnames, Hvalues. rewrite Hnames.
    split; [apply group_keys_NoDup|]. split; [apply sort_keys_sorted|].
    split; [intros a; apply selected_group_keys|].
    split; [|intros _; exact Hnote].
    eexists. split; [exact Hvalues|].
    apply Forall2_map_self. intros a Ha.
    apply selected_group_keys in Ha as [Hsel _].
    rewrite (filter_area_selected _ _ _ Hsel), sum64_exact. apply wrap64_spec.
Qed.

Lemma pie_charts_for_present_columns_witness :
  List.Forall (fun v => v <> "Area" /\ v <> "Town") ["lighting_good"; "footpaths"; "parks_bad"]
  /\ exists figs,
       create_binary_pie_charts
         (cleaned_table [cleaned_row "A1" "X" 1 0 1 0 1 0 0;
                         cleaned_row "B1" "Y" 0 1 0 0 0 1 1])
         ["lighting_good"; "footpaths"; "parks_bad"] ["X"; "Y"]
       = (map (fun pies => plotly_chart (PieGrid pies)) figs, Ok tt)
       /\ length figs = 2%nat.
Proof.
  assert (Hvars : List.Forall (fun v => v <> "Area" /\ v <> "Town")
                    ["lighting_good"; "footpaths"; "parks_bad"])
    by (repeat constructor; discriminate).
  split; [exact Hvars|].
  destruct (pie_charts_for_present_columns
              (cleaned_table [cleaned_row "A1" "X" 1 0 1 0 1 0 0;
                              cleaned_row "B1" "Y" 0 1 0 0 0 1 1])
              ["lighting_good"; "footpaths"; "parks_bad"] ["X"; "Y"] Hvars)
    as [figs [Hrun [Hlen _]]].
  exists figs. split; [exact Hrun|exact Hlen].
Defined.

(** ** The script *)

Section Script.

Lemma ui_bind_ok {A B} (shown : list element) (a : A) (f : A -> UI B) :
  ui_bind (shown, Ok a) f = ((shown ++ fst (f a))%list, snd (f a)).
Proof. reflexivity. Qed.

Lemma ui_bind_raise {A B} (shown : list element) (e : exn) (f : A -> UI B) :
  ui_bind (shown, Raise e) f = (shown, Raise e).
Proof. reflexivity. Qed.

Lemma has_columns_incl (some all : list string) (df : DataFrame) :
  (forall c, In c some -> In c all) ->
  has_columns all df = true -> has_columns some df = true.
Proof.
  unfold has_columns. rewrite !forallb_forall. intros Hincl Hall c Hc.
  apply Hall, Hincl, Hc.
Qed.

Lemma has_columns_select_rows (labels : list string) mask (df : DataFrame) :
  has_columns labels (select_rows mask df) = has_columns labels df.
Proof. reflexivity. Qed.

Lemma isin_nil (s : string) : isin [] s = false.
Proof. unfold isin. apply bool_decide_eq_false_2, not_elem_of_nil. Qed.

Lemma filter_none {B} (mask : B -> bool) (l : list B) :
  (forall x, mask x = false) -> List.filter mask l = [].
Proof.
  intros Hmask. induction l as [|x l IH]; simpl; [reflexivity|].
  rewrite Hmask. exact IH.
Qed.

Lemma filtered_df_no_area (df : DataFrame) (w : Widgets) :
  selected_areas w = [] -> rows (filtered_df df w) = [].
Proof.
  intros Hsel. unfold filtered_df, select_rows. simpl.
  apply filter_none. intros r. rewrite Hsel. apply isin_nil.
Qed.

Lemma groupby_sum_no_row (labels : list string) (df : DataFrame) :
  has_columns labels df = true -> rows df = [] -> groupby_sum labels df = Ok [].
Proof.
  intros Hcols Hrows. unfold groupby_sum. rewrite Hcols, Hrows. reflexivity.
Qed.

Lemma join_strs (sep : string) (items : list Py.obj) :
  (forall o, In o items -> o <> Py.NaN) ->
  join sep items = Ok (String.concat sep (Py.strs items)).
Proof.
  intros Hall. unfold join. rewrite (proj2 (forallb_forall _ _)); [reflexivity|].
  intros o Ho. destruct o; [reflexivity|]. destruct (Hall _ Ho eq_refl).
Qed.

Lemma join_nan (sep : string) (items : list Py.obj) :
  In Py.NaN items -> join sep items = Raise TypeError.
Proof.
  intros Hin. unfold join.
  destruct (forallb Py.is_str items) eqn:E; [|reflexivity].
  rewrite forallb_forall in E. discriminate (E _ Hin).
Qed.

Lemma related_towns_In (df : DataFrame) (name : string) (t : Py.obj) :
  In t (related_towns df name) <->
  exists r, In r (rows df) /\ Area r = name /\ Town r = t.
Proof.
  unfold related_towns. rewrite unique_In, in_map_iff. split.
  - intros [r [Ht Hr]]. apply filter_In in Hr as [Hr Hk].
    apply String.eqb_eq in Hk. exists r. auto.
  - intros [r [Hr [Hk Ht]]]. exists r. split; [exact Ht|].
    apply filter_In. split; [exact Hr|]. apply String.eqb_eq, Hk.
Qed.

Lemma join_related_towns (df : DataFrame) (name : string) :
  towns_named df name ->
  join ", " (related_towns df name) = Ok (String.concat ", " (Py.strs (related_towns df name))).
Proof.
  intros Hnamed. apply join_strs. intros o Ho.
  apply related_towns_In in Ho as [r [Hr [Ha <-]]]. exact (Hnamed r Hr Ha).
Qed.

(** The detail block, once the row of the selected name is found: the
    lines of the row are written, then the towns, unless a missing town
    stops the [join]. *)
Lemma detail_section_found (df : DataFrame) (top : list AggRow) (w : Widgets)
    (name : string) (r : AggRow) :
  selected_entity w = Some name -> name <> "" -> entity_row top name = Ok r ->
  detail_section df top w =
  match join ", " (related_towns df name) with
  | Ok joined => ([detail_view r; towns_line joined], Ok tt)
  | Raise e => ([detail_view r], Raise e)
  end.
Proof.
  intros Hsel Hname Hrow. unfold detail_section, detail. rewrite Hsel, Hrow.
  destruct name as [|c name]; [contradiction|].
  destruct (join ", " (related_towns df (String c name))); reflexivity.
Qed.

Lemma detail_section_skipped (df : DataFrame) (top : list AggRow) (w : Widgets) :
  Py.truthy (selected_entity w) = false -> detail_section df top w = ([], Ok tt).
Proof.
  intros H. unfold detail_section, detail.
  destruct (selected_entity w) as [[|c name]|]; [reflexivity|discriminate H|reflexivity].
Qed.

Lemma entity_row_first (top : list AggRow) (name : string) :
  In name (map group top) -> exists r, entity_row top name = Ok r /\ group r = name.
Proof.
  intros Hin. destruct (first_match top name Hin) as [r [before [after [_ [Hr [_ Hfilter]]]]]].
  exists r. unfold entity_row. rewrite Hfilter. split; [reflexivity|exact Hr].
Qed.

(** The detail block shows at most the detail view and the towns. *)
Lemma detail_section_runs (df : DataFrame) (top : list AggRow) (w : Widgets) :
  selectbox_value (map group top) (selected_entity w) ->
  (forall name, selected_entity w = Some name -> name <> "" -> towns_named df name) ->
  exists shown,
    detail_section df top w = (shown, Ok tt)
    /\ (shown = [] \/ exists entity joined, shown = [detail_view entity; towns_line joined])
    /\ forall msg, ~ In (warning msg) shown.
Proof.
  intros Hsel Hnamed.
  destruct (selected_entity w) as [name|] eqn:Esel; simpl in Hsel.
  - destruct (string_dec name "") as [->|Hname].
    + exists []. rewrite detail_section_skipped by (rewrite Esel; reflexivity).
      split; [reflexivity|]. split; [left; reflexivity|intros msg []].
    + destruct (entity_row_first top name Hsel) as [r [Hrow _]].
      rewrite (detail_section_found df top w name r Esel Hname Hrow).
      rewrite (join_related_towns df name (Hnamed name eq_refl Hname)).
      eexists. split; [reflexivity|]. split; [right; eauto|].
      intros msg [H|[H|[]]]; discriminate H.
  - exists []. rewrite detail_section_skipped by (rewrite Esel; reflexivity).
    split; [reflexivity|]. split; [left; reflexivity|intros msg []].
Qed.

(** The comparison block shows the warning exactly when no area is chosen. *)
Lemma comparison_section_runs (df : DataFrame) (w : Widgets) :
  has_columns binary_vars df = true ->
  exists shown,
    comparison_section df w = (shown, Ok tt)
    /\ (In (warning no_area_warning) shown <-> comparison_areas w = []).
Proof.
  intros Hcols. unfold comparison_section.
  destruct (comparison_areas w) as [|a areas] eqn:Ecmp.
  - exists [warning no_area_warning]. split; [reflexivity|].
    split; [reflexivity|]. intros _. left. reflexivity.
  - unfold create_binary_pie_charts.
    destruct (for_each_chunks (select_rows (fun r => isin (a :: areas) (Area r)) df)
                (chunks2 binary_vars)) as [figs [Hrun _]].
    { unfold binary_vars. simpl. repeat constructor; discriminate. }
    rewrite Hrun, Hcols.
    eexists. split; [reflexivity|]. simpl.
    split; [|discriminate]. intros Hin. exfalso.
    apply in_app_or in Hin as [Hin|[Hin|[]]].
    + apply in_map_iff in Hin as [pies [Hpies _]]. discriminate Hpies.
    + discriminate Hin.
Qed.

(** A run in which the four computations before the detail block succeed. *)
Lemma app_runs (df : DataFrame) (w : Widgets) lighting parks top :
  lighting_data df w = Ok lighting ->
  parks_data df w = Ok parks ->
  top_entities df w = Ok top ->
  app df w =
  ui_bind
    ([plotly_chart (create_stacked_bar_chart lighting
          ["lighting_bad"; "lighting_acceptable"; "lighting_good"]
          "Lighting Conditions by Area" ["#FF9999"; "#FFD700"; "#90EE90"]);
      plotly_chart (create_stacked_bar_chart parks
          ["parks_bad"; "parks_acceptable"; "parks_good"]
          "Park Conditions by Area" ["#FF6B6B"; "#FFA07A"; "#98FB98"]);
      plotly_chart (RankedBar (map group top) (map normalized_score top))], Ok tt)
    (fun _ => ui_bind (detail_section df top w) (fun _ => comparison_section df w)).
Proof.
  intros Hl Hp Ht. unfold app. rewrite Hl, Hp, Ht. reflexivity.
Qed.

End Script.

(** C1, as stated, does not hold: with no area selected in the sidebar the
    filtered table is empty, but the top-N table, which is computed from the
    whole table, has a row, and no warning is shown. *)
Lemma empty_selection_keeps_top_n :
  selected_areas (mkWidgets [] 10 (Some "X") ["X"]) = []
  /\ rows (filtered_df (cleaned_table [cleaned_row "A1" "X" 1 0 1 0 1 0 0])
                       (mkWidgets [] 10 (Some "X") ["X"])) = []
  /\ top_entities (cleaned_table [cleaned_row "A1" "X" 1 0 1 0 1 0 0])
                  (mkWidgets [] 10 (Some "X") ["X"])
     = Ok [mkAgg "X" 1 1 0 0 1 0 0 1 2 2]
  /\ snd (app (cleaned_table [cleaned_row "A1" "X" 1 0 1 0 1 0 0])
              (mkWidgets [] 10 (Some "X") ["X"])) = Ok tt
  /\ ~ In (warning no_area_warning)
          (fst (app (cleaned_table [cleaned_row "A1" "X" 1 0 1 0 1 0 0])
                    (mkWidgets [] 10 (Some "X") ["X"]))).
Proof.
  split; [reflexivity|]. split; [reflexivity|]. split; [reflexivity|].
  split; [reflexivity|].
  rewrite (app_runs _ _ [] [] [mkAgg "X" 1 1 0 0 1 0 0 1 2 2]) by reflexivity.
  destruct (detail_section_runs (cleaned_table [cleaned_row "A1" "X" 1 0 1 0 1 0 0])
              [mkAgg "X" 1 1 0 0 1 0 0 1 2 2] (mkWidgets [] 10 (Some "X") ["X"]))
    as [shown [Hrun [_ Hnone]]].
  { simpl. auto. }
  { intros name _ _ r [<-|[]] _. discriminate. }
  destruct (comparison_section_runs (cleaned_table [cleaned_row "A1" "X" 1 0 1 0 1 0 0])
              (mkWidgets [] 10 (Some "X") ["X"]) eq_refl)
    as [shown' [Hrun' Hwarn]].
  rewrite Hrun, Hrun'. simpl. intros [H|[H|[H|H]]]; try discriminate H.
  apply in_app_or in H as [H|H]; [exact (Hnone _ H)|].
  apply Hwarn in H. discriminate H.
Qed.

(** C1, amended: on a cleaned table, with no area selected in the sidebar
    the filtered table has no rows and the lighting and parks sums computed
    from it succeed with no rows.  The top-N table does not depend on that
    selection: it is computed from the whole table, and exists when that
    table has a row (on a table without rows [nlargest] raises
    [TypeError]).  With a value of the select box for the top-N table, and
    the rows of the selected area naming their towns, the run ends without
    an exception, and it shows the warning exactly when no area is chosen
    for the comparison. *)
Theorem empty_area_selection (df : DataFrame) (w : Widgets)
    (Hcols : has_columns binary_vars df = true)
    (Hsel : selected_areas w = []) :
  rows (filtered_df df w) = []
  /\ lighting_data df w = Ok []
  /\ parks_data df w = Ok []
  /\ (forall areas,
        top_entities df (mkWidgets areas (num_top_entities w) (selected_entity w)
                           (comparison_areas w))
        = top_entities df w)
  /\ (rows df <> [] ->
      top_entities df w =
      Ok (nlargest (num_top_entities w) normalized_score (agg_groups ByArea (rows df))))
  /\ (rows df = [] -> snd (app df w) = Raise TypeError)
  /\ (forall top,
        top_entities df w = Ok top ->
        selectbox_value (map group top) (selected_entity w) ->
        (forall name, selected_entity w = Some name -> name <> "" -> towns_named df name) ->
        snd (app df w) = Ok tt
        /\ (In (warning no_area_warning) (fst (app df w)) <-> comparison_areas w = [])).
Proof.
  assert (Hrows : rows (filtered_df df w) = []) by (apply filtered_df_no_area, Hsel).
  assert (Hlight : lighting_data df w = Ok []).
  { apply groupby_sum_no_row; [|exact Hrows].
    unfold filtered_df. rewrite has_columns_select_rows.
    apply (has_columns_incl _ binary_vars df); [|exact Hcols].
    unfold binary_vars. simpl. tauto. }
  assert (Hparks : parks_data df w = Ok []).
  { apply groupby_sum_no_row; [|exact Hrows].
    unfold filtered_df. rewrite has_columns_select_rows.
    apply (has_columns_incl _ binary_vars df); [|exact Hcols].
    unfold binary_vars. simpl. tauto. }
  assert (Hagg : has_columns agg_sum_labels df = true).
  { apply (has_columns_incl _ binary_vars df); [|exact Hcols].
    unfold binary_vars, agg_sum_labels. simpl. tauto. }
  split; [exact Hrows|]. split; [exact Hlight|]. split; [exact Hparks|].
  split; [intros areas; reflexivity|].
  split; [apply top_entities_with_rows, Hagg|].
  split.
  - intros Hnone. unfold app. rewrite Hlight, Hparks.
    rewrite (top_entities_no_rows df w Hagg Hnone). reflexivity.
  - intros top Htop Hbox Hnamed.
    rewrite (app_runs df w [] [] top Hlight Hparks Htop).
    destruct (detail_section_runs df top w Hbox Hnamed) as [shown [Hrun [_ Hnone]]].
    destruct (comparison_section_runs df w Hcols) as [shown' [Hrun' Hwarn]].
    rewrite ui_bind_ok, Hrun, ui_bind_ok, Hrun'. simpl.
    split; [reflexivity|]. rewrite <- Hwarn. split.
    + intros [H|[H|[H|H]]]; try discriminate H.
      apply in_app_or in H as [H|H]; [destruct (Hnone _ H)|exact H].
    + intros H. right. right. right. apply in_or_app. right. exact H.
Qed.

Lemma empty_area_selection_witness :
  rows (filtered_df (cleaned_table [cleaned_row "A1" "X" 1 0 1 0 1 0 0;
                                    cleaned_row "B1" "Y" 0 1 0 0 0 1 1])
                    (mkWidgets [] 10 (Some "Y") [])) = []
  /\ lighting_data (cleaned_table [cleaned_row "A1" "X" 1 0 1 0 1 0 0;
                                   cleaned_row "B1" "Y" 0 1 0 0 0 1 1])
                   (mkWidgets [] 10 (Some "Y") []) = Ok [].
Proof.
  destruct (empty_area_selection
              (cleaned_table [cleaned_row "A1" "X" 1 0 1 0 1 0 0;
                              cleaned_row "B1" "Y" 0 1 0 0 0 1 1])
              (mkWidgets [] 10 (Some "Y") []) eq_refl eq_refl)
    as [Hrows [Hlight _]].
  split; [exact Hrows|exact Hlight].
Defined.

(** * Further properties of the script *)

(** ** [clean_ref_area]: shape of the derived area *)

Section CleanRefArea.

(** The last piece of a split holds no separator. *)
Lemma last_split_no_sep sep s :
  Py.contains sep (Py.last_item (Py.split sep s)) = false.
Proof.
  induction s as [|c rest IH]; [reflexivity|]. simpl.
  pose proof (split_not_nil sep rest) as Hne.
  destruct (Ascii.eqb c sep) eqn:E.
  - unfold Py.last_item in *. simpl.
    destruct (Py.split sep rest); [contradiction|exact IH].
  - destruct (Py.split sep rest) as [|piece pieces]; [contradiction|].
    rewrite last_item_cons_piece. destruct pieces as [|q qs]; [|exact IH].
    simpl. rewrite E. exact IH.
Qed.

Lemma last_item_cons x l : l <> [] -> Py.last_item (x :: l) = Py.last_item l.
Proof. destruct l; [contradiction|reflexivity]. Qed.

(** A text that splits into one piece is that piece. *)
Lemma split_single sep s x : Py.split sep s = [x] -> s = x.
Proof.
  revert x. induction s as [|c rest IH]; simpl; intros x E.
  - injection E as <-. reflexivity.
  - destruct (Ascii.eqb c sep).
    + inversion E as [[H1 H2]]. destruct (split_not_nil _ _ H2).
    + pose proof (split_not_nil sep rest) as Hne.
      destruct (Py.split sep rest) as [|p1 ps]; [contradiction|].
      inversion E; subst. f_equal. apply IH. reflexivity.
Qed.

(** The text is its last piece, or ends with a separator and that piece. *)
Lemma last_split_suffix sep s :
  s = Py.last_item (Py.split sep s)
  \/ exists p, s = p ++ String sep (Py.last_item (Py.split sep s)).
Proof.
  induction s as [|c rest IH]; [left; reflexivity|]. simpl Py.split.
  pose proof (split_not_nil sep rest) as Hne.
  destruct (Ascii.eqb_spec c sep) as [->|Hc].
  - right. rewrite (last_item_cons _ _ Hne).
    destruct IH as [IH|[p IH]].
    + exists "". exact (f_equal (String sep) IH).
    + exists (String sep p). exact (f_equal (String sep) IH).
  - destruct (Py.split sep rest) as [|piece pieces] eqn:E; [contradiction|].
    destruct pieces as [|q qs].
    + left. change (String c rest = String c piece).
      f_equal. exact (split_single sep _ _ E).
    + right. rewrite last_item_cons_piece.
      destruct IH as [IH|[p IH]].
      * exfalso.
        assert (Hrest : Py.contains sep rest = false)
          by (rewrite IH; rewrite <- E; apply last_split_no_sep).
        rewrite (split_no_sep _ _ Hrest) in E. discriminate E.
      * exists (String c p). exact (f_equal (String c) IH).
Qed.

Lemma replace_contains_old old new s :
  new <> old -> Py.contains old (Py.replace old new s) = false.
Proof.
  intros Hne. induction s as [|c rest IH]; [reflexivity|]. simpl. rewrite IH.
  unfold Py.replace_ascii. rewrite orb_false_r.
  destruct (Ascii.eqb_spec c old) as [_|Hc]; apply Ascii.eqb_neq; assumption.
Qed.

Lemma replace_contains_other old new c s :
  new <> c -> Py.contains c s = false -> Py.contains c (Py.replace old new s) = false.
Proof.
  intros Hne. induction s as [|d rest IH]; [reflexivity|]. simpl.
  intros H. apply orb_false_iff in H as [Hd Hrest]. rewrite (IH Hrest), orb_false_r.
  unfold Py.replace_ascii. destruct (Ascii.eqb d old); [apply Ascii.eqb_neq, Hne|exact Hd].
Qed.

Lemma replace_absent old new s :
  Py.contains old s = false -> Py.replace old new s = s.
Proof.
  induction s as [|c rest IH]; [reflexivity|]. simpl.
  intros H. apply orb_false_iff in H as [Hc Hrest].
  rewrite (IH Hrest). unfold Py.replace_ascii. rewrite Hc. reflexivity.
Qed.

Lemma length_zero_empty (s : string) : String.length s = 0%nat -> s = "".
Proof. destruct s; [reflexivity|discriminate]. Qed.

End CleanRefArea.

(** X1: the derived area never holds a ['/'] or a ['_'], and deriving the
    area of a derived area changes nothing. *)
Theorem clean_ref_area_normal_form (url : string) :
  Py.contains "/" (clean_ref_area url) = false
  /\ Py.contains "_" (clean_ref_area url) = false
  /\ clean_ref_area (clean_ref_area url) = clean_ref_area url.
Proof.
  assert (Hslash : Py.contains "/" (clean_ref_area url) = false).
  { unfold clean_ref_area. apply replace_contains_other; [discriminate|].
    apply last_split_no_sep. }
  assert (Hunder : Py.contains "_" (clean_ref_area url) = false).
  { unfold clean_ref_area. apply replace_contains_old. discriminate. }
  split; [exact Hslash|]. split; [exact Hunder|].
  rewrite (clean_ref_area_no_slash _ Hslash). apply replace_absent, Hunder.
Qed.

(** X2: the derived area is empty exactly for the empty text and for a text
    that ends with ['/']. *)
Theorem clean_ref_area_empty (url : string) :
  clean_ref_area url = "" <-> url = "" \/ exists p, url = p ++ "/".
Proof.
  unfold clean_ref_area. split.
  - intros H.
    assert (Hlast : Py.last_item (Py.split "/" url) = "").
    { apply length_zero_empty. rewrite <- (replace_length "_" " "), H. reflexivity. }
    destruct (last_split_suffix "/" url) as [Hs|[p Hs]]; rewrite Hlast in Hs.
    + left. exact Hs.
    + right. exists p. exact Hs.
  - intros [->|[p ->]]; [reflexivity|].
    change (p ++ "/") with (p ++ String "/" ""). rewrite last_split_app. reflexivity.
Qed.

(** ** [aggregate_data]: outcomes and shape of the aggregated table *)

Section AggregatedTable.

Lemma has_columns_spec (labels : list string) (df : DataFrame) :
  has_columns labels df = true <->
  forall label, In label labels -> In label (numeric_columns df).
Proof.
  unfold has_columns. rewrite forallb_forall. split; intros H label Hl.
  - apply list_elem_of_In. exact (bool_decide_eq_true_1 _ (H label Hl)).
  - apply bool_decide_eq_true_2, list_elem_of_In, H, Hl.
Qed.

Lemma has_columns_false (labels : list string) (df : DataFrame) (label : string) :
  In label labels -> ~ In label (numeric_columns df) -> has_columns labels df = false.
Proof.
  intros Hl Hmissing. destruct (has_columns labels df) eqn:E; [|reflexivity].
  destruct (Hmissing (proj1 (has_columns_spec _ _) E label Hl)).
Qed.

Lemma agg_groups_keys rs : map group (agg_groups ByArea rs) = group_keys Area rs.
Proof.
  unfold agg_groups, groupby. rewrite !map_map. simpl. apply map_id.
Qed.

Lemma unique_length_NoDup {B} `{EqDecision B} (l : list B) :
  List.NoDup l -> length (unique l) = length l.
Proof.
  intros Hnd. apply Permutation_length.
  apply Permutation.NoDup_Permutation; [apply unique_NoDup|exact Hnd|].
  intros x. apply unique_In.
Qed.

Lemma exact_sum_binary (l : list Z) :
  List.Forall (fun x => 0 <= x <= 1) l -> 0 <= exact_sum l <= Z.of_nat (length l).
Proof.
  induction 1 as [|x l Hx Hl IH]; simpl exact_sum; simpl length; lia.
Qed.

Lemma filter_length_le {B} (mask : B -> bool) (l : list B) :
  (length (List.filter mask l) <= length l)%nat.
Proof.
  induction l as [|x l IH]; simpl; [lia|]. destruct (mask x); simpl; lia.
Qed.

(** The towns of one area are distinct when no (area, town) pair repeats. *)
Lemma towns_of_area_NoDup (rs : list Row) (k : string) :
  List.NoDup (map (fun r => (Area r, Town r)) rs) ->
  List.NoDup (map Town (List.filter (fun r => String.eqb (Area r) k) rs)).
Proof.
  induction rs as [|r rs IH]; simpl; intros Hnd; [constructor|].
  apply NoDup_cons_iff in Hnd as [Hr Hnd].
  destruct (String.eqb_spec (Area r) k) as [Hk|Hk]; [|exact (IH Hnd)].
  simpl. constructor; [|exact (IH Hnd)].
  intros Hin. apply Hr. apply in_map_iff in Hin as [r' [Ht Hr']].
  apply filter_In in Hr' as [Hr' Hk']. apply String.eqb_eq in Hk'.
  apply in_map_iff. exists r'. split; [congruence|exact Hr'].
Qed.

Lemma strs_length (l : list Py.obj) :
  (forall o, In o l -> o <> Py.NaN) -> length (Py.strs l) = length l.
Proof.
  intros H. rewrite <- (strs_all l H) at 2. rewrite length_map. reflexivity.
Qed.

Lemma strs_NoDup (l : list Py.obj) : List.NoDup l -> List.NoDup (Py.strs l).
Proof.
  induction l as [|[t|] l IH]; simpl; intros Hnd; [constructor| |].
  - apply NoDup_cons_iff in Hnd as [Hx Hnd]. constructor; [|exact (IH Hnd)].
    intros Hin. apply Hx, strs_In, Hin.
  - apply NoDup_cons_iff in Hnd as [_ Hnd]. exact (IH Hnd).
Qed.

(** [nunique] counts the text values of [unique]. *)
Lemma nunique_unique (l : list Py.obj) :
  nunique l = Z.of_nat (length (Py.strs (unique l))).
Proof.
  unfold nunique. f_equal. apply Permutation_length.
  apply Permutation.NoDup_Permutation.
  - apply unique_NoDup.
  - apply strs_NoDup, unique_NoDup.
  - intros t. rewrite unique_In, !strs_In, unique_In. reflexivity.
Qed.

(** When the rows of a group name distinct towns, [nunique] counts the
    rows. *)
Lemma nunique_rows (members : list Row) :
  List.NoDup (map Town members) ->
  (forall x, In x members -> Town x <> Py.NaN) ->
  nunique (map Town members) = Z.of_nat (length members).
Proof.
  intros Hnd Hnamed. unfold nunique.
  rewrite unique_length_NoDup by (apply strs_NoDup, Hnd).
  rewrite strs_length, length_map; [reflexivity|].
  intros o Ho. apply in_map_iff in Ho as [x [<- Hx]]. exact (Hnamed x Hx).
Qed.

End AggregatedTable.

(** X3: the outcomes of [aggregate_data].  A returned table means grouping
    by [Area] on a table with all seven indicator columns; a missing
    indicator column gives [KeyError] whichever the grouping column; and
    grouping by [Town] on a table with all seven columns gives [ValueError]
    (the aggregated frame already has a [Town] column when [reset_index]
    inserts the index). *)
Theorem aggregate_data_outcomes (data : DataFrame) (g : GroupColumn) :
  (forall agg, aggregate_data data g = Ok agg ->
     g = ByArea /\ forall label, In label agg_sum_labels -> In label (numeric_columns data))
  /\ (forall label, In label agg_sum_labels -> ~ In label (numeric_columns data) ->
        aggregate_data data g = Raise KeyError)
  /\ ((forall label, In label agg_sum_labels -> In label (numeric_columns data)) ->
        aggregate_data data ByTown = Raise ValueError).
Proof.
  split; [|split].
  - intros agg Hagg. apply aggregate_data_ok in Hagg as [Hg [Hcols _]].
    split; [exact Hg|]. apply has_columns_spec, Hcols.
  - intros label Hl Hmissing. unfold aggregate_data.
    rewrite (has_columns_false _ _ _ Hl Hmissing). reflexivity.
  - intros Hall. rewrite aggregate_data_by_town.
    rewrite (proj2 (has_columns_spec _ _) Hall). reflexivity.
Qed.

(** X4: the table aggregated by [Area] has exactly one row per area of the
    input table, in strictly increasing order of the area names. *)
Theorem aggregate_one_row_per_area (data : DataFrame) (agg : list AggRow)
    (Hagg : aggregate_data data ByArea = Ok agg) :
  (forall a, In a (map group agg) <-> exists r, In r (rows data) /\ Area r = a)
  /\ List.NoDup (map group agg)
  /\ StronglySorted (fun a b => String.leb a b = true) (map group agg)
  /\ length agg = length (unique (map Area (rows data))).
Proof.
  apply aggregate_data_ok in Hagg as [_ [_ ->]].
  rewrite agg_groups_keys.
  split; [intros a; apply group_keys_In|].
  split; [apply group_keys_NoDup|].
  split; [apply sort_keys_sorted|].
  rewrite <- (length_map group), agg_groups_keys. unfold group_keys.
  apply Permutation_length, sort_keys_perm.
Qed.

Lemma aggregate_one_row_per_area_witness :
  List.NoDup (map group
    (agg_groups ByArea [cleaned_row "A1" "X" 1 0 1 0 1 0 0;
                        cleaned_row "B1" "Beirut" 0 1 0 0 0 1 1;
                        cleaned_row "A2" "X" 0 1 0 1 1 0 0])).
Proof.
  exact (proj1 (proj2 (aggregate_one_row_per_area
    (cleaned_table [cleaned_row "A1" "X" 1 0 1 0 1 0 0;
                    cleaned_row "B1" "Beirut" 0 1 0 0 0 1 1;
                    cleaned_row "A2" "X" 0 1 0 1 1 0 0]) _ eq_refl))).
Defined.

Section ScoreRange.

Lemma add64_small a b : - 2 ^ 63 <= a + b < 2 ^ 63 -> add64 a b = a + b.
Proof. apply wrap64_small. Qed.

Lemma binary_column_sum (label : string) (members : list Row) :
  (forall r, In r members -> 0 <= cell label r <= 1) ->
  Z.of_nat (length members) < 2 ^ 61 ->
  0 <= sum64 (map (cell label) members) <= Z.of_nat (length members).
Proof.
  intros Hbin Hsize.
  assert (Hex : 0 <= exact_sum (map (cell label) members) <= Z.of_nat (length members)).
  { rewrite <- (length_map (cell label)). apply exact_sum_binary.
    apply List.Forall_forall. intros x Hx.
    apply in_map_iff in Hx as [r [<- Hr]]. apply Hbin, Hr. }
  rewrite sum64_no_overflow; [exact Hex|].
  assert (2 ^ 61 < 2 ^ 63) by (vm_compute; reflexivity). lia.
Qed.

End ScoreRange.

(** X5: on a table whose four good/acceptable indicators are 0 or 1, where
    every row names its town and no town is listed twice in an area (and
    with fewer than 2^51 rows, so that every sum is an int64 and a float64
    as it is), every aggregated row has [town_count] equal to the number of
    rows of its area, [total_score] between 0 and four times [town_count],
    and [normalized_score] between 0 and 4. *)
Theorem normalized_score_range (data : DataFrame) (agg : list AggRow)
    (Hagg : aggregate_data data ByArea = Ok agg)
    (Hbin : forall r label,
        In r (rows data) ->
        In label ["lighting_good"; "parks_good"; "lighting_acceptable"; "parks_acceptable"] ->
        0 <= cell label r <= 1)
    (Hnamed : forall r, In r (rows data) -> Town r <> Py.NaN)
    (Htowns : List.NoDup (map (fun r => (Area r, Town r)) (rows data)))
    (Hsize : Z.of_nat (length (rows data)) < 2 ^ 51) :
  List.Forall
    (fun r =>
       town_count r =
         Z.of_nat (length (List.filter (fun x => String.eqb (Area x) (group r)) (rows data)))
       /\ 1 <= town_count r
       /\ 0 <= total_score r <= 4 * town_count r
       /\ (0 <= normalized_score r)%Q
       /\ (normalized_score r <= 4)%Q)
    agg.
Proof.
  apply aggregate_data_ok in Hagg as [_ [_ ->]].
  apply List.Forall_forall. intros r Hr.
  apply agg_groups_In in Hr as [k [members [-> [Hm Hne]]]].
  cbn [group town_count total_score normalized_score agg_group]. rewrite <- Hm.
  assert (Hcount : nunique (map Town members) = Z.of_nat (length members)).
  { apply nunique_rows.
    - rewrite Hm. apply towns_of_area_NoDup, Htowns.
    - intros x Hx. apply Hnamed. rewrite Hm in Hx. apply filter_In in Hx. tauto. }
  assert (Hlen : Z.of_nat (length members) < 2 ^ 51).
  { pose proof (filter_length_le (fun x => String.eqb (Area x) k) (rows data)) as Hle.
    rewrite <- Hm in Hle. lia. }
  assert (Hone : 1 <= Z.of_nat (length members)).
  { destruct members; [contradiction|simpl length; lia]. }
  assert (H61 : 2 ^ 51 < 2 ^ 61) by (vm_compute; reflexivity).
  assert (Hcol : forall label,
            In label ["lighting_good"; "parks_good"; "lighting_acceptable"; "parks_acceptable"] ->
            0 <= sum64 (map (cell label) members) <= Z.of_nat (length members)).
  { intros label Hl. apply binary_column_sum; [|lia].
    intros x Hx. apply Hbin; [|exact Hl].
    rewrite Hm in Hx. apply filter_In in Hx. tauto. }
  pose proof (Hcol "lighting_good" ltac:(simpl; tauto)) as Hlg.
  pose proof (Hcol "parks_good" ltac:(simpl; tauto)) as Hpg.
  pose proof (Hcol "lighting_acceptable" ltac:(simpl; tauto)) as Hla.
  pose proof (Hcol "parks_acceptable" ltac:(simpl; tauto)) as Hpa.
  assert (H63 : 2 ^ 63 = 4096 * 2 ^ 51) by (vm_compute; reflexivity).
  assert (H53 : 2 ^ 53 = 4 * 2 ^ 51) by (vm_compute; reflexivity).
  rewrite Hcount.
  assert (Htotal : 0 <= add64 (add64 (add64 (sum64 (map (cell "lighting_good") members))
                                      (sum64 (map (cell "parks_good") members)))
                               (sum64 (map (cell "lighting_acceptable") members)))
                        (sum64 (map (cell "parks_acceptable") members))
                   <= 4 * Z.of_nat (length members)).
  { rewrite (add64_small (sum64 (map (cell "lighting_good") members))) by lia.
    rewrite (add64_small (_ + _) (sum64 (map (cell "lighting_acceptable") members))) by lia.
    rewrite add64_small by lia. lia. }
  split; [reflexivity|]. split; [exact Hone|]. split; [exact Htotal|].
  apply true_divide_range; lia.
Qed.

Lemma normalized_score_range_witness :
  List.Forall (fun r => (normalized_score r <= 4)%Q)
    (agg_groups ByArea [cleaned_row "A1" "X" 1 0 1 0 1 0 0;
                        cleaned_row "B1" "Y" 0 1 0 0 0 1 1;
                        cleaned_row "A2" "X" 0 1 0 1 1 0 0]).
Proof.
  assert (H : List.Forall
    (fun r =>
       town_count r =
         Z.of_nat (length (List.filter (fun x => String.eqb (Area x) (group r))
                             [cleaned_row "A1" "X" 1 0 1 0 1 0 0;
                              cleaned_row "B1" "Y" 0 1 0 0 0 1 1;
                              cleaned_row "A2" "X" 0 1 0 1 1 0 0]))
       /\ 1 <= town_count r
       /\ 0 <= total_score r <= 4 * town_count r
       /\ (0 <= normalized_score r)%Q
       /\ (normalized_score r <= 4)%Q)
    (agg_groups ByArea [cleaned_row "A1" "X" 1 0 1 0 1 0 0;
                        cleaned_row "B1" "Y" 0 1 0 0 0 1 1;
                        cleaned_row "A2" "X" 0 1 0 1 1 0 0])).
  { apply (normalized_score_range
             (cleaned_table [cleaned_row "A1" "X" 1 0 1 0 1 0 0;
                             cleaned_row "B1" "Y" 0 1 0 0 0 1 1;
                             cleaned_row "A2" "X" 0 1 0 1 1 0 0]) _ eq_refl).
    - intros r label Hr Hl. simpl in Hr, Hl.
      destruct Hr as [<-|[<-|[<-|[]]]];
        destruct Hl as [<-|[<-|[<-|[<-|[]]]]]; vm_compute; split; discriminate.
    - intros r Hr. simpl in Hr. destruct Hr as [<-|[<-|[<-|[]]]]; discriminate.
    - simpl. repeat constructor; simpl; intuition discriminate.
    - vm_compute. reflexivity. }
  apply List.Forall_forall. intros r Hr.
  exact (proj2 (proj2 (proj2 (proj2 (proj1 (List.Forall_forall _ _) H r Hr))))).
Defined.

Section ColumnSums.

Lemma sum64_map_wrap {B} (f g : B -> Z) (l : list B) :
  (forall x, f x = wrap64 (g x)) ->
  sum64 (map f l) = wrap64 (exact_sum (map g l)).
Proof.
  intros Hf. rewrite sum64_exact.
  induction l as [|x l IH]; simpl; [reflexivity|].
  rewrite Hf, wrap64_add_l, <- wrap64_add_r, IH, wrap64_add_r. reflexivity.
Qed.

Lemma exact_sum_concat (parts : list (list Z)) :
  exact_sum (concat parts) = exact_sum (map exact_sum parts).
Proof.
  induction parts as [|p parts IH]; simpl; [reflexivity|].
  rewrite exact_sum_app, IH. reflexivity.
Qed.

Lemma exact_sum_add {B} (f g : B -> Z) (l : list B) :
  exact_sum (map (fun x => f x + g x) l) = exact_sum (map f l) + exact_sum (map g l).
Proof. induction l as [|x l IH]; simpl; lia. Qed.

Lemma wrap64_multiple z : exists k, wrap64 z = z + 2 ^ 64 * k.
Proof.
  exists (- ((z + 2 ^ 63) / 2 ^ 64)). unfold wrap64.
  rewrite Z.mod_eq by (vm_compute; discriminate). lia.
Qed.

Lemma wrap64_shift z k : wrap64 (z + 2 ^ 64 * k) = wrap64 z.
Proof.
  unfold wrap64. f_equal.
  replace (z + 2 ^ 64 * k + 2 ^ 63) with (z + 2 ^ 63 + k * 2 ^ 64) by lia.
  apply Z_mod_plus_full.
Qed.

Lemma add64_wrapped a b c d :
  add64 (add64 (add64 (wrap64 a) (wrap64 b)) (wrap64 c)) (wrap64 d) = wrap64 (a + b + c + d).
Proof.
  unfold add64.
  destruct (wrap64_multiple a) as [ka ->]. destruct (wrap64_multiple b) as [kb ->].
  destruct (wrap64_multiple c) as [kc ->]. destruct (wrap64_multiple d) as [kd ->].
  destruct (wrap64_multiple (a + 2 ^ 64 * ka + (b + 2 ^ 64 * kb))) as [k1 ->].
  destruct (wrap64_multiple (a + 2 ^ 64 * ka + (b + 2 ^ 64 * kb) + 2 ^ 64 * k1
                             + (c + 2 ^ 64 * kc))) as [k2 ->].
  rewrite <- (wrap64_shift (a + b + c + d) (ka + kb + k1 + kc + k2 + kd)).
  f_equal. lia.
Qed.

(** The score of a group, up to wrap-around, is the sum of the four
    indicators over its rows. *)
Lemma total_score_group k members :
  total_score (agg_group k members) =
  wrap64 (exact_sum (map (fun r => cell "lighting_good" r + cell "parks_good" r
                                   + cell "lighting_acceptable" r
                                   + cell "parks_acceptable" r) members)).
Proof.
  simpl. rewrite !sum64_exact, !exact_sum_add. apply add64_wrapped.
Qed.

End ColumnSums.

(** X6: aggregation by [Area] keeps the (int64) sum of each of the other six
    indicator columns, and the [total_score] column of the aggregated table
    adds up to the sum, over all rows of the table, of the four
    good/acceptable indicators. *)
Theorem aggregate_keeps_column_sums (data : DataFrame) (agg : list AggRow)
    (Hagg : aggregate_data data ByArea = Ok agg) :
  sum64 (map parks_good agg) = sum64 (map (cell "parks_good") (rows data))
  /\ sum64 (map lighting_acceptable agg) = sum64 (map (cell "lighting_acceptable") (rows data))
  /\ sum64 (map parks_acceptable agg) = sum64 (map (cell "parks_acceptable") (rows data))
  /\ sum64 (map parks_exist agg) = sum64 (map (cell "parks_exist") (rows data))
  /\ sum64 (map parks_bad agg) = sum64 (map (cell "parks_bad") (rows data))
  /\ sum64 (map lighting_bad agg) = sum64 (map (cell "lighting_bad") (rows data))
  /\ sum64 (map total_score agg) =
     sum64 (map (fun r => cell "lighting_good" r + cell "parks_good" r
                          + cell "lighting_acceptable" r + cell "parks_acceptable" r)
                (rows data)).
Proof.
  apply aggregate_data_ok in Hagg as [_ [_ ->]].
  repeat (split; [apply agg_groups_sum; reflexivity|]).
  unfold agg_groups. rewrite map_map.
  rewrite (sum64_map_wrap _ _ _ (fun grp => total_score_group (fst grp) (snd grp))).
  rewrite sum64_exact. f_equal.
  rewrite <- (map_map (fun grp => map (fun r => cell "lighting_good" r + cell "parks_good" r
                                   + cell "lighting_acceptable" r
                                   + cell "parks_acceptable" r) (snd grp)) exact_sum).
  rewrite <- exact_sum_concat, <- (map_map snd (map _)), <- concat_map.
  apply exact_sum_perm, Permutation_map, groupby_perm.
Qed.

Lemma aggregate_keeps_column_sums_witness :
  sum64 (map total_score
           (agg_groups ByArea [cleaned_row "A1" "X" 1 0 1 0 1 0 0;
                               cleaned_row "B1" "Y" 0 1 0 0 0 1 1;
                               cleaned_row "A2" "X" 0 1 0 1 1 0 0])) = 5.
Proof.
  exact (proj2 (proj2 (proj2 (proj2 (proj2 (proj2
    (aggregate_keeps_column_sums
       (cleaned_table [cleaned_row "A1" "X" 1 0 1 0 1 0 0;
                       cleaned_row "B1" "Y" 0 1 0 0 0 1 1;
                       cleaned_row "A2" "X" 0 1 0 1 1 0 0]) _ eq_refl))))))).
Defined.

(** ** The top-N table and the detail view of a run *)

Section TopEntities.

Lemma top_entities_ok (df : DataFrame) (w : Widgets) (top : list AggRow) :
  top_entities df w = Ok top ->
  has_columns agg_sum_labels df = true
  /\ top = nlargest (num_top_entities w) normalized_score (agg_groups ByArea (rows df)).
Proof.
  intros H.
  destruct (has_columns agg_sum_labels df) eqn:Hcols.
  - split; [reflexivity|].
    destruct (rows df) as [|r rs] eqn:Hrows.
    + rewrite (top_entities_no_rows df w Hcols Hrows) in H. discriminate H.
    + rewrite (top_entities_with_rows df w Hcols) in H by (rewrite Hrows; discriminate).
      rewrite Hrows in H. injection H as <-. reflexivity.
  - unfold top_entities, grouped_df, aggregate_data in H. rewrite Hcols in H.
    discriminate H.
Qed.

Lemma top_entities_rows (df : DataFrame) (w : Widgets) (top : list AggRow) :
  top_entities df w = Ok top -> rows df <> [].
Proof.
  intros H Hrows.
  destruct (has_columns agg_sum_labels df) eqn:Hcols.
  - rewrite (top_entities_no_rows df w Hcols Hrows) in H. discriminate H.
  - unfold top_entities, grouped_df, aggregate_data in H. rewrite Hcols in H.
    discriminate H.
Qed.

Lemma nlargest_In {B} (score : B -> Q) n l x : In x (nlargest n score l) -> In x l.
Proof.
  intros Hx. destruct (nlargest_rest score n l) as [Hperm _].
  apply (Permutation_in _ Hperm). apply in_or_app. left. exact Hx.
Qed.

Lemma nlargest_NoDup_map {B} (score : B -> Q) (f : B -> string) n l :
  List.NoDup (map f l) -> List.NoDup (map f (nlargest n score l)).
Proof.
  intros Hnd. destruct (nlargest_rest score n l) as [Hperm _].
  apply (Permutation_map f), Permutation_sym in Hperm.
  apply (Permutation_NoDup Hperm) in Hnd. rewrite map_app in Hnd.
  exact (NoDup_app_remove_r _ _ Hnd).
Qed.

End TopEntities.

(** X7: the top-N table of a run holds aggregated rows of distinct areas of
    the whole table, each the aggregate of the rows of its area, in
    decreasing order of [normalized_score]; it has [min(n, areas)] rows. *)
Theorem top_entities_of_table (df : DataFrame) (w : Widgets) (top : list AggRow)
    (Htop : top_entities df w = Ok top) :
  List.NoDup (map group top)
  /\ (forall r, In r top ->
        r = agg_group (group r)
              (List.filter (fun x => String.eqb (Area x) (group r)) (rows df))
        /\ exists x, In x (rows df) /\ Area x = group r)
  /\ length top =
     Nat.min (Z.to_nat (num_top_entities w)) (length (unique (map Area (rows df))))
  /\ StronglySorted (above normalized_score) top.
Proof.
  apply top_entities_ok in Htop as [Hcols ->].
  split; [|split; [|split]].
  - apply nlargest_NoDup_map. rewrite agg_groups_keys. apply group_keys_NoDup.
  - intros r Hr. apply nlargest_In in Hr.
    assert (Hkey : In (group r) (map group (agg_groups ByArea (rows df))))
      by (apply in_map, Hr).
    rewrite agg_groups_keys in Hkey. apply group_keys_In in Hkey.
    split; [|exact Hkey].
    apply agg_groups_In in Hr as [k [members [-> [Hm _]]]].
    change (group (agg_group k members)) with k. f_equal. exact Hm.
  - rewrite nlargest_length. f_equal.
    rewrite <- (length_map group), agg_groups_keys. unfold group_keys.
    apply Permutation_length, sort_keys_perm.
  - apply nlargest_sorted.
Qed.

Lemma top_entities_of_table_witness :
  List.NoDup (map group
    (nlargest 1 normalized_score
       (agg_groups ByArea [cleaned_row "A1" "X" 1 0 1 0 1 0 0;
                           cleaned_row "B1" "Y" 0 1 0 0 0 1 1]))).
Proof.
  exact (proj1 (top_entities_of_table
    (cleaned_table [cleaned_row "A1" "X" 1 0 1 0 1 0 0;
                    cleaned_row "B1" "Y" 0 1 0 0 0 1 1])
    (mkWidgets [] 1 None []) _ eq_refl)).
Defined.

(** X8: when the selected entity is a (non-empty) name of the top-N table
    and every row of that area names its town, the detail block shows the
    lines of the aggregate of the rows of that area, then the towns of the
    area, each once, joined by [", "].  There is at least one town, and
    there are as many as the row's [town_count]. *)
Theorem detail_view_of_selected_area (df : DataFrame) (w : Widgets)
    (top : list AggRow) (name : string)
    (Htop : top_entities df w = Ok top)
    (Hsel : selected_entity w = Some name)
    (Hin : In name (map group top))
    (Hname : name <> "")
    (Hnamed : towns_named df name) :
  let members := List.filter (fun x => String.eqb (Area x) name) (rows df) in
  exists towns : list string,
    detail_section df top w =
      ([detail_view (agg_group name members); towns_line (String.concat ", " towns)], Ok tt)
    /\ town_count (agg_group name members) = Z.of_nat (length towns)
    /\ towns <> []
    /\ List.NoDup towns
    /\ (forall t, In t towns <->
                  exists r, In r (rows df) /\ Area r = name /\ Town r = Py.Str t).
Proof.
  intros members.
  destruct (first_match top name Hin)
    as [r [before [after [Hsplit [Hr [_ Hfilter]]]]]].
  assert (Hrtop : In r top) by (rewrite Hsplit; apply in_or_app; right; left; reflexivity).
  apply top_entities_ok in Htop as [_ Htop].
  assert (Hagg : In r (agg_groups ByArea (rows df)))
    by (rewrite Htop in Hrtop; exact (nlargest_In _ _ _ _ Hrtop)).
  apply agg_groups_In in Hagg as [k [ms [Hrk [Hm Hne]]]].
  assert (Hk : k = name) by (rewrite Hrk in Hr; exact Hr). subst k.
  assert (Hms : ms = members) by exact Hm. subst ms.
  assert (Hrow : entity_row top name = Ok r) by (unfold entity_row; rewrite Hfilter; reflexivity).
  assert (Hall : forall o, In o (map Town members) -> o <> Py.NaN).
  { intros o Ho. apply in_map_iff in Ho as [x [<- Hx]].
    apply filter_In in Hx as [Hx Ha]. apply String.eqb_eq in Ha. exact (Hnamed x Hx Ha). }
  exists (Py.strs (related_towns df name)).
  split; [|split; [|split; [|split]]].
  - rewrite (detail_section_found df top w name r Hsel Hname Hrow).
    rewrite (join_related_towns df name Hnamed), Hrk. reflexivity.
  - cbn [town_count agg_group]. apply nunique_unique.
  - intros Hnil. destruct members as [|x xs] eqn:Em; [contradiction|].
    assert (Hx : In (Town x) (related_towns df name)).
    { unfold related_towns. fold members. rewrite Em. apply unique_In. left. reflexivity. }
    destruct (Town x) as [t|] eqn:Et.
    + apply strs_In in Hx. rewrite Hnil in Hx. destruct Hx.
    + apply (Hall Py.NaN); [|reflexivity]. rewrite <- Et. left. reflexivity.
  - apply strs_NoDup, unique_NoDup.
  - intros t. rewrite strs_In. apply related_towns_In.
Qed.

Lemma detail_view_of_selected_area_witness :
  exists towns,
    detail_section
      (cleaned_table [cleaned_row "A1" "X" 1 0 1 0 1 0 0;
                      cleaned_row "B1" "Y" 0 1 0 0 0 1 1;
                      cleaned_row "A2" "X" 0 1 0 1 1 0 0])
      [mkAgg "X" 1 1 1 1 2 0 0 2 4 2; mkAgg "Y" 0 0 1 0 0 1 1 1 1 1]
      (mkWidgets [] 5 (Some "X") [])
    = ([detail_view
          (agg_group "X" [cleaned_row "A1" "X" 1 0 1 0 1 0 0;
                          cleaned_row "A2" "X" 0 1 0 1 1 0 0]);
        towns_line (String.concat ", " towns)], Ok tt)
    /\ towns <> [].
Proof.
  destruct (detail_view_of_selected_area
    (cleaned_table [cleaned_row "A1" "X" 1 0 1 0 1 0 0;
                    cleaned_row "B1" "Y" 0 1 0 0 0 1 1;
                    cleaned_row "A2" "X" 0 1 0 1 1 0 0])
    (mkWidgets [] 5 (Some "X") [])
    [mkAgg "X" 1 1 1 1 2 0 0 2 4 2; mkAgg "Y" 0 0 1 0 0 1 1 1 1 1]
    "X" eq_refl eq_refl ltac:(simpl; auto) ltac:(discriminate)
    ltac:(intros r Hr _; simpl in Hr; destruct Hr as [<-|[<-|[<-|[]]]]; discriminate))
    as [towns [Hrun [_ [Hne _]]]].
  exists towns. split; [exact Hrun|exact Hne].
Defined.

(** ** The area filter and the stacked bar charts *)

(** X9: the area filter keeps exactly the rows whose area is selected, in
    their order and with the same columns; with the default selection, all
    the areas of the table, it returns the table. *)
Theorem filtered_df_rows (df : DataFrame) (w : Widgets) :
  numeric_columns (filtered_df df w) = numeric_columns df
  /\ (forall r, In r (rows (filtered_df df w)) <->
                In r (rows df) /\ In (Area r) (selected_areas w))
  /\ sublist (rows (filtered_df df w)) (rows df)
  /\ (selected_areas w = unique (map Area (rows df)) -> filtered_df df w = df).
Proof.
  split; [reflexivity|]. split; [|split].
  - intros r. apply filtered_df_In.
  - apply filter_sublist.
  - intros Hsel. unfold filtered_df, select_rows. rewrite filter_all.
    + destruct df; reflexivity.
    + intros r Hr. apply isin_In. rewrite Hsel. apply unique_In, in_map, Hr.
Qed.



(** ** The pie-chart builder: slices, positions, failure *)

Section PieBuilder.

Variable filtered_data : DataFrame.

Lemma area_in_columns : bool_decide ("Area" ∈ columns filtered_data) = true.
Proof. apply bool_decide_eq_true_2. unfold columns. apply elem_of_cons. left. reflexivity. Qed.

Lemma pie_for_area j : pie_for filtered_data j "Area" = Raise ValueError.
Proof. unfold pie_for. rewrite area_in_columns. reflexivity. Qed.

Lemma pie_for_other j var :
  var <> "Area" -> exists p, pie_for filtered_data j var = Ok p.
Proof.
  intros Hvar. unfold pie_for.
  destruct (bool_decide (var ∈ columns filtered_data)); [|eexists; reflexivity].
  rewrite (proj2 (String.eqb_neq _ _) Hvar).
  destruct (String.eqb var "Town"); eexists; reflexivity.
Qed.

Lemma pie_for_col j var p :
  pie_for filtered_data j var = Ok (Some p) -> pie_col p = (j + 1)%nat.
Proof.
  unfold pie_for.
  destruct (bool_decide (var ∈ columns filtered_data)); [|discriminate].
  destruct (String.eqb var "Area"); [discriminate|].
  destruct (String.eqb var "Town"); intros H; injection H as <-; reflexivity.
Qed.

(** A chunk fails exactly when it asks for [Area]. *)
Lemma add_pies_outcome chunk : forall j,
  (In "Area" chunk -> add_pies filtered_data j chunk = Raise ValueError)
  /\ (~ In "Area" chunk -> exists pies, add_pies filtered_data j chunk = Ok pies).
Proof.
  induction chunk as [|var chunk IH]; intros j.
  - split; [intros []|]. intros _. exists []. reflexivity.
  - destruct (IH (S j)) as [IHraise IHok]. simpl add_pies.
    destruct (string_dec var "Area") as [->|Hvar].
    + split; [|intros H; destruct H; left; reflexivity].
      intros _. rewrite pie_for_area. reflexivity.
    + destruct (pie_for_other j var Hvar) as [p Hp]. rewrite Hp. split.
      * intros [H|H]; [congruence|]. rewrite (IHraise H). reflexivity.
      * intros H. destruct IHok as [pies Hpies]; [intros H'; apply H; right; exact H'|].
        rewrite Hpies. eexists. reflexivity.
Qed.

(** The pies of a chunk sit at increasing positions, counted from [j + 1]. *)
Lemma add_pies_cols chunk : forall j pies,
  add_pies filtered_data j chunk = Ok pies ->
  sublist (map pie_col pies) (seq (j + 1) (length chunk)).
Proof.
  induction chunk as [|var chunk IH]; intros j pies; simpl add_pies.
  - intros H. injection H as <-. constructor.
  - destruct (pie_for filtered_data j var) as [p|e] eqn:Ep; [|discriminate].
    destruct (add_pies filtered_data (S j) chunk) as [ps|e] eqn:Eps; [|discriminate].
    intros H. injection H as <-. simpl seq.
    specialize (IH (S j) ps Eps). replace (S j + 1)%nat with (S (j + 1)) in IH by lia.
    destruct p as [p|]; simpl.
    + rewrite (pie_for_col _ _ _ Ep). apply sublist_skip, IH.
    + apply sublist_cons, IH.
Qed.

Lemma pie_figure_outcome chunk :
  pie_figure filtered_data chunk =
  match add_pies filtered_data 0 chunk with
  | Ok pies => ([plotly_chart (PieGrid pies)], Ok tt)
  | Raise e => ([], Raise e)
  end.
Proof. unfold pie_figure. destruct (add_pies filtered_data 0 chunk); reflexivity. Qed.

Lemma for_each_cons {B} (x : B) (xs : list B) (body : B -> UI unit) :
  for_each (x :: xs) body = ui_bind (body x) (fun _ => for_each xs body).
Proof. reflexivity. Qed.

(** The figures of a run of the outer loop. *)
Lemma for_each_figures (chunks : list (list string)) (shown : list element) :
  for_each chunks (pie_figure filtered_data) = (shown, Ok tt) ->
  Forall2 (fun e chunk =>
             exists pies, e = plotly_chart (PieGrid pies)
                          /\ add_pies filtered_data 0 chunk = Ok pies)
          shown chunks.
Proof.
  revert shown. induction chunks as [|chunk chunks IH]; intros shown.
  - intros H. injection H as <-. constructor.
  - rewrite for_each_cons, pie_figure_outcome.
    destruct (add_pies filtered_data 0 chunk) as [pies|e] eqn:Epies; [|discriminate].
    rewrite ui_bind_ok.
    destruct (for_each chunks (pie_figure filtered_data)) as [rest [[]|e]] eqn:Erest;
      [|discriminate].
    intros H. injection H as <-. constructor; [exists pies; auto|].
    apply IH. reflexivity.
Qed.

Lemma for_each_raises (chunks : list (list string)) :
  (exists chunk, In chunk chunks /\ In "Area" chunk) ->
  snd (for_each chunks (pie_figure filtered_data)) = Raise ValueError
  /\ (length (fst (for_each chunks (pie_figure filtered_data))) < length chunks)%nat.
Proof.
  induction chunks as [|chunk chunks IH]; intros [c [Hc Harea]]; [destruct Hc|].
  rewrite for_each_cons, pie_figure_outcome.
  destruct (add_pies_outcome chunk 0%nat) as [Hraise Hok].
  destruct (in_dec string_dec "Area" chunk) as [Hin|Hout].
  - rewrite (Hraise Hin). simpl. split; [reflexivity|lia].
  - destruct (Hok Hout) as [pies Hpies]. rewrite Hpies.
    destruct Hc as [->|Hc]; [contradiction|].
    destruct IH as [IH1 IH2]; [exists c; auto|].
    rewrite ui_bind_ok. simpl.
    split; [exact IH1|lia].
Qed.

Lemma grouped_sum_total (label : string) (rs : list Row) :
  sum64 (map snd (grouped_sum label rs)) = sum64 (map (cell label) rs).
Proof.
  unfold grouped_sum. rewrite map_map. simpl.
  rewrite <- (map_map (fun g => map (cell label) (snd g)) sum64).
  rewrite sum64_concat, <- (map_map snd (map (cell label))), <- concat_map.
  apply sum64_perm, Permutation_map, groupby_perm.
Qed.

End PieBuilder.

Lemma chunks2_In (l : list string) (chunk : list string) :
  In chunk (chunks2 l) -> (1 <= length chunk <= 2)%nat.
Proof.
  assert (H : (In chunk (chunks2 l) -> (1 <= length chunk <= 2)%nat)
              /\ (forall x, In chunk (chunks2 (x :: l)) -> (1 <= length chunk <= 2)%nat)).
  { induction l as [|y l [IH1 IH2]].
    - split; [intros []|]. intros x [<-|[]]. simpl. lia.
    - split; [apply IH2|]. intros x [<-|Hin]; [simpl; lia|]. apply IH1, Hin. }
  exact (proj1 H).
Qed.

(** X11: a pie the builder draws for a column other than [Town] has one
    slice per selected area that occurs in the table, each area once, and
    its values add up to the column's sum over the rows of the selected
    areas. *)
Theorem pie_slices (data : DataFrame) (areas : list string) (j : nat)
    (var : string) (p : Pie)
    (Hpie : pie_for (select_rows (fun r => isin areas (Area r)) data) j var = Ok (Some p))
    (Hvar : var <> "Town") :
  exists values,
    pie_values p = IntValues values
    /\ length values = length (pie_names p)
    /\ List.NoDup (pie_names p)
    /\ (forall a, In a (pie_names p) <->
                  In a areas /\ exists r, In r (rows data) /\ Area r = a)
    /\ sum64 values =
       sum64 (map (cell var) (List.filter (fun r => isin areas (Area r)) (rows data))).
Proof.
  unfold pie_for in Hpie.
  destruct (bool_decide (var ∈ columns _)); [|discriminate Hpie].
  destruct (String.eqb var "Area"); [discriminate Hpie|].
  rewrite (proj2 (String.eqb_neq _ _) Hvar) in Hpie. injection Hpie as <-. simpl.
  eexists. split; [reflexivity|]. split; [rewrite !length_map; reflexivity|].
  assert (Hkeys : map fst (grouped_sum var (List.filter (fun r => isin areas (Area r)) (rows data)))
                  = group_keys Area (List.filter (fun r => isin areas (Area r)) (rows data))).
  { unfold grouped_sum, groupby. rewrite !map_map. simpl. apply map_id. }
  rewrite Hkeys. split; [apply group_keys_NoDup|]. split; [|apply grouped_sum_total].
  intros a. rewrite group_keys_In. split.
  - intros [r [Hr Ha]]. apply filter_In in Hr as [Hr Hsel]. apply isin_In in Hsel.
    split; [congruence|]. exists r. auto.
  - intros [Hsel [r [Hr Ha]]]. exists r. split; [|exact Ha].
    apply filter_In. split; [exact Hr|]. apply isin_In. congruence.
Qed.

Lemma pie_slices_witness :
  exists values,
    IntValues [1; 0] = IntValues values /\ sum64 values = 1.
Proof.
  destruct (pie_slices
    (cleaned_table [cleaned_row "A1" "X" 1 0 1 0 1 0 0;
                    cleaned_row "B1" "Y" 0 1 0 0 0 1 1])
    ["X"; "Y"] 0 "lighting_good"
    (mkPie 1 ["X"; "Y"] (IntValues [1; 0]) "Proportion of Lighting Good")
    eq_refl ltac:(discriminate)) as [values [Hv [_ [_ [_ Hsum]]]]].
  exists values. split; [exact Hv|exact Hsum].
Defined.

(** X12: when [Area] is among the requested variables, the builder raises
    [ValueError] and does not send all its figures to the page. *)
Theorem pie_charts_area_variable (data : DataFrame) (variables areas : list string)
    (Harea : In "Area" variables) :
  snd (create_binary_pie_charts data variables areas) = Raise ValueError
  /\ (length (fst (create_binary_pie_charts data variables areas))
      < (length variables + 1) / 2)%nat.
Proof.
  unfold create_binary_pie_charts. rewrite <- chunks2_length.
  apply for_each_raises.
  rewrite <- (chunks2_concat variables) in Harea.
  apply in_concat in Harea as [chunk [Hchunk Hin]]. exists chunk. auto.
Qed.

Lemma pie_charts_area_variable_witness :
  In "Area" ["lighting_good"; "parks_good"; "Area"]
  /\ snd (create_binary_pie_charts
            (cleaned_table [cleaned_row "A1" "X" 1 0 1 0 1 0 0])
            ["lighting_good"; "parks_good"; "Area"] ["X"]) = Raise ValueError.
Proof.
  assert (Harea : In "Area" ["lighting_good"; "parks_good"; "Area"]) by (simpl; tauto).
  split; [exact Harea|].
  exact (proj1 (pie_charts_area_variable
    (cleaned_table [cleaned_row "A1" "X" 1 0 1 0 1 0 0])
    ["lighting_good"; "parks_good"; "Area"] ["X"] Harea)).
Defined.

(** X13: in every figure the builder sends to the page the pies sit in
    column 1, column 2 or both, in that order: at most two pies a figure,
    and a skipped variable leaves its column empty. *)
Theorem pie_positions (data : DataFrame) (variables areas : list string)
    (shown : list element)
    (Hrun : create_binary_pie_charts data variables areas = (shown, Ok tt)) :
  length shown = ((length variables + 1) / 2)%nat
  /\ forall e, In e shown ->
       exists pies, e = plotly_chart (PieGrid pies)
                    /\ sublist (map pie_col pies) [1; 2]%nat.
Proof.
  unfold create_binary_pie_charts in Hrun. apply for_each_figures in Hrun.
  split.
  - rewrite (Forall2_length _ _ _ Hrun). apply chunks2_length.
  - intros e He.
    assert (Hall : List.Forall (fun chunk => (1 <= length chunk <= 2)%nat) (chunks2 variables))
      by (apply List.Forall_forall; intros c Hc; exact (chunks2_In _ _ Hc)).
    clear -Hrun Hall He. induction Hrun as [|e' chunk shown' chunks [pies [-> Hpies]] _ IH].
    + destruct He.
    + apply List.Forall_cons_iff in Hall as [Hlen Hall].
      destruct He as [<-|He]; [|exact (IH He Hall)].
      exists pies. split; [reflexivity|].
      apply add_pies_cols in Hpies. simpl in Hpies.
      destruct chunk as [|x [|y [|z chunk]]]; simpl in Hlen, Hpies; try lia.
      * etransitivity; [exact Hpies|]. apply sublist_skip, sublist_cons, sublist_nil.
      * exact Hpies.
Qed.

Lemma pie_positions_witness :
  length [plotly_chart (PieGrid [mkPie 2 ["X"] (IntValues [1]) "Proportion of Lighting Good"])]
  = ((length ["footpaths"; "lighting_good"] + 1) / 2)%nat.
Proof.
  exact (proj1 (pie_positions
    (cleaned_table [cleaned_row "A1" "X" 1 0 1 0 1 0 0])
    ["footpaths"; "lighting_good"] ["X"] _ eq_refl)).
Defined.

(** ** A whole run *)

Section Run.

Variables (df : DataFrame) (w : Widgets).

Lemma groupby_sum_outcome (labels : list string) :
  groupby_sum labels (filtered_df df w) =
  if has_columns labels df
  then Ok (map (fun g => (fst g,
                          list_to_map (map (fun c => (c, sum64 (map (cell c) (snd g)))) labels)))
               (groupby Area (rows (filtered_df df w))))
  else Raise KeyError.
Proof. reflexivity. Qed.

Lemma pie_for_present (fd : DataFrame) j var :
  var <> "Area" -> var <> "Town" -> In var (numeric_columns fd) ->
  exists p, pie_for fd j var = Ok (Some p) /\ pie_col p = (j + 1)%nat.
Proof.
  intros Harea Htown Hin. unfold pie_for.
  rewrite bool_decide_eq_true_2.
  - rewrite (proj2 (String.eqb_neq _ _) Harea), (proj2 (String.eqb_neq _ _) Htown).
    eexists. split; reflexivity.
  - unfold columns. apply elem_of_cons. right. apply elem_of_cons. right.
    apply list_elem_of_In, Hin.
Qed.

(** With all seven indicator columns, the comparison block draws four
    figures: three of two pies and one of a single pie. *)
Lemma binary_pie_charts_of_table (areas : list string) :
  has_columns binary_vars df = true ->
  exists figs,
    create_binary_pie_charts df binary_vars areas =
      (map (fun pies => plotly_chart (PieGrid pies)) figs, Ok tt)
    /\ map (map pie_col) figs = [[1; 2]; [1; 2]; [1; 2]; [1]]%nat.
Proof.
  intros Hcols. pose proof (proj1 (has_columns_spec _ _) Hcols) as Hin.
  unfold create_binary_pie_charts.
  set (fd := select_rows (fun r => isin areas (Area r)) df).
  assert (Hpie : forall j var, In var binary_vars ->
            exists p, pie_for fd j var = Ok (Some p) /\ pie_col p = (j + 1)%nat).
  { intros j var Hvar. apply pie_for_present.
    - intros ->. simpl in Hvar. intuition discriminate.
    - intros ->. simpl in Hvar. intuition discriminate.
    - apply Hin, Hvar. }
  destruct (Hpie 0%nat "parks_exist" ltac:(simpl; tauto)) as [p1 [H1 C1]].
  destruct (Hpie 1%nat "parks_bad" ltac:(simpl; tauto)) as [p2 [H2 C2]].
  destruct (Hpie 0%nat "lighting_bad" ltac:(simpl; tauto)) as [p3 [H3 C3]].
  destruct (Hpie 1%nat "lighting_acceptable" ltac:(simpl; tauto)) as [p4 [H4 C4]].
  destruct (Hpie 0%nat "lighting_good" ltac:(simpl; tauto)) as [p5 [H5 C5]].
  destruct (Hpie 1%nat "parks_good" ltac:(simpl; tauto)) as [p6 [H6 C6]].
  destruct (Hpie 0%nat "parks_acceptable" ltac:(simpl; tauto)) as [p7 [H7 C7]].
  exists [[p1; p2]; [p3; p4]; [p5; p6]; [p7]]. split.
  - unfold binary_vars. simpl chunks2.
    rewrite !for_each_cons, !pie_figure_outcome. simpl add_pies.
    rewrite H1, H2, H3, H4, H5, H6, H7. reflexivity.
  - simpl. rewrite C1, C2, C3, C4, C5, C6, C7. reflexivity.
Qed.

End Run.

(** X14: on a table with all seven indicator columns and at least one row
    a run ends without an exception, for any selection of areas and any
    [n], when the selected entity is a value of the select box and the rows
    of its area name their towns.  The page shows the two stacked bar
    charts and the ranked bar chart of the top-N table, then the detail
    view with the towns of the selected area (or nothing), then either the
    warning (no area chosen for comparison) or four pie figures, with 2, 2,
    2 and 1 pies, and the raw rows of the chosen areas. *)
Theorem app_completes (df : DataFrame) (w : Widgets) (top : list AggRow)
    (Hcols : has_columns binary_vars df = true)
    (Htop : top_entities df w = Ok top)
    (Hbox : selectbox_value (map group top) (selected_entity w))
    (Hnamed : forall name, selected_entity w = Some name -> name <> "" ->
                           towns_named df name) :
  exists lighting parks detail_part comparison_part,
    rows df <> []
    /\ lighting_data df w = Ok lighting
    /\ parks_data df w = Ok parks
    /\ app df w =
       ([plotly_chart (create_stacked_bar_chart lighting
            ["lighting_bad"; "lighting_acceptable"; "lighting_good"]
            "Lighting Conditions by Area" ["#FF9999"; "#FFD700"; "#90EE90"]);
         plotly_chart (create_stacked_bar_chart parks
            ["parks_bad"; "parks_acceptable"; "parks_good"]
            "Park Conditions by Area" ["#FF6B6B"; "#FFA07A"; "#98FB98"]);
         plotly_chart (RankedBar (map group top) (map normalized_score top))]
        ++ detail_part ++ comparison_part, Ok tt)%list
    /\ (detail_part = []
        \/ exists entity joined, detail_part = [detail_view entity; towns_line joined])
    /\ (comparison_areas w = [] -> comparison_part = [warning no_area_warning])
    /\ (comparison_areas w <> [] ->
        exists figs,
          comparison_part =
            (map (fun pies => plotly_chart (PieGrid pies)) figs
             ++ [raw_table (List.filter (fun r => isin (comparison_areas w) (Area r))
                              (rows df))])%list
          /\ map (map pie_col) figs = [[1; 2]; [1; 2]; [1; 2]; [1]]%nat).
Proof.
  assert (Hl : has_columns ["lighting_bad"; "lighting_acceptable"; "lighting_good"] df = true).
  { apply (has_columns_incl _ binary_vars df); [|exact Hcols].
    unfold binary_vars. simpl. tauto. }
  assert (Hp : has_columns ["parks_bad"; "parks_acceptable"; "parks_good"] df = true).
  { apply (has_columns_incl _ binary_vars df); [|exact Hcols].
    unfold binary_vars. simpl. tauto. }
  eexists. eexists.
  destruct (detail_section_runs df top w Hbox Hnamed) as [detail_part [Hdrun [Hdshape _]]].
  assert (Hcmp : exists comparison_part,
            comparison_section df w = (comparison_part, Ok tt)
            /\ (comparison_areas w = [] -> comparison_part = [warning no_area_warning])
            /\ (comparison_areas w <> [] ->
                exists figs,
                  comparison_part =
                    (map (fun pies => plotly_chart (PieGrid pies)) figs
                     ++ [raw_table (List.filter (fun r => isin (comparison_areas w) (Area r))
                                      (rows df))])%list
                  /\ map (map pie_col) figs = [[1; 2]; [1; 2]; [1; 2]; [1]]%nat)).
  { unfold comparison_section.
    destruct (comparison_areas w) as [|a areas] eqn:Ecmp.
    - eexists. split; [reflexivity|]. split; [reflexivity|]. intros H. destruct H. reflexivity.
    - destruct (binary_pie_charts_of_table df (a :: areas) Hcols) as [figs [Hrun Hpos]].
      rewrite Hrun, Hcols. eexists. split; [reflexivity|].
      split; [discriminate|]. intros _. exists figs. simpl. split; [reflexivity|exact Hpos]. }
  destruct Hcmp as [comparison_part [Hcrun [Hcempty Hcfigs]]].
  exists detail_part, comparison_part.
  split; [exact (top_entities_rows df w top Htop)|].
  split; [unfold lighting_data; rewrite groupby_sum_outcome, Hl; reflexivity|].
  split; [unfold parks_data; rewrite groupby_sum_outcome, Hp; reflexivity|].
  split; [|split; [exact Hdshape|split; [exact Hcempty|exact Hcfigs]]].
  erewrite app_runs;
    [|unfold lighting_data; rewrite groupby_sum_outcome, Hl; reflexivity
     |unfold parks_data; rewrite groupby_sum_outcome, Hp; reflexivity
     |exact Htop].
  rewrite ui_bind_ok, Hdrun, ui_bind_ok, Hcrun. simpl. reflexivity.
Qed.

Lemma app_completes_witness :
  snd (app (cleaned_table [cleaned_row "A1" "X" 1 0 1 0 1 0 0;
                           cleaned_row "B1" "Y" 0 1 0 0 0 1 1])
           (mkWidgets ["X"] 5 (Some "Y") ["Y"])) = Ok tt.
Proof.
  destruct (app_completes
    (cleaned_table [cleaned_row "A1" "X" 1 0 1 0 1 0 0;
                    cleaned_row "B1" "Y" 0 1 0 0 0 1 1])
    (mkWidgets ["X"] 5 (Some "Y") ["Y"])
    [mkAgg "X" 1 1 0 0 1 0 0 1 2 2; mkAgg "Y" 0 0 1 0 0 1 1 1 1 1]
    eq_refl eq_refl ltac:(simpl; tauto)
    ltac:(intros name _ _ r Hr _; simpl in Hr; destruct Hr as [<-|[<-|[]]]; discriminate))
    as [lighting [parks [detail_part [comparison_part [_ [_ [_ [Hrun _]]]]]]]].
  rewrite Hrun. reflexivity.
Defined.

(** X20: on a table without rows, as [load_data] returns it for a file
    that has the header only, a run shows the two stacked bar charts,
    without bars, and stops with [TypeError]: the score column is of dtype
    object and [nlargest] refuses it. *)
Theorem app_no_rows (df : DataFrame) (w : Widgets)
    (Hcols : has_columns binary_vars df = true)
    (Hrows : rows df = []) :
  top_entities df w = Raise TypeError
  /\ app df w =
     ([plotly_chart
         (StackedBar "Lighting Conditions by Area"
            [mkBar [] [] "Lighting Bad" "#FF9999";
             mkBar [] [] "Lighting Acceptable" "#FFD700";
             mkBar [] [] "Lighting Good" "#90EE90"]);
       plotly_chart
         (StackedBar "Park Conditions by Area"
            [mkBar [] [] "Parks Bad" "#FF6B6B";
             mkBar [] [] "Parks Acceptable" "#FFA07A";
             mkBar [] [] "Parks Good" "#98FB98"])],
      Raise TypeError).
Proof.
  assert (Hagg : has_columns agg_sum_labels df = true).
  { apply (has_columns_incl _ binary_vars df); [|exact Hcols].
    unfold binary_vars, agg_sum_labels. simpl. tauto. }
  assert (Hl : has_columns ["lighting_bad"; "lighting_acceptable"; "lighting_good"] df = true).
  { apply (has_columns_incl _ binary_vars df); [|exact Hcols].
    unfold binary_vars. simpl. tauto. }
  assert (Hp : has_columns ["parks_bad"; "parks_acceptable"; "parks_good"] df = true).
  { apply (has_columns_incl _ binary_vars df); [|exact Hcols].
    unfold binary_vars. simpl. tauto. }
  assert (Hnone : rows (filtered_df df w) = []).
  { unfold filtered_df, select_rows. cbn [rows]. rewrite Hrows. reflexivity. }
  assert (Htop : top_entities df w = Raise TypeError)
    by (apply top_entities_no_rows; assumption).
  split; [exact Htop|].
  unfold app. unfold lighting_data, parks_data.
  rewrite !groupby_sum_outcome, Hl, Hp, Hnone, Htop. reflexivity.
Qed.

Lemma app_no_rows_witness :
  top_entities (cleaned_table []) (mkWidgets [] 10 None []) = Raise TypeError.
Proof.
  exact (proj1 (app_no_rows (cleaned_table []) (mkWidgets [] 10 None []) eq_refl eq_refl)).
Defined.

(** X21: when the selected entity is a name of the top-N table and a row
    of that area has no town, the detail block writes the lines of the row
    and then stops with [TypeError] at the [join] of the towns; so does the
    run, before the comparison block and the warning. *)
Theorem detail_missing_town (df : DataFrame) (w : Widgets)
    (top : list AggRow) (name : string) (x : Row)
    (Htop : top_entities df w = Ok top)
    (Hsel : selected_entity w = Some name)
    (Hin : In name (map group top))
    (Hname : name <> "")
    (Hx : In x (rows df))
    (Harea : Area x = name)
    (Hmissing : Town x = Py.NaN) :
  exists entity,
    detail_section df top w = ([detail_view entity], Raise TypeError)
    /\ group entity = name
    /\ snd (app df w) = Raise TypeError
    /\ (forall msg, ~ In (warning msg) (fst (app df w)))
    /\ (forall rs, ~ In (raw_table rs) (fst (app df w))).
Proof.
  destruct (entity_row_first top name Hin) as [r [Hrow Hr]].
  assert (Hjoin : join ", " (related_towns df name) = Raise TypeError).
  { apply join_nan, related_towns_In. exists x. auto. }
  assert (Hdetail : detail_section df top w = ([detail_view r], Raise TypeError)).
  { rewrite (detail_section_found df top w name r Hsel Hname Hrow), Hjoin. reflexivity. }
  exists r. split; [exact Hdetail|]. split; [exact Hr|].
  pose proof (top_entities_ok df w top Htop) as [Hcols _].
  assert (Hl : has_columns ["lighting_bad"; "lighting_acceptable"; "lighting_good"] df = true).
  { apply (has_columns_incl _ agg_sum_labels df); [|exact Hcols].
    unfold agg_sum_labels. simpl. tauto. }
  assert (Hp : has_columns ["parks_bad"; "parks_acceptable"; "parks_good"] df = true).
  { apply (has_columns_incl _ agg_sum_labels df); [|exact Hcols].
    unfold agg_sum_labels. simpl. tauto. }
  erewrite app_runs;
    [|unfold lighting_data; rewrite groupby_sum_outcome, Hl; reflexivity
     |unfold parks_data; rewrite groupby_sum_outcome, Hp; reflexivity
     |exact Htop].
  rewrite ui_bind_ok, Hdetail. cbn [ui_bind fst snd].
  split; [reflexivity|]. split.
  - intros msg H. apply in_app_or in H as [H|[H|[]]]; [|discriminate H].
    destruct H as [H|[H|[H|[]]]]; discriminate H.
  - intros rs H. apply in_app_or in H as [H|[H|[]]]; [|discriminate H].
    destruct H as [H|[H|[H|[]]]]; discriminate H.
Qed.

Lemma detail_missing_town_witness :
  exists entity,
    detail_section
      (cleaned_table [cleaned_row "A1" "X" 1 0 1 0 1 0 0;
                      unnamed_row "X" 0 1 0 1 1 0 0])
      [mkAgg "X" 1 1 1 1 2 0 0 1 4 4]
      (mkWidgets [] 5 (Some "X") ["X"])
    = ([detail_view entity], Raise TypeError).
Proof.
  destruct (detail_missing_town
    (cleaned_table [cleaned_row "A1" "X" 1 0 1 0 1 0 0;
                    unnamed_row "X" 0 1 0 1 1 0 0])
    (mkWidgets [] 5 (Some "X") ["X"])
    [mkAgg "X" 1 1 1 1 2 0 0 1 4 4] "X" (unnamed_row "X" 0 1 0 1 1 0 0)
    eq_refl eq_refl ltac:(simpl; auto) ltac:(discriminate)
    ltac:(simpl; auto) eq_refl eq_refl)
    as [entity [Hrun _]].
  exists entity. exact Hrun.
Defined.

(** X15: on a table that lacks one of the seven indicator columns a run
    stops with [KeyError]: before anything is shown when the column is one
    of the six lighting and park condition columns, and after the two
    stacked bar charts otherwise (the missing column is [parks_exist]). *)
Theorem app_missing_column (df : DataFrame) (w : Widgets)
    (Hmissing : has_columns binary_vars df = false) :
  (has_columns ["lighting_bad"; "lighting_acceptable"; "lighting_good";
                "parks_bad"; "parks_acceptable"; "parks_good"] df = false ->
   app df w = ([], Raise KeyError))
  /\ (has_columns ["lighting_bad"; "lighting_acceptable"; "lighting_good";
                   "parks_bad"; "parks_acceptable"; "parks_good"] df = true ->
      exists lighting parks,
        lighting_data df w = Ok lighting
        /\ parks_data df w = Ok parks
        /\ app df w =
           ([plotly_chart (create_stacked_bar_chart lighting
                ["lighting_bad"; "lighting_acceptable"; "lighting_good"]
                "Lighting Conditions by Area" ["#FF9999"; "#FFD700"; "#90EE90"]);
             plotly_chart (create_stacked_bar_chart parks
                ["parks_bad"; "parks_acceptable"; "parks_good"]
                "Park Conditions by Area" ["#FF6B6B"; "#FFA07A"; "#98FB98"])],
            Raise KeyError)).
Proof.
  split.
  - intros Hsix. unfold app, lighting_data, parks_data.
    rewrite !groupby_sum_outcome.
    destruct (has_columns ["lighting_bad"; "lighting_acceptable"; "lighting_good"] df) eqn:El;
      [|reflexivity].
    destruct (has_columns ["parks_bad"; "parks_acceptable"; "parks_good"] df) eqn:Ep;
      [|reflexivity].
    exfalso.
    assert (H : has_columns ["lighting_bad"; "lighting_acceptable"; "lighting_good";
                             "parks_bad"; "parks_acceptable"; "parks_good"] df = true).
    { apply has_columns_spec. intros label Hl.
      pose proof (proj1 (has_columns_spec _ _) El label) as H1.
      pose proof (proj1 (has_columns_spec _ _) Ep label) as H2.
      simpl in Hl, H1, H2. tauto. }
    congruence.
  - intros Hsix.
    assert (Hl : has_columns ["lighting_bad"; "lighting_acceptable"; "lighting_good"] df = true).
    { apply (has_columns_incl _ _ df) with (2 := Hsix). simpl. tauto. }
    assert (Hp : has_columns ["parks_bad"; "parks_acceptable"; "parks_good"] df = true).
    { apply (has_columns_incl _ _ df) with (2 := Hsix). simpl. tauto. }
    assert (Hagg : has_columns agg_sum_labels df = false).
    { destruct (has_columns agg_sum_labels df) eqn:E; [|reflexivity].
      rewrite (has_columns_incl binary_vars agg_sum_labels df) in Hmissing;
        [discriminate Hmissing| |exact E].
      unfold binary_vars, agg_sum_labels. simpl. tauto. }
    eexists. eexists.
    split; [unfold lighting_data; rewrite groupby_sum_outcome, Hl; reflexivity|].
    split; [unfold parks_data; rewrite groupby_sum_outcome, Hp; reflexivity|].
    unfold app, lighting_data, parks_data, top_entities, grouped_df, aggregate_data.
    rewrite !groupby_sum_outcome, Hl, Hp, Hagg. reflexivity.
Qed.

Lemma app_missing_column_witness :
  app (mkFrame ["lighting_good"; "parks_good"]
               [mkRow "A1" "X" (list_to_map [("lighting_good", 1); ("parks_good", 0)])])
      (mkWidgets ["X"] 5 None ["X"]) = ([], Raise KeyError).
Proof.
  exact (proj1 (app_missing_column
    (mkFrame ["lighting_good"; "parks_good"]
             [mkRow "A1" "X" (list_to_map [("lighting_good", 1); ("parks_good", 0)])])
    (mkWidgets ["X"] 5 None ["X"]) eq_refl) eq_refl).
Defined.

(** ** [load_data] *)

Import Load.

Section LoadRows.

Lemma bool_decide_In (x : string) (l : list string) :
  bool_decide (x ∈ l) = true <-> In x l.
Proof.
  rewrite <- list_elem_of_In. split.
  - apply bool_decide_eq_true_1.
  - apply bool_decide_eq_true_2.
Qed.

Lemma bool_decide_not_In (x : string) (l : list string) :
  ~ In x l -> bool_decide (x ∈ l) = false.
Proof.
  intros H. apply bool_decide_eq_false_2. rewrite list_elem_of_In. exact H.
Qed.

(** Dropping other columns does not change a cell. *)
Lemma get_filter (keep : string -> bool) (label : string) (row : list (string * Cell)) :
  keep label = true ->
  get label (List.filter (fun c => keep (fst c)) row) = get label row.
Proof.
  intros Hkeep. unfold get. induction row as [|c row IH]; [reflexivity|]. simpl.
  destruct (String.eqb_spec (fst c) label) as [Heq|Hne].
  - rewrite Heq, Hkeep. simpl. rewrite Heq, String.eqb_refl. reflexivity.
  - destruct (keep (fst c)); [simpl|exact IH].
    rewrite (proj2 (String.eqb_neq _ _) Hne). exact IH.
Qed.

(** Renaming labels does not change a cell, unless two labels get one name. *)
Lemma get_relabel (f : string -> string) (label : string) (row : list (string * Cell)) :
  (forall c, In c row -> f (fst c) = f label -> fst c = label) ->
  get (f label) (map (fun c => (f (fst c), snd c)) row) = get label row.
Proof.
  unfold get. induction row as [|c row IH]; intros Hinj; [reflexivity|]. simpl.
  destruct (String.eqb_spec (fst c) label) as [Heq|Hne].
  - rewrite Heq, String.eqb_refl. reflexivity.
  - destruct (String.eqb_spec (f (fst c)) (f label)) as [Hf|Hf].
    + destruct (Hne (Hinj c (or_introl eq_refl) Hf)).
    + apply IH. intros c' Hc'. apply Hinj. right. exact Hc'.
Qed.

Lemma get_set_cell_eq (label : string) (value : Cell) (row : list (string * Cell)) :
  get label (set_cell label value row) = value.
Proof.
  unfold set_cell, get.
  destruct (existsb (fun c => String.eqb (fst c) label) row) eqn:E.
  - induction row as [|c row IH]; [discriminate E|]. simpl in E |- *.
    destruct (String.eqb (fst c) label) eqn:Ec.
    + simpl. rewrite String.eqb_refl. reflexivity.
    + simpl. rewrite Ec. apply IH. exact E.
  - induction row as [|c row IH]; simpl.
    + rewrite String.eqb_refl. reflexivity.
    + simpl in E. apply orb_false_iff in E as [Ec E]. rewrite Ec. apply IH, E.
Qed.

Lemma get_set_cell_ne (label other : string) (value : Cell) (row : list (string * Cell)) :
  other <> label -> get other (set_cell label value row) = get other row.
Proof.
  intros Hne. unfold set_cell, get.
  destruct (existsb (fun c => String.eqb (fst c) label) row).
  - induction row as [|c row IH]; [reflexivity|]. simpl.
    destruct (String.eqb_spec (fst c) label) as [Hc|Hc]; simpl.
    + rewrite (proj2 (String.eqb_neq label other)) by congruence.
      rewrite (proj2 (String.eqb_neq (fst c) other)) by congruence. exact IH.
    + destruct (String.eqb (fst c) other); [reflexivity|exact IH].
  - induction row as [|c row IH]; simpl.
    + rewrite (proj2 (String.eqb_neq label other)) by congruence. reflexivity.
    + destruct (String.eqb (fst c) other); [reflexivity|exact IH].
Qed.

Lemma zip_with_map {A B C} (g : B -> A -> C) (f : A -> B) (l : list A) :
  zip_with g (map f l) l = map (fun x => g (f x) x) l.
Proof. induction l as [|x l IH]; simpl; [reflexivity|]. f_equal. exact IH. Qed.

Lemma apply_clean_ref_area_text (cells : list Cell) :
  (forall c, In c cells -> exists url, c = Text url) ->
  apply_clean_ref_area cells = Loaded (map area_of cells).
Proof.
  induction cells as [|c cells IH]; intros Htext; [reflexivity|].
  destruct (Htext c (or_introl eq_refl)) as [url ->]. simpl.
  rewrite IH by (intros c Hc; apply Htext; right; exact Hc). reflexivity.
Qed.

(** A cell that is no text stops the derivation of the areas. *)
Lemma apply_clean_ref_area_number (cells : list Cell) (z : Z) :
  In (Number z) cells -> apply_clean_ref_area cells = Failed AttributeError.
Proof.
  induction cells as [|c cells IH]; intros Hin; [destruct Hin|].
  destruct c as [url|z']; [|reflexivity]. simpl.
  destruct Hin as [Hc|Hin]; [discriminate Hc|]. rewrite (IH Hin). reflexivity.
Qed.

End LoadRows.

Section LoadHeader.

(** The first renaming of [load_data]. *)
Let to_short_parks : string -> string :=
  rename_label [("Existence of public parks - exists", "Public Parks Exist")].

(** What becomes of one label between the first [drop] and the list
    [column_order]. *)
Let kept (x : string) : list string :=
  List.filter (fun col => negb (bool_decide (col ∈ ["Area"; "Public Parks Exist"])))
    (List.filter (fun label => negb (bool_decide (label ∈ ["refArea"; "references"])))
       (map to_short_parks
          (List.filter
             (fun label => negb (bool_decide (label ∈ ["Observation URI"; "dataset"; "publisher"])))
             [x]))).

Lemma filter_map_filter_single (f1 f2 f3 : string -> bool) (g : string -> string) (x : string) :
  f1 x = true -> g x = x -> f2 x = true -> f3 x = true ->
  List.filter f3 (List.filter f2 (map g (List.filter f1 [x]))) = [x].
Proof.
  intros H1 Hg H2 H3. simpl. rewrite H1. simpl. rewrite Hg, H2. simpl. rewrite H3.
  reflexivity.
Qed.

Lemma rename_label_other (old new x : string) :
  x <> old -> rename_label [(old, new)] x = x.
Proof.
  intros Hne. unfold rename_label. simpl.
  rewrite (proj2 (String.eqb_neq old x)) by congruence. reflexivity.
Qed.

Lemma kept_reserved (x : string) :
  kept x = if bool_decide (x ∈ reserved) then [] else [x].
Proof.
  destruct (in_dec string_dec x reserved) as [Hin|Hout].
  - rewrite (proj2 (bool_decide_In _ _) Hin).
    simpl in Hin.
    destruct Hin as [<-|[<-|[<-|[<-|[<-|[<-|[<-|[<-|[]]]]]]]]]; vm_compute; reflexivity.
  - rewrite (bool_decide_not_In _ _ Hout). unfold kept.
    apply filter_map_filter_single.
    + rewrite bool_decide_not_In; [reflexivity|].
      intros H; apply Hout; simpl in *; tauto.
    + apply rename_label_other. intros ->. apply Hout. simpl. tauto.
    + rewrite bool_decide_not_In; [reflexivity|].
      intros H; apply Hout; simpl in *; tauto.
    + rewrite bool_decide_not_In; [reflexivity|].
      intros H; apply Hout; simpl in *; tauto.
Qed.

Lemma kept_labels (h : list string) :
  List.filter (fun col => negb (bool_decide (col ∈ ["Area"; "Public Parks Exist"])))
    (List.filter (fun label => negb (bool_decide (label ∈ ["refArea"; "references"])))
       (map to_short_parks
          (List.filter
             (fun label => negb (bool_decide (label ∈ ["Observation URI"; "dataset"; "publisher"])))
             h)))
  = List.filter (fun label => negb (bool_decide (label ∈ reserved))) h.
Proof.
  induction h as [|x h IH]; [reflexivity|].
  change (x :: h) with ([x] ++ h)%list.
  rewrite !List.filter_app, map_app, !List.filter_app, IH.
  fold (kept x). rewrite kept_reserved. simpl.
  destruct (bool_decide (x ∈ reserved)); reflexivity.
Qed.

End LoadHeader.

Section LoadSteps.

Lemma has_label_In (df : Parsed) (label : string) :
  has_label df label = true <-> In label (header df).
Proof. apply bool_decide_In. Qed.

Lemma drop_ok (names : list string) (df : Parsed) :
  (forall n, In n names -> In n (header df)) ->
  drop names df =
  Ok (mkParsed
        (List.filter (fun label => negb (bool_decide (label ∈ names))) (header df))
        (map (List.filter (fun c => negb (bool_decide (fst c ∈ names)))) (body df))).
Proof.
  intros Hin. unfold drop.
  rewrite (proj2 (forallb_forall _ _)); [reflexivity|].
  intros n Hn. apply has_label_In, Hin, Hn.
Qed.

Lemma drop_missing (names : list string) (df : Parsed) (n : string) :
  In n names -> ~ In n (header df) -> drop names df = Raise KeyError.
Proof.
  intros Hn Hmissing. unfold drop.
  destruct (forallb (has_label df) names) eqn:E; [|reflexivity].
  destruct (Hmissing (proj1 (has_label_In _ _) (proj1 (forallb_forall _ _) E n Hn))).
Qed.

Lemma column_ok (label : string) (df : Parsed) :
  In label (header df) -> column label df = Ok (map (get label) (body df)).
Proof.
  intros Hin. unfold column. rewrite (proj2 (has_label_In _ _) Hin). reflexivity.
Qed.

Lemma column_missing (label : string) (df : Parsed) :
  ~ In label (header df) -> column label df = Raise KeyError.
Proof.
  intros Hmissing. unfold column.
  destruct (has_label df label) eqn:E; [|reflexivity].
  destruct (Hmissing (proj1 (has_label_In _ _) E)).
Qed.

Lemma reorder_ok (order : list string) (df : Parsed) :
  (forall label, In label order -> In label (header df)) ->
  reorder order df =
  Ok (mkParsed order
        (map (fun row => map (fun label => (label, get label row)) order) (body df))).
Proof.
  intros Hin. unfold reorder.
  rewrite (proj2 (forallb_forall _ _)); [reflexivity|].
  intros n Hn. apply has_label_In, Hin, Hn.
Qed.

Lemma reorder_missing (order : list string) (df : Parsed) (label : string) :
  In label order -> ~ In label (header df) -> reorder order df = Raise KeyError.
Proof.
  intros Hn Hmissing. unfold reorder.
  destruct (forallb (has_label df) order) eqn:E; [|reflexivity].
  destruct (Hmissing (proj1 (has_label_In _ _) (proj1 (forallb_forall _ _) E label Hn))).
Qed.

Lemma assign_header (label : string) (values : list Cell) (df : Parsed) (x : string) :
  In x (header (assign label values df)) <-> In x (header df) \/ x = label.
Proof.
  unfold assign. simpl. destruct (has_label df label) eqn:E.
  - apply has_label_In in E. split; [auto|]. intros [H|H]; [exact H|].
    rewrite H. exact E.
  - rewrite in_app_iff. simpl. split.
    + intros [H|[H|[]]]; auto.
    + intros [H|H]; auto.
Qed.

End LoadSteps.

Section LoadDataSteps.

Lemma bind_loaded {A B} (a : A) (f : A -> loaded B) :
  @mbind loaded Load.loaded_mbind A B f (Loaded a) = f a.
Proof. reflexivity. Qed.

Lemma get_dropped (names : list string) (label : string) (row : list (string * Cell)) :
  ~ In label names ->
  get label (List.filter (fun c => negb (bool_decide (fst c ∈ names))) row) = get label row.
Proof.
  intros Hout. set (keep := fun l : string => negb (bool_decide (l ∈ names))).
  change (get label (List.filter (fun c => keep (fst c)) row) = get label row).
  apply get_filter. unfold keep. rewrite bool_decide_not_In by exact Hout. reflexivity.
Qed.

End LoadDataSteps.

(** X16: on a frame of the survey's layout [load_data] succeeds.  The
    cleaned frame has the columns [Area] and [parks_exist] first, then the
    other columns in the order of the file, under their short names where
    [load_data] gives one; the columns [Observation URI], [dataset],
    [publisher], [refArea] and [references] are gone.  Every row keeps its
    cells: [Area] is [clean_ref_area] of the row's [refArea], [parks_exist]
    is the cell of [Existence of public parks - exists], and every other
    cell is the cell of the same column. *)
Theorem load_data_cleans (parsed : Parsed) (Hlayout : survey_layout parsed) :
  let others :=
    List.filter (fun label => negb (bool_decide (label ∈ reserved)))
      (map strip (header parsed)) in
  load_data parsed =
  Loaded
    (mkParsed
       ("Area" :: "parks_exist" :: map (rename_label short_names) others)
       (map (fun row =>
               ("Area", area_of (get "refArea" (stripped row)))
               :: ("parks_exist", get "Existence of public parks - exists" (stripped row))
               :: map (fun label => (rename_label short_names label, get label (stripped row)))
                    others)
            (body parsed))).
Proof.
  destruct Hlayout as [Hnd [Hreq [Hppe [Hrect Htext]]]].
  intros others. unfold load_data.
  rewrite drop_ok.
  2:{ intros n Hn. simpl. apply Hreq. simpl in Hn |- *. tauto. }
  set (P1 := mkParsed _ _).
  change (pandas (Ok P1)) with (Loaded P1).
  rewrite bind_loaded. cbv beta.
  set (P2 := rename [("Existence of public parks - exists", "Public Parks Exist")] P1).
  assert (Hh2 : forall x, In x (map strip (header parsed)) ->
                  ~ In x ["Observation URI"; "dataset"; "publisher"] ->
                  In (rename_label [("Existence of public parks - exists", "Public Parks Exist")] x)
                     (header P2)).
  { intros x Hx Hout. unfold P2, rename, relabel, P1. simpl header.
    apply in_map, filter_In. split; [exact Hx|].
    rewrite bool_decide_not_In by exact Hout. reflexivity. }
  assert (Href : In "refArea" (header P2)).
  { apply (Hh2 "refArea"); [apply Hreq; simpl; tauto|]. simpl. intuition discriminate. }
  assert (Hrefs : In "references" (header P2)).
  { apply (Hh2 "references"); [apply Hreq; simpl; tauto|]. simpl. intuition discriminate. }
  assert (Hparks : In "Public Parks Exist" (header P2)).
  { apply (Hh2 "Existence of public parks - exists"); [apply Hreq; simpl; tauto|].
    simpl. intuition discriminate. }
  rewrite (column_ok _ _ Href).
  change (pandas (Ok ?x)) with (Loaded x).
  rewrite bind_loaded. cbv beta.
  (* the rows of P2 *)
  assert (Hbody2 : body P2 =
            map (fun row => map (fun c => (rename_label [("Existence of public parks - exists", "Public Parks Exist")] (fst c), snd c))
                              (List.filter (fun c => negb (bool_decide (fst c ∈ ["Observation URI"; "dataset"; "publisher"])))
                                 (stripped row)))
                (body parsed)).
  { unfold P2, rename, relabel, P1. simpl body. rewrite !map_map. reflexivity. }
  (* cells of a row of P2, in terms of the stripped row *)
  assert (Hget2 : forall row label,
            In row (body parsed) ->
            In label (map strip (header parsed)) ->
            ~ In label ["Observation URI"; "dataset"; "publisher"] ->
            get (rename_label [("Existence of public parks - exists", "Public Parks Exist")] label)
                (map (fun c => (rename_label [("Existence of public parks - exists", "Public Parks Exist")] (fst c), snd c))
                   (List.filter (fun c => negb (bool_decide (fst c ∈ ["Observation URI"; "dataset"; "publisher"])))
                      (stripped row)))
            = get label (stripped row)).
  { intros row label Hrow Hlabel Hout.
    rewrite get_relabel.
    - apply get_dropped, Hout.
    - intros c Hc. apply filter_In in Hc as [Hc _].
      assert (Hkey : In (fst c) (map strip (header parsed))).
      { rewrite <- (Hrect row Hrow). unfold stripped in Hc.
        apply in_map_iff in Hc as [c0 [<- Hc0]]. simpl.
        rewrite map_map. apply in_map_iff. exists c0. auto. }
      assert (Hhit : rename_label [("Existence of public parks - exists", "Public Parks Exist")]
                       "Existence of public parks - exists" = "Public Parks Exist")
        by reflexivity.
      destruct (string_dec (fst c) "Existence of public parks - exists") as [Hc1|Hc1];
      destruct (string_dec label "Existence of public parks - exists") as [Hl1|Hl1].
      + congruence.
      + rewrite Hc1, Hhit, (rename_label_other _ _ _ Hl1). intros Heq.
        rewrite <- Heq in Hlabel. destruct (Hppe Hlabel).
      + rewrite Hl1, Hhit, (rename_label_other _ _ _ Hc1). intros Heq.
        rewrite Heq in Hkey. destruct (Hppe Hkey).
      + rewrite (rename_label_other _ _ _ Hc1), (rename_label_other _ _ _ Hl1). auto. }
  set (ren1 := rename_label [("Existence of public parks - exists", "Public Parks Exist")]) in *.
  set (row2 := fun row : list (string * Cell) =>
                 map (fun c => (ren1 (fst c), snd c))
                     (List.filter (fun c => negb (bool_decide (fst c ∈ ["Observation URI"; "dataset"; "publisher"])))
                        (stripped row))) in *.
  assert (Hget_ref : forall row, In row (body parsed) ->
            get "refArea" (row2 row) = get "refArea" (stripped row)).
  { intros row Hrow. apply (Hget2 row "refArea" Hrow); [apply Hreq; simpl; tauto|].
    simpl. intuition discriminate. }
  assert (Hget_parks : forall row, In row (body parsed) ->
            get "Public Parks Exist" (row2 row) =
            get "Existence of public parks - exists" (stripped row)).
  { intros row Hrow.
    apply (Hget2 row "Existence of public parks - exists" Hrow); [apply Hreq; simpl; tauto|].
    simpl. intuition discriminate. }
  assert (Hget_other : forall row label, In row (body parsed) -> In label others ->
            get label (row2 row) = get label (stripped row)).
  { intros row label Hrow Hlabel. apply filter_In in Hlabel as [Hlabel Hres].
    apply negb_true_iff in Hres.
    assert (Hnot : ~ In label reserved).
    { intros Hin. apply bool_decide_In in Hin. congruence. }
    rewrite <- (Hget2 row label Hrow Hlabel).
    - unfold ren1. rewrite rename_label_other; [reflexivity|].
      intros ->. apply Hnot. simpl. tauto.
    - intros Hin. apply Hnot. simpl in *. tauto. }
  rewrite apply_clean_ref_area_text.
  2:{ intros c Hc. rewrite Hbody2, map_map in Hc. apply in_map_iff in Hc as [row [<- Hrow]].
      rewrite (Hget_ref row Hrow). apply Htext, Hrow. }
  rewrite bind_loaded. cbv beta.
  set (P3 := assign "Area" _ P2).
  rewrite drop_ok.
  2:{ intros n Hn. apply assign_header. left. simpl in Hn.
      destruct Hn as [<-|[<-|[]]]; assumption. }
  set (P5 := mkParsed _ _).
  change (pandas (Ok P5)) with (Loaded P5). rewrite bind_loaded. cbv beta.
  assert (Hothers : List.filter (fun col => negb (bool_decide (col ∈ ["Area"; "Public Parks Exist"])))
                      (header P5) = others).
  { unfold P5, P3, assign. simpl header.
    assert (Hh : header P2 = map ren1 (List.filter (fun label => negb (bool_decide (label ∈ ["Observation URI"; "dataset"; "publisher"]))) (map strip (header parsed))))
      by reflexivity.
    destruct (has_label P2 "Area").
    - apply kept_labels.
    - rewrite !List.filter_app. rewrite kept_labels. apply app_nil_r. }
  rewrite Hothers.
  assert (Hh5 : forall x, In x (header P3) -> ~ In x ["refArea"; "references"] ->
                  In x (header P5)).
  { intros x Hx Hout. unfold P5. cbn [header]. apply filter_In. split; [exact Hx|].
    rewrite bool_decide_not_In by exact Hout. reflexivity. }
  rewrite reorder_ok.
  2:{ intros label Hlabel.
      destruct Hlabel as [<-|[<-|Hlabel]].
      - apply Hh5; [apply assign_header; right; reflexivity|].
        simpl. intuition discriminate.
      - apply Hh5; [apply assign_header; left; exact Hparks|].
        simpl. intuition discriminate.
      - rewrite <- Hothers in Hlabel. apply filter_In in Hlabel as [Hlabel _].
        exact Hlabel. }
  change (pandas (Ok ?x)) with (Loaded x). rewrite bind_loaded. cbv beta.
  f_equal. unfold rename, relabel. cbn [header body]. f_equal.
  unfold P5. cbn [body]. unfold P3, assign. cbn [body].
  rewrite (map_map (get "refArea") area_of), zip_with_map, Hbody2, !map_map.
  apply map_ext_in. intros row Hrow. fold (row2 row).
  rewrite map_map. cbn [fst snd].
  change (["Area"; "Public Parks Exist"] ++ others)%list
    with ("Area" :: "Public Parks Exist" :: others).
  cbn [map]. f_equal; [|f_equal].
  - f_equal. rewrite get_dropped by (simpl; intuition discriminate).
    rewrite get_set_cell_eq, (Hget_ref row Hrow). reflexivity.
  - f_equal. rewrite get_dropped by (simpl; intuition discriminate).
    rewrite get_set_cell_ne by discriminate. apply Hget_parks, Hrow.
  - apply map_ext_in. intros label Hlabel. f_equal.
    assert (Hnot : ~ In label reserved).
    { apply filter_In in Hlabel as [_ Hres]. apply negb_true_iff in Hres.
      intros Hin. apply bool_decide_In in Hin. congruence. }
    rewrite get_dropped by (intros Hin; apply Hnot; simpl in *; tauto).
    rewrite get_set_cell_ne by (intros ->; apply Hnot; simpl; tauto).
    apply Hget_other; assumption.
Qed.

Lemma sample_layout : survey_layout sample.
Proof.
  split; [|split; [|split; [|split]]].
  - vm_compute. repeat constructor; simpl; intuition discriminate.
  - intros label Hlabel. simpl in Hlabel.
    destruct Hlabel as [<-|[<-|[<-|[<-|[<-|[<-|[]]]]]]]; vm_compute;
      repeat (first [left; reflexivity | right]).
  - vm_compute. intuition discriminate.
  - intros row Hrow. simpl in Hrow. destruct Hrow as [<-|[<-|[]]]; reflexivity.
  - intros row Hrow. simpl in Hrow.
    destruct Hrow as [<-|[<-|[]]]; eexists; vm_compute; reflexivity.
Defined.

Lemma load_data_cleans_witness :
  load_data sample =
  Loaded (mkParsed ["Area"; "parks_exist"; "Town"; "parks_bad"]
            [[("Area", Text "Beirut District"); ("parks_exist", Number 1);
              ("Town", Text "T1"); ("parks_bad", Number 0)];
             [("Area", Text "Akkar"); ("parks_exist", Number 0);
              ("Town", Text "T2"); ("parks_bad", Number 1)]]).
Proof.
  exact (eq_trans (load_data_cleans sample sample_layout) eq_refl).
Defined.

(** ** [str.strip()] *)

Section Strip.

Lemma without_prefix_app (p s rest : string) :
  without_prefix p s = Some rest -> s = p ++ rest.
Proof.
  revert s. induction p as [|a p IH]; intros s; simpl.
  - intros H. injection H as ->. reflexivity.
  - destruct s as [|b s]; [discriminate|].
    destruct (Ascii.eqb_spec a b) as [->|_]; [|discriminate].
    intros H. rewrite (IH _ H). reflexivity.
Qed.

Lemma without_prefix_more (p s rest more : string) :
  without_prefix p s = Some rest -> without_prefix p (s ++ more) = Some (rest ++ more).
Proof.
  revert s. induction p as [|a p IH]; intros s; simpl.
  - intros H. injection H as ->. reflexivity.
  - destruct s as [|b s]; [discriminate|]. simpl.
    destruct (Ascii.eqb a b); [apply IH|discriminate].
Qed.

Lemma string_app_length (a b : string) :
  String.length (a ++ b) = (String.length a + String.length b)%nat.
Proof. induction a as [|c a IH]; simpl; [reflexivity|]. rewrite IH. reflexivity. Qed.

Lemma skip_one_shorter (patterns : list string) (s rest : string) :
  List.Forall (fun p => p <> "") patterns ->
  skip_one patterns s = Some rest ->
  (String.length rest < String.length s)%nat /\ exists p, s = p ++ rest.
Proof.
  induction 1 as [|p ps Hp _ IH]; simpl; [discriminate|].
  destruct (without_prefix p s) as [r|] eqn:E; [|exact IH].
  intros H. injection H as ->. apply without_prefix_app in E.
  split; [|exists p; exact E].
  rewrite E, string_app_length. destruct p; [contradiction|simpl; lia].
Qed.

Lemma skip_one_more (patterns : list string) (s more : string) :
  skip_one patterns (s ++ more) = None -> skip_one patterns s = None.
Proof.
  induction patterns as [|p ps IH]; simpl; [reflexivity|].
  destruct (without_prefix p s) as [r|] eqn:E.
  - rewrite (without_prefix_more _ _ _ more E). discriminate.
  - destruct (without_prefix p (s ++ more)); [discriminate|]. exact IH.
Qed.

(** With fuel for every character, nothing is left to skip. *)
Lemma skip_all_done (patterns : list string) (fuel : nat) : forall s,
  List.Forall (fun p => p <> "") patterns ->
  (String.length s <= fuel)%nat -> skip_one patterns (skip_all patterns fuel s) = None.
Proof.
  induction fuel as [|fuel IH]; intros s Hne Hlen; simpl.
  - destruct s; [|simpl in Hlen; lia].
    destruct (skip_one patterns "") as [rest|] eqn:E; [|reflexivity].
    apply (skip_one_shorter _ _ _ Hne) in E as [E _]. simpl in E. lia.
  - destruct (skip_one patterns s) as [rest|] eqn:E; [|exact E].
    apply IH; [exact Hne|]. apply (skip_one_shorter _ _ _ Hne) in E as [E _]. lia.
Qed.

Lemma skip_all_nothing (patterns : list string) (fuel : nat) (s : string) :
  skip_one patterns s = None -> skip_all patterns fuel s = s.
Proof. intros H. destruct fuel; simpl; [reflexivity|]. rewrite H. reflexivity. Qed.

Lemma string_app_assoc (a b c : string) : (a ++ b) ++ c = a ++ (b ++ c).
Proof.
  induction a as [|x a IH]; [reflexivity|].
  change (String x ((a ++ b) ++ c) = String x (a ++ (b ++ c))). f_equal. exact IH.
Qed.

Lemma skip_all_suffix (patterns : list string) (fuel : nat) : forall s,
  List.Forall (fun p => p <> "") patterns ->
  exists p, s = p ++ skip_all patterns fuel s.
Proof.
  induction fuel as [|fuel IH]; intros s Hne; simpl; [exists ""; reflexivity|].
  destruct (skip_one patterns s) as [rest|] eqn:E; [|exists ""; reflexivity].
  apply (skip_one_shorter _ _ _ Hne) in E as [_ [p ->]].
  destruct (IH rest Hne) as [q Hq]. exists (p ++ q).
  rewrite Hq at 1. symmetry. apply string_app_assoc.
Qed.

End Strip.

Section StripIdempotent.

Lemma list_ascii_app (a b : string) :
  list_ascii_of_string (a ++ b) = (list_ascii_of_string a ++ list_ascii_of_string b)%list.
Proof. induction a as [|c a IH]; simpl; [reflexivity|]. rewrite IH. reflexivity. Qed.

Lemma string_of_list_app (a b : list ascii) :
  string_of_list_ascii (a ++ b) = string_of_list_ascii a ++ string_of_list_ascii b.
Proof. induction a as [|c a IH]; simpl; [reflexivity|]. rewrite IH. reflexivity. Qed.

Lemma reversed_involutive (s : string) : reversed (reversed s) = s.
Proof.
  unfold reversed. rewrite list_ascii_of_string_of_list_ascii, rev_involutive.
  apply string_of_list_ascii_of_string.
Qed.

Lemma reversed_app (a b : string) : reversed (a ++ b) = reversed b ++ reversed a.
Proof.
  unfold reversed. rewrite list_ascii_app, rev_app_distr. apply string_of_list_app.
Qed.

Lemma reversed_length (s : string) : String.length (reversed s) = String.length s.
Proof.
  unfold reversed.
  assert (H : forall l, String.length (string_of_list_ascii l) = length l).
  { induction l as [|c l IH]; simpl; [reflexivity|]. rewrite IH. reflexivity. }
  assert (H' : forall t, length (list_ascii_of_string t) = String.length t).
  { induction t as [|c t IH]; simpl; [reflexivity|]. rewrite IH. reflexivity. }
  rewrite H, length_rev. apply H'.
Qed.

Lemma whitespace_nonempty : List.Forall (fun p => p <> "") whitespace.
Proof. unfold whitespace. repeat constructor; discriminate. Qed.

Lemma reversed_whitespace_nonempty :
  List.Forall (fun p => p <> "") (map reversed whitespace).
Proof. unfold whitespace. simpl map. repeat constructor; discriminate. Qed.

(** A stripped text has no white space at either end. *)
Lemma strip_ends (s : string) :
  skip_one whitespace (strip s) = None
  /\ skip_one (map reversed whitespace) (reversed (strip s)) = None.
Proof.
  unfold strip, rstrip. set (a := lstrip s).
  assert (Ha : skip_one whitespace a = None)
    by (apply skip_all_done; [apply whitespace_nonempty|reflexivity]).
  set (b := skip_all (map reversed whitespace) (String.length a) (reversed a)).
  assert (Hb : skip_one (map reversed whitespace) b = None).
  { apply skip_all_done; [apply reversed_whitespace_nonempty|].
    rewrite reversed_length. reflexivity. }
  split.
  - destruct (skip_all_suffix (map reversed whitespace) (String.length a) (reversed a)
                reversed_whitespace_nonempty) as [p Hp].
    fold b in Hp.
    assert (Hsplit : a = reversed b ++ reversed p).
    { rewrite <- (reversed_involutive a), Hp. apply reversed_app. }
    rewrite Hsplit in Ha. exact (skip_one_more _ _ _ Ha).
  - rewrite reversed_involutive. exact Hb.
Qed.

Lemma strip_fixed (s : string) :
  skip_one whitespace s = None ->
  skip_one (map reversed whitespace) (reversed s) = None ->
  strip s = s.
Proof.
  intros Hl Hr. unfold strip, rstrip, lstrip.
  rewrite (skip_all_nothing _ _ _ Hl), (skip_all_nothing _ _ _ Hr).
  apply reversed_involutive.
Qed.

Lemma strip_strip (s : string) : strip (strip s) = strip s.
Proof. destruct (strip_ends s) as [Hl Hr]. exact (strip_fixed _ Hl Hr). Qed.

End StripIdempotent.

(** ** When [load_data] succeeds *)

Section LoadInversion.

Lemma drop_inv (names : list string) (df out : Parsed) :
  drop names df = Ok out ->
  (forall n, In n names -> In n (header df))
  /\ out = mkParsed
             (List.filter (fun label => negb (bool_decide (label ∈ names))) (header df))
             (map (List.filter (fun c => negb (bool_decide (fst c ∈ names)))) (body df)).
Proof.
  unfold drop. destruct (forallb (has_label df) names) eqn:E; [|discriminate].
  intros H. injection H as <-. split; [|reflexivity].
  intros n Hn. apply has_label_In. exact (proj1 (forallb_forall _ _) E n Hn).
Qed.

Lemma column_inv (label : string) (df : Parsed) (cells : list Cell) :
  column label df = Ok cells ->
  In label (header df) /\ cells = map (get label) (body df).
Proof.
  unfold column. destruct (has_label df label) eqn:E; [|discriminate].
  intros H. injection H as <-. split; [apply has_label_In, E|reflexivity].
Qed.

Lemma reorder_inv (order : list string) (df out : Parsed) :
  reorder order df = Ok out ->
  (forall label, In label order -> In label (header df))
  /\ out = mkParsed order
             (map (fun row => map (fun label => (label, get label row)) order) (body df)).
Proof.
  unfold reorder. destruct (forallb (has_label df) order) eqn:E; [|discriminate].
  intros H. injection H as <-. split; [|reflexivity].
  intros n Hn. apply has_label_In. exact (proj1 (forallb_forall _ _) E n Hn).
Qed.

Lemma apply_clean_ref_area_inv (cells areas : list Cell) :
  apply_clean_ref_area cells = Loaded areas ->
  areas = map area_of cells /\ forall c, In c cells -> exists url, c = Text url.
Proof.
  revert areas. induction cells as [|c cells IH]; intros areas; simpl.
  - intros H. injection H as <-. split; [reflexivity|intros c []].
  - destruct c as [url|z]; [|discriminate].
    destruct (apply_clean_ref_area cells) as [rest|e]; [|discriminate].
    intros H. injection H as <-. destruct (IH rest eq_refl) as [-> Htext].
    split; [reflexivity|]. intros c [<-|Hc]; [eauto|apply Htext, Hc].
Qed.

(** The stages of a successful [load_data]. *)
Lemma load_data_inv (parsed out : Parsed) :
  load_data parsed = Loaded out ->
  let P2 := rename [("Existence of public parks - exists", "Public Parks Exist")]
              (mkParsed
                 (List.filter
                    (fun label => negb (bool_decide (label ∈ ["Observation URI"; "dataset"; "publisher"])))
                    (header (relabel strip parsed)))
                 (map (List.filter
                         (fun c => negb (bool_decide (fst c ∈ ["Observation URI"; "dataset"; "publisher"]))))
                      (body (relabel strip parsed)))) in
  let P3 := assign "Area" (map area_of (map (get "refArea") (body P2))) P2 in
  let P5 := mkParsed
              (List.filter (fun label => negb (bool_decide (label ∈ ["refArea"; "references"])))
                 (header P3))
              (map (List.filter (fun c => negb (bool_decide (fst c ∈ ["refArea"; "references"]))))
                 (body P3)) in
  let order := ("Area" :: "Public Parks Exist"
                :: List.filter (fun col => negb (bool_decide (col ∈ ["Area"; "Public Parks Exist"])))
                     (header P5)) in
  (forall n, In n ["Observation URI"; "dataset"; "publisher"] ->
             In n (map strip (header parsed)))
  /\ In "refArea" (header P2)
  /\ (forall c, In c (map (get "refArea") (body P2)) -> exists url, c = Text url)
  /\ (forall n, In n ["refArea"; "references"] -> In n (header P3))
  /\ (forall label, In label order -> In label (header P5))
  /\ out = rename short_names
             (mkParsed order
                (map (fun row => map (fun label => (label, get label row)) order) (body P5))).
Proof.
  unfold load_data.
  destruct (drop ["Observation URI"; "dataset"; "publisher"] (relabel strip parsed))
    as [P1|e] eqn:E1; [|discriminate].
  apply drop_inv in E1 as [H1 ->].
  change (pandas (Ok ?x)) with (Loaded x). rewrite bind_loaded. cbv beta.
  set (P2 := rename _ _).
  destruct (column "refArea" P2) as [cells|e] eqn:E2; [|discriminate].
  apply column_inv in E2 as [H2 ->].
  change (pandas (Ok ?x)) with (Loaded x). rewrite bind_loaded. cbv beta.
  destruct (apply_clean_ref_area (map (get "refArea") (body P2))) as [areas|e] eqn:E3;
    [|discriminate].
  apply apply_clean_ref_area_inv in E3 as [-> H3]. rewrite bind_loaded. cbv beta.
  set (P3 := assign "Area" _ P2).
  destruct (drop ["refArea"; "references"] P3) as [P5|e] eqn:E4; [|discriminate].
  apply drop_inv in E4 as [H4 ->].
  change (pandas (Ok ?x)) with (Loaded x). rewrite bind_loaded. cbv beta.
  set (P5 := mkParsed _ _).
  destruct (reorder _ P5) as [P6|e] eqn:E5; [|discriminate].
  apply reorder_inv in E5 as [H5 ->].
  change (pandas (Ok ?x)) with (Loaded x). rewrite bind_loaded. cbv beta.
  intros H. injection H as <-.
  repeat split; assumption || reflexivity.
Qed.

Lemma rename_label_cases (mapping : list (string * string)) (x : string) :
  rename_label mapping x = x \/ In (rename_label mapping x) (map snd mapping).
Proof.
  unfold rename_label.
  destruct (List.find (fun m => String.eqb (fst m) x) mapping) as [m|] eqn:E; [|left; reflexivity].
  right. apply find_some in E as [Hm _]. apply in_map, Hm.
Qed.

End LoadInversion.

Section LoadedHeader.

Lemma to_short_parks_inv (x y : string) :
  rename_label [("Existence of public parks - exists", "Public Parks Exist")] x = y ->
  x = y \/ (x = "Existence of public parks - exists" /\ y = "Public Parks Exist").
Proof.
  destruct (string_dec x "Existence of public parks - exists") as [->|Hne].
  - intros <-. right. split; reflexivity.
  - rewrite (rename_label_other _ _ _ Hne). auto.
Qed.

Lemma negb_bool_decide_In (x : string) (l : list string) :
  negb (bool_decide (x ∈ l)) = true <-> ~ In x l.
Proof.
  rewrite negb_true_iff. split.
  - intros H Hin. apply bool_decide_In in Hin. congruence.
  - apply bool_decide_not_In.
Qed.

(** The labels of the frame, as [load_data] finds them after the first
    [drop] and [rename]. *)
Lemma renamed_label (parsed : Parsed) (x : string) :
  In x (map (rename_label [("Existence of public parks - exists", "Public Parks Exist")])
          (List.filter
             (fun label => negb (bool_decide (label ∈ ["Observation URI"; "dataset"; "publisher"])))
             (map strip (header parsed)))) ->
  exists x0,
    In x0 (map strip (header parsed))
    /\ ~ In x0 ["Observation URI"; "dataset"; "publisher"]
    /\ (x = x0 \/ (x0 = "Existence of public parks - exists" /\ x = "Public Parks Exist")).
Proof.
  intros Hx. apply in_map_iff in Hx as [x0 [Hren Hx0]].
  apply filter_In in Hx0 as [Hx0 Hkeep]. apply negb_bool_decide_In in Hkeep.
  exists x0. split; [exact Hx0|]. split; [exact Hkeep|].
  destruct (to_short_parks_inv _ _ Hren) as [->|[-> ->]]; [left|right]; auto.
Qed.

Lemma short_name_targets (y : string) :
  In y (map snd short_names) ->
  strip y = y
  /\ ~ In y ["Observation URI"; "dataset"; "publisher"; "refArea"; "references"].
Proof.
  intros Hy. simpl in Hy.
  destruct Hy as [<-|[<-|[<-|[<-|[<-|[<-|[<-|[]]]]]]]];
    (split; [vm_compute; reflexivity|simpl; intuition discriminate]).
Qed.

(** What a successful [load_data] tells about the file and the frame. *)
Lemma loaded_frame (parsed out : Parsed)
    (Hload : load_data parsed = Loaded out) :
  (forall label,
     In label ["Observation URI"; "dataset"; "publisher"; "refArea"; "references"] ->
     In label (map strip (header parsed)))
  /\ (In "Existence of public parks - exists" (map strip (header parsed))
      \/ In "Public Parks Exist" (map strip (header parsed)))
  /\ length (body out) = length (body parsed)
  /\ (exists rest, header out = "Area" :: "parks_exist" :: rest)
  /\ (forall label,
        In label ["Observation URI"; "dataset"; "publisher"; "refArea"; "references"] ->
        ~ In label (header out))
  /\ (forall label, In label (header out) -> strip label = label).
Proof.
  destruct (load_data_inv _ _ Hload) as [H1 [H2 [_ [H4 [H5 Hout]]]]].
  cbv zeta in *.
  set (P2 := rename _ _) in *.
  set (P3 := assign "Area" _ P2) in *.
  set (P5 := mkParsed _ (map _ (body P3))) in *.
  assert (Hh2 : forall x, In x (header P2) ->
            exists x0, In x0 (map strip (header parsed))
              /\ ~ In x0 ["Observation URI"; "dataset"; "publisher"]
              /\ (x = x0 \/ (x0 = "Existence of public parks - exists"
                             /\ x = "Public Parks Exist")))
    by (intros x Hx; apply renamed_label; exact Hx).
  assert (Hh5 : forall x, In x (header P5) ->
            ~ In x ["refArea"; "references"]
            /\ (x = "Area" \/ In x (header P2))).
  { intros x Hx. unfold P5 in Hx. cbn [header] in Hx.
    apply filter_In in Hx as [Hx Hkeep]. apply negb_bool_decide_In in Hkeep.
    split; [exact Hkeep|]. apply assign_header in Hx. tauto. }
  assert (Hfrom : forall x, In x (header P2) -> x <> "Public Parks Exist" ->
            In x (map strip (header parsed))
            /\ ~ In x ["Observation URI"; "dataset"; "publisher"]).
  { intros x Hx Hne. destruct (Hh2 x Hx) as [x0 [Hx0 [Hkeep [->|[_ ->]]]]];
      [auto|contradiction]. }
  (* the labels of the result *)
  assert (Hlabels : forall y, In y (header out) ->
            y = "Area" \/ In y (map snd short_names)
            \/ (In y (map strip (header parsed))
                /\ ~ In y ["Observation URI"; "dataset"; "publisher"; "refArea"; "references"])).
  { intros y Hy. rewrite Hout in Hy. unfold rename, relabel in Hy. cbn [header] in Hy.
    apply in_map_iff in Hy as [x [<- Hx]].
    destruct Hx as [<-|[<-|Hx]].
    - left. reflexivity.
    - right. left. simpl. tauto.
    - apply filter_In in Hx as [Hx Hnot]. apply negb_bool_decide_In in Hnot.
      destruct (rename_label_cases short_names x) as [->|Hshort]; [|tauto].
      destruct (Hh5 x Hx) as [Hkeep [->|Hx2]]; [left; reflexivity|].
      destruct (Hfrom x Hx2) as [Hx0 Hkeep1]; [intros ->; apply Hnot; simpl; tauto|].
      right. right. split; [exact Hx0|]. simpl in *. tauto. }
  split; [|split; [|split; [|split; [|split]]]].
  - intros label Hlabel. simpl in Hlabel.
    destruct Hlabel as [<-|[<-|[<-|Hlabel]]]; try (apply H1; simpl; tauto).
    + assert (Hlabel' : In label ["refArea"; "references"]) by (simpl in *; tauto).
      assert (Hin2 : In label (header P2)).
      { destruct Hlabel as [<-|[<-|[]]]; [exact H2|].
        apply H4 in Hlabel'. apply assign_header in Hlabel'.
        destruct Hlabel' as [H|H]; [exact H|discriminate H]. }
      apply Hfrom; [exact Hin2|].
      destruct Hlabel as [<-|[<-|[]]]; discriminate.
  - assert (Hp : In "Public Parks Exist" (header P5)) by (apply H5; simpl; tauto).
    destruct (Hh5 _ Hp) as [_ [Hp2|Hp2]]; [discriminate Hp2|].
    destruct (Hh2 _ Hp2) as [x0 [Hx0 [_ [<-|[-> _]]]]]; auto.
  - rewrite Hout. unfold rename, relabel. cbn [body]. rewrite !length_map.
    unfold P5. cbn [body]. rewrite length_map. unfold P3, assign. cbn [body].
    rewrite map_map, zip_with_map, length_map. unfold P2, rename, relabel. cbn [body].
    rewrite !length_map. reflexivity.
  - rewrite Hout. unfold rename, relabel. cbn [header]. eexists. reflexivity.
  - intros label Hlabel Hin. destruct (Hlabels _ Hin) as [->|[Hshort|[_ Hnot]]].
    + simpl in Hlabel. intuition discriminate.
    + exact (proj2 (short_name_targets _ Hshort) Hlabel).
    + exact (Hnot Hlabel).
  - intros label Hin. destruct (Hlabels _ Hin) as [->|[Hshort|[Hstripped _]]].
    + vm_compute. reflexivity.
    + exact (proj1 (short_name_targets _ Hshort)).
    + apply in_map_iff in Hstripped as [l0 [<- _]]. apply strip_strip.
Qed.

Lemma sample_frame : csv_frame sample.
Proof.
  split; [|split].
  - vm_compute. repeat constructor; simpl; intuition discriminate.
  - vm_compute. intuition discriminate.
  - intros row Hrow. simpl in Hrow. destruct Hrow as [<-|[<-|[]]]; reflexivity.
Defined.

(** The cells of [refArea] as [load_data] reads them. *)
Lemma get_ref_area (row : list (string * Cell)) :
  get "refArea"
    (map (fun c => (rename_label [("Existence of public parks - exists", "Public Parks Exist")]
                      (fst c), snd c))
       (List.filter
          (fun c => negb (bool_decide (fst c ∈ ["Observation URI"; "dataset"; "publisher"])))
          (stripped row)))
  = get "refArea" (stripped row).
Proof.
  change (get "refArea")
    with (get (rename_label [("Existence of public parks - exists", "Public Parks Exist")]
                 "refArea")) at 1.
  rewrite get_relabel.
  - apply get_dropped. simpl. intuition discriminate.
  - intros c _ Hc. destruct (to_short_parks_inv _ _ Hc) as [Heq|[_ Heq]];
      [exact Heq|discriminate Heq].
Qed.

End LoadedHeader.

(** X17: when [load_data] returns a frame for a file with distinct
    labels, the stripped labels of the file include [Observation URI], [dataset], [publisher], [refArea],
    [references] and a column of park existence, under its long or its
    short name.  The returned frame has as many rows as the file, its first
    two columns are [Area] and [parks_exist], and none of the five dropped
    columns is left. *)
Theorem load_data_loaded (parsed out : Parsed)
    (Hframe : csv_frame parsed)
    (Hload : load_data parsed = Loaded out) :
  (forall label,
     In label ["Observation URI"; "dataset"; "publisher"; "refArea"; "references"] ->
     In label (map strip (header parsed)))
  /\ (In "Existence of public parks - exists" (map strip (header parsed))
      \/ In "Public Parks Exist" (map strip (header parsed)))
  /\ length (body out) = length (body parsed)
  /\ (exists rest, header out = "Area" :: "parks_exist" :: rest)
  /\ (forall label,
        In label ["Observation URI"; "dataset"; "publisher"; "refArea"; "references"] ->
        ~ In label (header out)).
Proof.
  destruct (loaded_frame _ _ Hload) as [Hneeds [Hparks [Hrows [Hfirst [Hgone _]]]]].
  auto.
Qed.

Lemma load_data_loaded_witness :
  csv_frame sample
  /\ load_data sample = Loaded cleaned_sample
  /\ length (body cleaned_sample) = length (body sample)
  /\ ~ In "refArea" (header cleaned_sample).
Proof.
  assert (Hload : load_data sample = Loaded cleaned_sample) by (vm_compute; reflexivity).
  destruct (load_data_loaded sample cleaned_sample sample_frame Hload)
    as [_ [_ [Hrows [_ Hgone]]]].
  split; [exact sample_frame|]. split; [exact Hload|]. split; [exact Hrows|].
  apply Hgone. simpl. tauto.
Defined.

(** X18: [load_data] cannot clean its own result: the frame it returns for
    a file with distinct labels has no [Observation URI] column, so on that
    frame the first [drop] raises [KeyError]. *)
Theorem load_data_twice (parsed out : Parsed)
    (Hframe : csv_frame parsed)
    (Hload : load_data parsed = Loaded out) :
  load_data out = Failed (Pandas KeyError).
Proof.
  destruct (loaded_frame _ _ Hload) as [_ [_ [_ [_ [Hgone Hstripped]]]]].
  unfold load_data.
  rewrite (drop_missing _ _ "Observation URI"); [reflexivity|simpl; tauto|].
  unfold relabel. cbn [header]. intros Hin.
  apply in_map_iff in Hin as [label [Hs Hlabel]].
  rewrite (Hstripped _ Hlabel) in Hs. subst label.
  apply (Hgone "Observation URI"); [simpl; tauto|exact Hlabel].
Qed.

Lemma load_data_twice_witness :
  csv_frame sample
  /\ load_data sample = Loaded cleaned_sample
  /\ load_data cleaned_sample = Failed (Pandas KeyError).
Proof.
  assert (Hload : load_data sample = Loaded cleaned_sample) by (vm_compute; reflexivity).
  split; [exact sample_frame|]. split; [exact Hload|].
  exact (load_data_twice sample cleaned_sample sample_frame Hload).
Defined.

(** X19: on a file with distinct labels that has the columns
    [Observation URI], [dataset], [publisher] and [refArea], one cell of [refArea] that is no text stops
    [load_data]: [clean_ref_area] calls [split] on the cell, which raises
    [AttributeError]. *)
Theorem load_data_ref_area_not_text (parsed : Parsed) (row : list (string * Cell)) (z : Z)
    (Hframe : csv_frame parsed)
    (Hlabels : forall label,
       In label ["Observation URI"; "dataset"; "publisher"; "refArea"] ->
       In label (map strip (header parsed)))
    (Hrow : In row (body parsed))
    (Hcell : get "refArea" (stripped row) = Number z) :
  load_data parsed = Failed AttributeError.
Proof.
  unfold load_data.
  rewrite drop_ok.
  2:{ intros n Hn. simpl. apply Hlabels. simpl in Hn |- *. tauto. }
  set (P1 := mkParsed _ _).
  change (pandas (Ok P1)) with (Loaded P1).
  rewrite bind_loaded. cbv beta.
  set (P2 := rename [("Existence of public parks - exists", "Public Parks Exist")] P1).
  assert (Href : In "refArea" (header P2)).
  { unfold P2, rename, relabel, P1. cbn [header].
    change "refArea"
      with (rename_label [("Existence of public parks - exists", "Public Parks Exist")]
              "refArea") at 1.
    apply in_map, filter_In. split; [apply Hlabels; simpl; tauto|].
    rewrite bool_decide_not_In by (simpl; intuition discriminate). reflexivity. }
  rewrite (column_ok _ _ Href).
  change (pandas (Ok ?x)) with (Loaded x).
  rewrite bind_loaded. cbv beta.
  rewrite (apply_clean_ref_area_number _ z); [reflexivity|].
  unfold P2, rename, P1. unfold relabel. cbn [body]. rewrite !map_map.
  apply in_map_iff. exists row. split; [|exact Hrow].
  rewrite <- Hcell. apply get_ref_area.
Qed.

Lemma load_data_ref_area_not_text_witness :
  load_data
    (mkParsed ["Observation URI"; "dataset"; "publisher"; "refArea"; "Town"]
       [[("Observation URI", Text "http://data.example/obs/1"); ("dataset", Text "d");
         ("publisher", Text "p"); ("refArea", Number 7); ("Town", Text "T1")]])
  = Failed AttributeError.
Proof.
  apply (load_data_ref_area_not_text _
           [("Observation URI", Text "http://data.example/obs/1"); ("dataset", Text "d");
            ("publisher", Text "p"); ("refArea", Number 7); ("Town", Text "T1")] 7).
  - split; [|split].
    + vm_compute. repeat constructor; simpl; intuition discriminate.
    + vm_compute. intuition discriminate.
    + intros row Hrow. simpl in Hrow. destruct Hrow as [<-|[]]. reflexivity.
  - intros label Hlabel. simpl in Hlabel.
    destruct Hlabel as [<-|[<-|[<-|[<-|[]]]]]; vm_compute;
      repeat (first [left; reflexivity | right]).
  - simpl. left. reflexivity.
  - vm_compute. reflexivity.
Defined.
